(** * cloud-init: NoCloud seed resolution and the hotplug hook

    A shallow embedding of
    - [cloudinit/sources/DataSourceNoCloud.py]: the kernel command line
      parser, the seed merge and the resolver [_get_data];
    - [cloudinit/cmd/devel/hotplug_hook.py]: the retry loop [try_hotplug],
      the coordinator [handle_hotplug] and [enable_hotplug].

    Python dictionaries are finite maps ([gmap]), Python exceptions are an
    explicit sum, the collaborators that live in other modules ([util],
    [dmi], [stages], the datasource object) are fields of an environment
    record, and the calls whose number or order matters are recorded in a
    trace. *)

From stdpp Require Import gmap strings list sorting.
From Stdlib Require Import ZArith Ascii.

Open Scope string_scope.

(** ** Python values and exceptions *)

Set Warnings "-register-all".

(** The values that travel through the seed: YAML scalars, lists and
    mappings. *)
Inductive pyval :=
| PNone
| PBool (b : bool)
| PInt (z : Z)
| PStr (s : string)
| PList (l : list pyval)
| PDict (d : gmap string pyval).

Abbreviation dict := (gmap string pyval).

(** Python truthiness, as used by [if x:]. *)
Definition truthy (v : pyval) : bool :=
  match v with
  | PNone => false
  | PBool b => b
  | PInt z => negb (z =? 0)%Z
  | PStr s => negb (String.eqb s "")
  | PList l => match l with [] => false | _ => true end
  | PDict d => negb (bool_decide (d = ∅))
  end.

(** Subclasses of [Exception] that the modelled code raises or catches. *)
Inductive exn :=
| ValueError
| IndexError
| KeyError (k : string)
| AttributeError
| TypeError
| OSError (errno : Z)
| MountFailedError
| RuntimeError (msg : string)
| DataSourceNotFoundException
| OtherException (name : string).

Definition ENOENT : Z := 2.

(** A call that returns or raises. *)
Inductive res (A : Type) :=
| Ok (a : A)
| Err (e : exn).
Arguments Ok {A} a.
Arguments Err {A} e.

(** ** String operations of Python used by the sources

    Strings are sequences of bytes; the case conversions and the white
    space test are the ASCII ones. *)
Module Py.

Definition startswith (s p : string) : bool := String.prefix p s.

(** [sub in s] *)
Fixpoint contains (sub s : string) : bool :=
  String.prefix sub s ||
  match s with
  | EmptyString => false
  | String _ s' => contains sub s'
  end.

Definition isspace (c : ascii) : bool :=
  let n := nat_of_ascii c in
  ((9 <=? n)%nat && (n <=? 13)%nat) || ((28 <=? n)%nat && (n <=? 32)%nat).

Definition snoc (s : string) (c : ascii) : string := s +:+ String c EmptyString.

(** [s.split()] : maximal runs of non white space characters. *)
Fixpoint split_ws_go (acc s : string) : list string :=
  match s with
  | EmptyString => if String.eqb acc "" then [] else [acc]
  | String c s' =>
      if isspace c
      then (if String.eqb acc "" then split_ws_go "" s'
            else acc :: split_ws_go "" s')
      else split_ws_go (snoc acc c) s'
  end.
Definition split_ws (s : string) : list string := split_ws_go "" s.

(** [s.split(sep)] for a one character separator. *)
Fixpoint split_go (sep : ascii) (acc s : string) : list string :=
  match s with
  | EmptyString => [acc]
  | String c s' =>
      if Ascii.eqb c sep then acc :: split_go sep "" s'
      else split_go sep (snoc acc c) s'
  end.
Definition split (sep : ascii) (s : string) : list string := split_go sep "" s.

(** [s.split(sep, 1)] for a one character separator. *)
Fixpoint split1_go (sep : ascii) (acc s : string) : list string :=
  match s with
  | EmptyString => [acc]
  | String c s' =>
      if Ascii.eqb c sep then [acc; s']
      else split1_go sep (snoc acc c) s'
  end.
Definition split1 (sep : ascii) (s : string) : list string := split1_go sep "" s.

Definition upper_char (c : ascii) : ascii :=
  let n := nat_of_ascii c in
  if ((97 <=? n) && (n <=? 122))%nat then ascii_of_nat (n - 32) else c.
Definition lower_char (c : ascii) : ascii :=
  let n := nat_of_ascii c in
  if ((65 <=? n) && (n <=? 90))%nat then ascii_of_nat (n + 32) else c.

Fixpoint map_string (f : ascii -> ascii) (s : string) : string :=
  match s with
  | EmptyString => EmptyString
  | String c s' => String (f c) (map_string f s')
  end.
Definition upper : string -> string := map_string upper_char.
Definition lower : string -> string := map_string lower_char.

(** [sep.join(l)] *)
Definition join (sep : string) (l : list string) : string := String.concat sep l.

End Py.

(** ** Helpers of [cloudinit.util] that are not part of the sources *)
Module Util.

(** Modelled from the spec: [util.mergemanydict] is called by the resolver
    but defined in [cloudinit/util.py], which is not among the sources.
    It combines a list of mappings into one, key by key, skipping the
    entries that are empty or [None], and does not merge inside a value.
    The spec reads the helper in two ways.  Where it speaks of the
    defaults, they come in without replacing what the sources supplied:
    "metadata always contains instance-id and dsmode after full
    resolution", and in its scenarios the [instance-id: abc] of a volume
    and the [dsmode] derived from the command line stand in the resolved
    metadata beside the defaults, which [_get_data] hands over as the last
    entry, [mergemanydict([mydata["meta-data"], defaults])]; the sources
    comment the same call shape, [mergemanydict([mydata["meta-data"],
    md_seed])], with "Values in the command line override those from the
    seed".  This definition is that reading, the one under which
    [_get_data] is run here: the entry that comes first in the list keeps
    its value.  The other reading, the merge rule that the spec states,
    is [mergemanydict_last_writer_wins] below. *)
Definition mergemanydict (sources : list (option dict)) : dict :=
  foldl (fun merged cfg =>
           match cfg with
           | Some d => merged ∪ d
           | None => merged
           end) ∅ sources.

(** Modelled from the spec: [util.mergemanydict] as the merge rule of the
    spec has it, "recursive last writer wins per key - shallow-merge
    semantics; same key from later source replaces entirely, not
    deep-merged": the mappings of the list are combined key by key, the
    entries that are empty or [None] are skipped, and on a shared key the
    entry that comes later in the list gives the whole value. *)
Definition mergemanydict_last_writer_wins (sources : list (option dict)) : dict :=
  foldl (fun merged cfg =>
           match cfg with
           | Some d => d ∪ merged
           | None => merged
           end) ∅ sources.

End Util.

(** ** DataSourceNoCloud.py *)
Module NoCloud.

(** What the module imports from [cloudinit.sources], [cloudinit.util] and
    [cloudinit.dmi], none of which is part of the sources: the three
    [DSMODE_*] constants, the readers of the machine, and
    [DataSource._determine_dsmode] (called with the current [self.dsmode]
    and the list of candidates).  [read_dmi_data] yields a string or
    [None]; [load_yaml] and the first component of [read_seeded] yield a
    mapping or [None]. *)
Record Env := {
  DSMODE_LOCAL : string;
  DSMODE_NETWORK : string;
  DSMODE_DISABLED : string;
  read_dmi_data : string -> res (option string);
  get_cmdline : res string;
  pathprefix2dict : string -> res dict;
  find_devs_with : string -> list string;
  mount_cb : string -> res dict;
  sub_dmi_vars : string -> string;
  read_seeded : string -> res (option dict * pyval * pyval * pyval);
  load_yaml : pyval -> res (option dict);
  _determine_dsmode : string -> list pyval -> string;
}.

(** The attributes of a [DataSourceNoCloud] object that [_get_data] reads
    or writes. *)
Record DataSourceNoCloud := {
  seed : option string;
  seed_dirs : list string;
  supported_seed_starts : list string;
  dsmode : string;
  ds_cfg : dict;
  metadata : dict;
  userdata_raw : pyval;
  vendordata_raw : pyval;
  _network_config : pyval;
  _network_eni : pyval;
}.

(** The local dictionary [mydata] of [_get_data]; it always has these four
    keys. *)
Record mydata := {
  meta_data : dict;
  user_data : pyval;
  vendor_data : pyval;
  network_config : pyval;
}.

(** The calls recorded in the trace of a resolution. *)
Inductive event :=
| EvMerge (sources : list (option dict))
| EvDsmode (candidates : list pyval).

(** *** A monad for the body of [_get_data]

    The state is the object and the trace; a computation goes on, leaves
    [_get_data] with a [return], or raises. *)
Record state := { self : DataSourceNoCloud; trace : list event }.

Inductive ctl (A : Type) :=
| Next (a : A)
| Return (b : bool)
| Raise (e : exn).
Arguments Next {A} a.
Arguments Return {A} b.
Arguments Raise {A} e.

Definition M (A : Type) : Type := state -> ctl A * state.

Definition ret {A} (a : A) : M A := fun st => (Next a, st).
Definition bind {A B} (m : M A) (k : A -> M B) : M B :=
  fun st =>
    match m st with
    | (Next a, st') => k a st'
    | (Return b, st') => (Return b, st')
    | (Raise e, st') => (Raise e, st')
    end.
Definition return_ {A} (b : bool) : M A := fun st => (Return b, st).
Definition raise {A} (e : exn) : M A := fun st => (Raise e, st).
Definition lift {A} (r : res A) : M A :=
  match r with Ok a => ret a | Err e => raise e end.
Definition tell (ev : event) : M unit :=
  fun st => (Next tt, {| self := self st; trace := (trace st ++ [ev])%list |}).
Definition get_self : M DataSourceNoCloud := fun st => (Next (self st), st).
Definition set_self (ds : DataSourceNoCloud) : M unit :=
  fun st => (Next tt, {| self := ds; trace := trace st |}).

(** [try: m except ...: handler]; the handler says which exceptions it
    catches. *)
Definition try_except {A} (m : M A) (handler : exn -> option (M A)) : M A :=
  fun st =>
    match m st with
    | (Raise e, st') =>
        match handler e with
        | Some h => h st'
        | None => (Raise e, st')
        end
    | r => r
    end.

Notation "x <- m ;; k" := (bind m (fun x => k))
  (at level 100, m at next level, right associativity).
Notation "m ;;; k" := (bind m (fun _ => k))
  (at level 100, right associativity).

Section WithEnv.
Context (env : Env).

(** short2long mapping to save cmdline typing *)
Definition s2l : gmap string string :=
  {[ "h" := "local-hostname"; "i" := "instance-id"; "s" := "seedfrom" ]}.

(** The loop over [kvpairs] of [parse_cmdline_data]. *)
Fixpoint fill_kvpairs (kvpairs : list string) (fill : dict) : dict :=
  match kvpairs with
  | [] => fill
  | item :: rest =>
      if String.eqb item "" then fill_kvpairs rest fill
      else
        let '(k, v) :=
          match Py.split1 "=" item with
          | [k; v] => (k, PStr v)
          | _ => (item, PNone)
          end in
        let k := default k (s2l !! k) in
        fill_kvpairs rest (<[k := v]> fill)
  end.

(** The loop over the tokens of the command line: the last token that
    starts with [ds_id] sets [argline]; [None] is the initial [""]. *)
Definition find_argline (ds_id : string) (toks : list string) : option (list string) :=
  foldl (fun argline tok =>
           if Py.startswith tok ds_id then Some (Py.split1 "=" tok) else argline)
        None toks.

(** [parse_cmdline_data(ds_id, fill, cmdline=None)]: the updated [fill]
    and the returned boolean. *)
Definition parse_cmdline_data (ds_id : string) (fill : dict) (cmdline : option string)
  : res (dict * bool) :=
  match (match cmdline with Some c => Ok c | None => get_cmdline env end) with
  | Err e => Err e
  | Ok cmdline =>
      let cmdline := " " +:+ cmdline +:+ " " in
      if negb (Py.contains (" " +:+ ds_id +:+ " ") cmdline
               || Py.contains (" " +:+ ds_id +:+ ";") cmdline)
      then Ok (fill, false)
      else
        match find_argline ds_id (Py.split_ws cmdline) with
        | Some (_ :: a1 :: _) =>
            let tmp := Py.split ";" a1 in
            let kvpairs := if decide (1 < length tmp) then drop 1 tmp else [] in
            Ok (fill_kvpairs kvpairs fill, true)
        | _ => Err IndexError
        end
  end.

Definition startswith_any (s : string) (prefixes : list string) : bool :=
  existsb (Py.startswith s) prefixes.

(** The body of the loop of [load_cmdline_data] once
    [parse_cmdline_data] has returned true. *)
Definition set_cmdline_dsmode (fill : dict) (dsmode : string) : res dict :=
  if decide (is_Some (fill !! "dsmode")) then Ok fill
  else
    match fill !! "seedfrom" with
    | Some v =>
        if truthy v then
          match v with
          | PStr seedfrom =>
              if startswith_any seedfrom ["http://"; "https://"; "ftp://"; "ftps://"]
              then Ok (<["dsmode" := PStr (DSMODE_NETWORK env)]> fill)
              else if startswith_any seedfrom ["file://"; "/"]
              then Ok (<["dsmode" := PStr (DSMODE_LOCAL env)]> fill)
              else Ok fill
          | _ => Err AttributeError
          end
        else Ok (<["dsmode" := PStr dsmode]> fill)
    | None => Ok (<["dsmode" := PStr dsmode]> fill)
    end.

Fixpoint load_cmdline_pairs (pairs : list (string * string)) (fill : dict)
    (cmdline : option string) : res (dict * bool) :=
  match pairs with
  | [] => Ok (fill, false)
  | (idstr, dsmode) :: rest =>
      match parse_cmdline_data idstr fill cmdline with
      | Err e => Err e
      | Ok (fill', false) => load_cmdline_pairs rest fill' cmdline
      | Ok (fill', true) =>
          match set_cmdline_dsmode fill' dsmode with
          | Ok fill'' => Ok (fill'', true)
          | Err e => Err e
          end
      end
  end.

(** [load_cmdline_data(fill, cmdline=None)] *)
Definition load_cmdline_data (fill : dict) (cmdline : option string) : res (dict * bool) :=
  load_cmdline_pairs
    [("ds=nocloud", DSMODE_LOCAL env); ("ds=nocloud-net", DSMODE_NETWORK env)]
    fill cmdline.

(** [util.mergemanydict], recorded in the trace. *)
Definition mergemanydict (sources : list (option dict)) : M dict :=
  tell (EvMerge sources) ;;; ret (Util.mergemanydict sources).

Definition of_opt_dict (o : option dict) : pyval :=
  match o with Some d => PDict d | None => PNone end.

(** The value of [newmd] in [_merge_new_seed]: the [meta-data] of the
    seed, parsed when it is not a mapping already. *)
Definition seed_metadata (seeded : dict) : res (option dict) :=
  match seeded !! "meta-data" with
  | None => Err (KeyError "meta-data")
  | Some (PDict d) => Ok (Some d)
  | Some v => load_yaml env v
  end.

(** [_merge_new_seed(cur, seeded)] *)
Definition _merge_new_seed (cur : mydata) (seeded : dict) : M mydata :=
  newmd <- lift (seed_metadata seeded) ;;
  md <- mergemanydict [Some (meta_data cur); newmd] ;;
  nc <- match seeded !! "network-config" with
        | Some v =>
            if truthy v then
              y <- lift (load_yaml env v) ;; ret (of_opt_dict y)
            else ret (network_config cur)
        | None => ret (network_config cur)
        end ;;
  ret {| meta_data := md;
         user_data := default (user_data cur) (seeded !! "user-data");
         vendor_data := default (vendor_data cur) (seeded !! "vendor-data");
         network_config := nc |}.

(** Descending order on device names, for [devlist.sort(reverse=True)]. *)
Definition str_ge (a b : string) : Prop := String.leb b a = true.
#[local] Instance str_ge_dec a b : Decision (str_ge a b).
Proof. unfold str_ge. apply _. Defined.

(** [DataSourceNoCloud._get_devices(label)] *)
Definition _get_devices (label : string) : list string :=
  let fslist := (find_devs_with env "TYPE=vfat"
                 ++ find_devs_with env "TYPE=iso9660")%list in
  let label_list :=
    (find_devs_with env ("LABEL=" +:+ Py.upper label)
     ++ find_devs_with env ("LABEL=" +:+ Py.lower label)
     ++ find_devs_with env ("LABEL_FATBOOT=" +:+ label))%list in
  let devlist :=
    elements ((list_to_set fslist : gset string) ∩ list_to_set label_list) in
  merge_sort str_ge devlist.

(** The initial value of [mydata]. *)
Definition mydata0 : mydata :=
  {| meta_data := ∅; user_data := PStr ""; vendor_data := PStr "";
     network_config := PNone |}.

(** The accumulator of the resolver: [mydata] and the list [found]. *)
Definition acc : Type := mydata * list string.

(** Parse the system serial label from dmi; if not empty, try parsing like
    the command line.  Any exception ends the resolution with [False]. *)
Definition load_dmi (a : acc) : M acc :=
  try_except
    (serial <- lift (read_dmi_data env "system-serial-number") ;;
     match serial with
     | Some s =>
         if String.eqb s "" then ret a
         else
           r <- lift (load_cmdline_data ∅ (Some s)) ;;
           if r.2 then
             m <- _merge_new_seed a.1 {[ "meta-data" := PDict r.1 ]} ;;
             ret (m, (a.2 ++ ["dmi"])%list)
           else ret a
     | None => ret a
     end)
    (fun _ => Some (return_ false)).

(** Parse the kernel command line. *)
Definition load_cmdline (a : acc) : M acc :=
  try_except
    (r <- lift (load_cmdline_data ∅ None) ;;
     if r.2 then
       m <- _merge_new_seed a.1 {[ "meta-data" := PDict r.1 ]} ;;
       ret (m, (a.2 ++ ["cmdline"])%list)
     else ret a)
    (fun _ => Some (return_ false)).

(** The loop over [self.seed_dirs]: the first directory that has the
    required files is used; [found] is extended before the merge. *)
Fixpoint load_seed_dirs (paths : list string) (a : acc) : M acc :=
  match paths with
  | [] => ret a
  | path :: rest =>
      match pathprefix2dict env path with
      | Ok seeded =>
          let found := (a.2 ++ [path])%list in
          try_except
            (m <- _merge_new_seed a.1 seeded ;; ret (m, found))
            (fun e => match e with
                      | ValueError => Some (load_seed_dirs rest (a.1, found))
                      | _ => None
                      end)
      | Err ValueError => load_seed_dirs rest a
      | Err e => raise e
      end
  end.

(** A [seedfrom] entry of the datasource configuration. *)
Definition load_ds_cfg_seedfrom (cfg : dict) (a : acc) : M acc :=
  match cfg !! "seedfrom" with
  | Some v =>
      if truthy v then
        ret ({| meta_data := <["seedfrom" := v]> (meta_data a.1);
                user_data := user_data a.1;
                vendor_data := vendor_data a.1;
                network_config := network_config a.1 |},
             (a.2 ++ ["ds_config_seedfrom"])%list)
      else ret a
  | None => ret a
  end.

(** [user-data] and [meta-data] given in the datasource configuration. *)
Definition load_ds_cfg (cfg : dict) (a : acc) : M acc :=
  if decide (is_Some (cfg !! "user-data") ∧ is_Some (cfg !! "meta-data")) then
    m <- _merge_new_seed a.1 cfg ;;
    ret (m, (a.2 ++ ["ds_config"])%list)
  else ret a.

(** The loop over the labelled devices. *)
Fixpoint load_devices (devs : list string) (a : acc) : M acc :=
  match devs with
  | [] => ret a
  | dev :: rest =>
      match mount_cb env dev with
      | Err ValueError => load_devices rest a
      | r =>
          try_except
            (seeded <- lift r ;;
             m <- _merge_new_seed a.1 seeded ;;
             ret (m, (a.2 ++ [dev])%list))
            (fun e => match e with
                      | OSError errno =>
                          if decide (errno = ENOENT)
                          then Some (load_devices rest a)
                          else None
                      | MountFailedError => Some (load_devices rest a)
                      | _ => None
                      end)
      end
  end.

Definition load_labelled (cfg : dict) (a : acc) : M acc :=
  match default (PStr "cidata") (cfg !! "fs_label") with
  | PNone => ret a
  | PStr label => load_devices (_get_devices label) a
  | _ => raise AttributeError
  end.

(** Everything up to the test [if not found]. *)
Definition gather : M acc :=
  ds <- get_self ;;
  a <- load_dmi (mydata0, []) ;;
  a <- load_cmdline a ;;
  a <- load_seed_dirs (seed_dirs ds) a ;;
  a <- load_ds_cfg_seedfrom (ds_cfg ds) a ;;
  a <- load_ds_cfg (ds_cfg ds) a ;;
  load_labelled (ds_cfg ds) a.

(** The loop over [self.supported_seed_starts]; the result is the value of
    [seedfound]. *)
Fixpoint find_seed_proto (seedfrom : pyval) (protos : list string) : res (option string) :=
  match protos with
  | [] => Ok None
  | proto :: rest =>
      match seedfrom with
      | PStr s => if Py.startswith s proto then Ok (Some proto)
                  else find_seed_proto seedfrom rest
      | _ => Err AttributeError
      end
  end.

(** The special argument [seedfrom]: fetch it and lay it over what was
    gathered. *)
Definition load_seedfrom (a : acc) : M acc :=
  match meta_data a.1 !! "seedfrom" with
  | None => ret a
  | Some v =>
      ds <- get_self ;;
      seedfound <- lift (find_seed_proto v (supported_seed_starts ds)) ;;
      if negb (match seedfound with
               | Some proto => negb (String.eqb proto "")
               | None => false
               end)
      then return_ false
      else
        match v with
        | PStr s =>
            let seedfrom := sub_dmi_vars env s in
            r <- lift (read_seeded env seedfrom) ;;
            let '(md_seed, ud, vd, network) := r in
            md <- mergemanydict [Some (meta_data a.1); md_seed] ;;
            ret ({| meta_data := md; user_data := ud; vendor_data := vd;
                    network_config := network |},
                 (a.2 ++ [seedfrom])%list)
        | _ => raise AttributeError
        end
  end.

Definition defaults (ds : DataSourceNoCloud) : dict :=
  {[ "instance-id" := PStr "nocloud"; "dsmode" := PStr (dsmode ds) ]}.

Definition set_dsmode (ds : DataSourceNoCloud) (m : string) : DataSourceNoCloud :=
  {| seed := seed ds; seed_dirs := seed_dirs ds;
     supported_seed_starts := supported_seed_starts ds;
     dsmode := m; ds_cfg := ds_cfg ds; metadata := metadata ds;
     userdata_raw := userdata_raw ds; vendordata_raw := vendordata_raw ds;
     _network_config := _network_config ds; _network_eni := _network_eni ds |}.

(** The assignments at the end of [_get_data]. *)
Definition claim (ds : DataSourceNoCloud) (found : list string) (m : mydata)
  : DataSourceNoCloud :=
  {| seed := Some (Py.join "," found); seed_dirs := seed_dirs ds;
     supported_seed_starts := supported_seed_starts ds;
     dsmode := dsmode ds; ds_cfg := ds_cfg ds;
     metadata := meta_data m;
     userdata_raw := user_data m; vendordata_raw := vendor_data m;
     _network_config := network_config m;
     _network_eni := default PNone (meta_data m !! "network-interfaces") |}.

(** From the test [if not found] to the end. *)
Definition finish (dflt : dict) (a : acc) : M bool :=
  if decide (a.2 = []) then return_ false
  else
    a <- load_seedfrom a ;;
    md <- mergemanydict [Some (meta_data a.1); Some dflt] ;;
    ds <- get_self ;;
    let candidates := [default PNone (md !! "dsmode")] in
    tell (EvDsmode candidates) ;;;
    let ds := set_dsmode ds (_determine_dsmode env (dsmode ds) candidates) in
    set_self ds ;;;
    if String.eqb (dsmode ds) (DSMODE_DISABLED env) then return_ false
    else
      set_self (claim ds a.2
                  {| meta_data := md; user_data := user_data a.1;
                     vendor_data := vendor_data a.1;
                     network_config := network_config a.1 |}) ;;;
      ret true.

Definition _get_data_body : M bool :=
  ds <- get_self ;;
  let dflt := defaults ds in
  a <- gather ;;
  finish dflt a.

(** [DataSourceNoCloud._get_data()]: the object afterwards, the calls made,
    and the value returned or the exception raised. *)
Definition run {A} (m : M A) (ds : DataSourceNoCloud) : ctl A * state :=
  m {| self := ds; trace := [] |}.

Definition _get_data (ds : DataSourceNoCloud) : res bool * state :=
  match run _get_data_body ds with
  | (Next b, st) => (Ok b, st)
  | (Return b, st) => (Ok b, st)
  | (Raise e, st) => (Err e, st)
  end.

(** *** Notions used to state the properties of the resolver *)

Definition is_merge (e : event) : Prop :=
  match e with EvMerge _ => True | EvDsmode _ => False end.

Definition is_dsmode (e : event) : bool :=
  match e with EvMerge _ => false | EvDsmode _ => true end.

(** How many times a run has computed dsmode. *)
Definition dsmode_count (tr : list event) : nat :=
  length (List.filter is_dsmode tr).

(** A computation that does not return [True], leaves the object alone and
    records nothing but merges. *)
Definition merges_only {A} (m : M A) : Prop :=
  forall st r st', m st = (r, st') ->
    r <> Return true /\ self st' = self st /\
    exists l, trace st' = (trace st ++ l)%list /\ Forall is_merge l.

(** What [finish] does once the seedfrom layer is in place. *)
Definition resolve_dsmode (dflt : dict) (a : acc) (st : state) : ctl bool * state :=
  let md := meta_data a.1 ∪ dflt in
  let c := [default PNone (md !! "dsmode")] in
  let m := _determine_dsmode env (dsmode (self st)) c in
  let tr := (trace st ++ [EvMerge [Some (meta_data a.1); Some dflt]; EvDsmode c])%list in
  if String.eqb m (DSMODE_DISABLED env)
  then (Return false, {| self := set_dsmode (self st) m; trace := tr |})
  else (Next true,
        {| self := claim (set_dsmode (self st) m) a.2
                     {| meta_data := md; user_data := user_data a.1;
                        vendor_data := vendor_data a.1;
                        network_config := network_config a.1 |};
           trace := tr |}).

(** A seed source that is consulted and yields nothing, without ending
    the resolution: the serial number is empty or does not name NoCloud,
    the command line does not name NoCloud, no seed directory has the
    required files, the configuration gives neither a seedfrom nor a
    [user-data]/[meta-data] pair, and every labelled volume is not a valid
    seed, is absent or fails to mount. *)
Definition dmi_silent : Prop :=
  match read_dmi_data env "system-serial-number" with
  | Ok (Some s) =>
      s = "" \/ exists fill, load_cmdline_data ∅ (Some s) = Ok (fill, false)
  | Ok None => True
  | Err _ => False
  end.
Definition cmdline_silent : Prop :=
  exists fill, load_cmdline_data ∅ None = Ok (fill, false).
Definition seed_dirs_silent (ds : DataSourceNoCloud) : Prop :=
  Forall (fun path => pathprefix2dict env path = Err ValueError) (seed_dirs ds).
Definition ds_cfg_silent (ds : DataSourceNoCloud) : Prop :=
  match ds_cfg ds !! "seedfrom" with Some v => truthy v = false | None => True end
  /\ ~ (is_Some (ds_cfg ds !! "user-data") /\ is_Some (ds_cfg ds !! "meta-data")).
Definition volume_silent (dev : string) : Prop :=
  mount_cb env dev = Err ValueError \/ mount_cb env dev = Err (OSError ENOENT)
  \/ mount_cb env dev = Err MountFailedError.
Definition volumes_silent (ds : DataSourceNoCloud) : Prop :=
  match default (PStr "cidata") (ds_cfg ds !! "fs_label") with
  | PNone => True
  | PStr label => Forall volume_silent (_get_devices label)
  | _ => False
  end.

End WithEnv.
End NoCloud.

(** ** The two layering steps of the resolver, for any merge

    [_merge_new_seed] and the seedfrom step of [_get_data] are the places
    where the metadata of a seed source is laid over what was gathered
    before; both hand [util.mergemanydict] the list of the gathered
    metadata and the new one, in this order.  Here they are once more,
    with the merge as a parameter, so that what they do can be stated for
    either reading of the helper. *)
Module NoCloudMerge.
Import NoCloud.

Section WithMerge.
Context (env : Env).
(** [util.mergemanydict] *)
Context (merge : list (option dict) -> dict).

(** [util.mergemanydict], recorded in the trace. *)
Definition mergemanydict_with (sources : list (option dict)) : M dict :=
  tell (EvMerge sources) ;;; ret (merge sources).

(** [_merge_new_seed(cur, seeded)] *)
Definition _merge_new_seed_with (cur : mydata) (seeded : dict) : M mydata :=
  newmd <- lift (seed_metadata env seeded) ;;
  md <- mergemanydict_with [Some (meta_data cur); newmd] ;;
  nc <- match seeded !! "network-config" with
        | Some v =>
            if truthy v then
              y <- lift (load_yaml env v) ;; ret (of_opt_dict y)
            else ret (network_config cur)
        | None => ret (network_config cur)
        end ;;
  ret {| meta_data := md;
         user_data := default (user_data cur) (seeded !! "user-data");
         vendor_data := default (vendor_data cur) (seeded !! "vendor-data");
         network_config := nc |}.

(** The special argument [seedfrom] of [_get_data]: fetch it and lay it
    over what was gathered. *)
Definition load_seedfrom_with (a : acc) : M acc :=
  match meta_data a.1 !! "seedfrom" with
  | None => ret a
  | Some v =>
      ds <- get_self ;;
      seedfound <- lift (find_seed_proto v (supported_seed_starts ds)) ;;
      if negb (match seedfound with
               | Some proto => negb (String.eqb proto "")
               | None => false
               end)
      then return_ false
      else
        match v with
        | PStr s =>
            let seedfrom := sub_dmi_vars env s in
            r <- lift (read_seeded env seedfrom) ;;
            let '(md_seed, ud, vd, network) := r in
            md <- mergemanydict_with [Some (meta_data a.1); md_seed] ;;
            ret ({| meta_data := md; user_data := ud; vendor_data := vd;
                    network_config := network |},
                 (a.2 ++ [seedfrom])%list)
        | _ => raise AttributeError
        end
  end.

(** [layered earlier later after]: the resolver has laid the metadata
    [later] of a seed source over the metadata [earlier] gathered from
    the sources consulted before it, and obtained [after].  The seeds of
    the DMI serial, the command line, a seed directory, the datasource
    configuration and a labelled volume go through [_merge_new_seed]; the
    seed fetched from the [seedfrom] URL is laid over last. *)
Inductive layered : dict -> option dict -> dict -> Prop :=
| layered_seed cur seeded newmd st m st' :
    seed_metadata env seeded = Ok newmd ->
    _merge_new_seed_with cur seeded st = (Next m, st') ->
    layered (meta_data cur) newmd (meta_data m)
| layered_seedfrom a url md_seed ud vd network st a' st' :
    meta_data a.1 !! "seedfrom" = Some (PStr url) ->
    read_seeded env (sub_dmi_vars env url) = Ok (md_seed, ud, vd, network) ->
    load_seedfrom_with a st = (Next a', st') ->
    layered (meta_data a.1) md_seed (meta_data a'.1).

End WithMerge.
End NoCloudMerge.

(** ** cmd/devel/hotplug_hook.py *)
Module Hotplug.

(** Modelled from the spec: the enumerations of [cloudinit.event], which
    is not among the sources; the hook names [EventScope.NETWORK] and
    [EventType.HOTPLUG] and uses [scope.value] as the name kept in the
    state file. *)
Inductive EventScope := NETWORK.
Inductive EventType := BOOT_NEW_INSTANCE | BOOT | BOOT_LEGACY | HOTPLUG.

Definition scope_value (s : EventScope) : string :=
  match s with NETWORK => "network" end.

#[global] Instance EventScope_eq_dec : EqDecision EventScope.
Proof. solve_decision. Defined.
#[global] Instance EventType_eq_dec : EqDecision EventType.
Proof. solve_decision. Defined.

(** [datasource.hotplug_retry_settings]; durations and clock readings are
    integers. *)
Record HotplugRetrySettings := {
  force_retry : bool;
  sleep_period : Z;
  sleep_total : Z;
}.

(** The collaborators of the hook, over a state [D] that stands for the
    datasource, the distro and the machine: [Init.fetch] (true when it
    returns an object), the attributes and methods of the datasource,
    [stages.update_event_enabled] (which is given the scopes of the state
    file), [read_sys_net_safe] ([None] when it returns [False]), the
    interfaces of [parse_net_config_data(config).iter_interfaces()], the
    distro and its activator, [Init._write_to_cache], [util.write_file] on
    the state file, [install_hotplug] and the clock. *)
Record Collab (D : Type) := {
  fetch : D -> res bool * D;
  get_supported_events : D -> list EventType -> list (EventScope * list EventType);
  update_event_enabled : D -> list string -> EventType -> EventScope -> bool;
  hotplug_retry_settings : D -> HotplugRetrySettings;
  skip_hotplug_detect : D -> bool;
  update_metadata_if_supported : list EventType -> D -> res bool * D;
  read_sys_net_safe : D -> string -> string -> option string;
  iter_interfaces : D -> res (list dict);
  apply_network_config : D -> res unit * D;
  bring_up_interface : string -> D -> res bool * D;
  _write_to_cache : D -> res unit * D;
  write_file : list string -> D -> res unit * D;
  install_hotplug : D -> res unit * D;
  time : D -> Z;
  sleep : Z -> D -> D;
}.
Arguments fetch {D}.
Arguments get_supported_events {D}.
Arguments update_event_enabled {D}.
Arguments hotplug_retry_settings {D}.
Arguments skip_hotplug_detect {D}.
Arguments update_metadata_if_supported {D}.
Arguments read_sys_net_safe {D}.
Arguments iter_interfaces {D}.
Arguments apply_network_config {D}.
Arguments bring_up_interface {D}.
Arguments _write_to_cache {D}.
Arguments write_file {D}.
Arguments install_hotplug {D}.
Arguments time {D}.
Arguments sleep {D}.

(** The calls recorded in the trace of the hook. *)
Inductive call :=
| CallFetch
| CallRefresh
| CallDetect
| CallApplyNetworkConfig
| CallBringUp (interface_name : string)
| CallSuccess
| CallSleep (secs : Z)
| CallWriteFile (scopes : list string)
| CallInstallHotplug.

#[global] Instance call_eq_dec : EqDecision call.
Proof. solve_decision. Defined.

(** The world: the collaborators' state, the scopes in the
    [hotplug.enabled] file (none when the file is absent), and the trace. *)
Record world (D : Type) := {
  ds : D;
  hotplug_enabled_file : list string;
  log : list call;
}.
Arguments ds {D}.
Arguments hotplug_enabled_file {D}.
Arguments log {D}.

(** [UeventHandler]: the fields that are not collaborators. *)
Record UeventHandler := {
  id : option string;
  devpath : string;
  action : string;
}.

Section WithCollab.
Context {D : Type} (c : Collab D).

Definition H (A : Type) : Type := world D -> res A * world D.

Definition ret {A} (a : A) : H A := fun w => (Ok a, w).
Definition raise {A} (e : exn) : H A := fun w => (Err e, w).
Definition bind {A B} (m : H A) (k : A -> H B) : H B :=
  fun w => match m w with
           | (Ok a, w') => k a w'
           | (Err e, w') => (Err e, w')
           end.
(** [try: m except Exception as e: handler e] *)
Definition try_except {A} (m : H A) (handler : exn -> H A) : H A :=
  fun w => match m w with
           | (Ok a, w') => (Ok a, w')
           | (Err e, w') => handler e w'
           end.

Notation "x <- m ;; k" := (bind m (fun x => k))
  (at level 100, m at next level, right associativity).
Notation "m ;;; k" := (bind m (fun _ => k))
  (at level 100, right associativity).

(** Call a collaborator: record the call, then let it act on its state. *)
Definition invoke {A} (ev : call) (f : D -> res A * D) : H A :=
  fun w =>
    let (r, d) := f (ds w) in
    (r, {| ds := d; hotplug_enabled_file := hotplug_enabled_file w;
           log := (log w ++ [ev])%list |}).
(** Read an attribute of the collaborators. *)
Definition ask {A} (f : D -> A) : H A := fun w => (Ok (f (ds w)), w).

Definition time_sleep (secs : Z) : H unit :=
  invoke (CallSleep secs) (fun d => (Ok tt, sleep c secs d)).

(** [os.path.basename] *)
Definition basename (p : string) : string :=
  List.last (Py.split "/" p) "".

(** [iface.get("mac_address") == self.id] *)
Definition mac_matches (self_id : option string) (iface : dict) : bool :=
  match self_id, default PNone (iface !! "mac_address") with
  | Some i, PStr m => String.eqb m i
  | None, PBool false => true
  | None, PInt 0 => true
  | _, _ => false
  end.

(** [NetHandler.device_detected] *)
Definition device_detected (self : UeventHandler) : H bool :=
  ifaces <- invoke CallDetect (fun d => (iter_interfaces c d, d)) ;;
  let found := filter (fun iface => mac_matches (id self) iface = true) ifaces in
  ret (bool_decide (0 < length found)).

(** [UeventHandler.detect_hotplugged_device]; the message of the
    [RuntimeError] names the device in the source. *)
Definition detect_hotplugged_device (self : UeventHandler) : H unit :=
  if String.eqb (action self) "add" then
    detected <- device_detected self ;;
    if negb (Bool.eqb true detected)
    then raise (RuntimeError "Failed to detect device in updated metadata")
    else ret tt
  else raise ValueError.

(** [UeventHandler.success] *)
Definition success : H unit := invoke CallSuccess (_write_to_cache c).

(** [UeventHandler.update_metadata] *)
Definition update_metadata : H unit :=
  result <- invoke CallRefresh (update_metadata_if_supported c [HOTPLUG]) ;;
  if negb result then raise (RuntimeError "Datasource not updated for event")
  else ret tt.

(** [NetHandler.apply] *)
Definition apply (self : UeventHandler) : H unit :=
  invoke CallApplyNetworkConfig (apply_network_config c) ;;;
  let interface_name := basename (devpath self) in
  if String.eqb (action self) "add" then
    up <- invoke (CallBringUp interface_name) (bring_up_interface c interface_name) ;;
    if negb up then raise (RuntimeError "Failed to bring up device")
    else ret tt
  else ret tt.

(** [SUBSYSTEM_PROPERTIES_MAP]: every subsystem is handled by [NetHandler];
    the map gives its scope. *)
Definition SUBSYSTEM_PROPERTIES_MAP : gmap string EventScope :=
  {[ "net" := NETWORK ]}.

Definition is_enabled (subsystem : string) : H bool :=
  match SUBSYSTEM_PROPERTIES_MAP !! subsystem with
  | None => raise (RuntimeError "hotplug-hook: cannot handle events for subsystem")
  | Some scope =>
      fun w => (Ok (update_event_enabled c (ds w) (hotplug_enabled_file w)
                      HOTPLUG scope), w)
  end.

(** [initialize_datasource]: whether a datasource is returned. *)
Definition initialize_datasource (subsystem : string) : H bool :=
  datasource <- invoke CallFetch (fetch c) ;;
  if negb datasource then raise AttributeError
  else
    supported <- ask (fun d => get_supported_events c d [HOTPLUG]) ;;
    if bool_decide (supported = []) then ret false
    else
      enabled <- is_enabled subsystem ;;
      if negb enabled then ret false else ret true.

(** One attempt: the body of the [try] in [try_hotplug]. *)
Definition attempt (self : UeventHandler) : H unit :=
  update_metadata ;;;
  skip <- ask (skip_hotplug_detect c) ;;
  (if negb skip then detect_hotplugged_device self else ret tt) ;;;
  apply self ;;;
  success.

(** The loop of [try_hotplug] over the remaining [wait_times]. *)
Fixpoint try_hotplug_loop (self : UeventHandler) (wait_times : list Z)
    (last_exception : exn) : H unit :=
  match wait_times with
  | [] => raise last_exception
  | wait :: rest =>
      try_except (attempt self)
        (fun e => time_sleep wait ;;; try_hotplug_loop self rest e)
  end.

Definition wait_times : list Z := [1; 3; 5; 10; 30]%Z.

Definition try_hotplug (self : UeventHandler) : H unit :=
  try_hotplug_loop self wait_times
    (OtherException "Bug while processing hotplug event.").

(** The [while] loop of [handle_hotplug]; [None] when the fuel runs out
    before the window closes. *)
Fixpoint force_retry_loop (fuel : nat) (self : UeventHandler) (start : Z)
    (w : world D) : option (res unit * world D) :=
  match fuel with
  | O => None
  | S fuel' =>
      if bool_decide (time c (ds w) - start
                      < sleep_total (hotplug_retry_settings c (ds w)))%Z
      then
        match try_hotplug self w with
        | (Ok _, w1) =>
            match time_sleep (sleep_period (hotplug_retry_settings c (ds w1))) w1 with
            | (_, w2) => force_retry_loop fuel' self start w2
            end
        | (Err e, w1) => Some (Err e, w1)
        end
      else Some (Ok tt, w)
  end.

(** [handle_hotplug(hotplug_init, devpath, subsystem, udevaction)] *)
Definition handle_hotplug (fuel : nat) (devpath subsystem udevaction : string)
    (w : world D) : option (res unit * world D) :=
  match initialize_datasource subsystem w with
  | (Err e, w1) => Some (Err e, w1)
  | (Ok false, w1) => Some (Ok tt, w1)
  | (Ok true, w1) =>
      let event_handler :=
        {| id := read_sys_net_safe c (ds w1) (basename devpath) "address";
           devpath := devpath; action := udevaction |} in
      let start := time c (ds w1) in
      if negb (force_retry (hotplug_retry_settings c (ds w1)))
      then Some (try_hotplug event_handler w1)
      else force_retry_loop fuel event_handler start w1
  end.

(** [EventType.HOTPLUG in
    datasource.get_supported_events([EventType.HOTPLUG]).get(scope, set())] *)
Definition hotplug_supported (d : D) (scope : EventScope) : bool :=
  bool_decide (HOTPLUG ∈ default [] (snd <$> List.find
                 (fun p => bool_decide (p.1 = scope))
                 (get_supported_events c d [HOTPLUG]))).

(** [enable_hotplug(hotplug_init, subsystem)] *)
Definition enable_hotplug (subsystem : string) : H bool :=
  datasource <- invoke CallFetch (fetch c) ;;
  if negb datasource then ret false
  else
    match SUBSYSTEM_PROPERTIES_MAP !! subsystem with
    | None => raise (KeyError subsystem)
    | Some scope =>
        supported <- ask (fun d => hotplug_supported d scope) ;;
        if negb supported then ret false
        else
          fun w =>
            let scopes := hotplug_enabled_file w in
            if bool_decide (scope_value scope ∈ scopes) then (Ok true, w)
            else
              let scopes' := (scopes ++ [scope_value scope])%list in
              (r <- invoke (CallWriteFile scopes') (write_file c scopes') ;;
               (fun w' => (Ok r, {| ds := ds w'; hotplug_enabled_file := scopes';
                                    log := log w' |})) ;;;
               invoke CallInstallHotplug (install_hotplug c) ;;;
               ret true) w
    end.

(** *** Notions used to state the properties of the hook *)

(** The calls of an attempt that fails before the configuration is
    applied: the refresh alone, or the refresh and the detection. *)
Definition failed_attempt_calls (l : list call) : Prop :=
  l = [CallRefresh] \/ l = [CallRefresh; CallDetect].

(** The calls of a run in which an attempt fails for each of the given
    delays, each attempt being followed by its delay. *)
Fixpoint exhausted (waits : list Z) (calls : list call) : Prop :=
  match waits with
  | [] => calls = []
  | wait :: rest =>
      exists l calls', failed_attempt_calls l /\
        calls = (l ++ CallSleep wait :: calls')%list /\ exhausted rest calls'
  end.

(** A computation that leaves the state file as it is. *)
Definition keeps_file {A} (m : H A) : Prop :=
  forall w r w', m w = (r, w') -> hotplug_enabled_file w' = hotplug_enabled_file w.

(** The wall clock is still inside the window opened at [start]. *)
Definition in_window (start : Z) (w : world D) : Prop :=
  (time c (ds w) - start < sleep_total (hotplug_retry_settings c (ds w)))%Z.

(** One round of the force-retry loop that succeeds: the attempts of
    [try_hotplug] end well and the loop sleeps for [sleep_period]. *)
Definition round_ok (self : UeventHandler) (start : Z) (w w' : world D) : Prop :=
  in_window start w /\
  exists w1, try_hotplug self w = (Ok tt, w1) /\
    (time_sleep (sleep_period (hotplug_retry_settings c (ds w1))) w1).2 = w'.

End WithCollab.

(** How many times the persistence callback was called. *)
Definition success_count (l : list call) : nat :=
  length (List.filter (fun ev => bool_decide (ev = CallSuccess)) l).
(** How many attempts were started: each one begins with a refresh. *)
Definition attempt_count (l : list call) : nat :=
  length (List.filter (fun ev => bool_decide (ev = CallRefresh)) l).
(** The delays slept, in order. *)
Fixpoint sleeps (l : list call) : list Z :=
  match l with
  | [] => []
  | CallSleep n :: l' => n :: sleeps l'
  | _ :: l' => sleeps l'
  end.

End Hotplug.

(** ** Concrete machines, used to run the definitions *)
Module Examples.
Import NoCloud.

(** A block device as [blkid] describes it. *)
Record blkdev := {
  dev_path : string;
  dev_type : string;
  dev_label : string;
  dev_label_fatboot : string;
}.

Definition tag_of (d : blkdev) (tag : string) : option string :=
  if String.eqb tag "TYPE" then Some (dev_type d)
  else if String.eqb tag "LABEL" then Some (dev_label d)
  else if String.eqb tag "LABEL_FATBOOT" then Some (dev_label_fatboot d)
  else None.

(** Modelled from the spec: [util.find_devs_with] ("find_devices_by
    (predicate) -> ordered_sequence[device_path]") is not among the
    sources; on a table of devices, the criteria [TAG=value] selects the
    devices whose tag has exactly that value, in the order of the table. *)
Definition find_devs_with_in (table : list blkdev) (criteria : string) : list string :=
  match Py.split1 "=" criteria with
  | [tag; value] =>
      dev_path <$> filter (fun d => tag_of d tag = Some value) table
  | _ => []
  end.

(** Modelled from the spec: [DataSource._determine_dsmode] is not among
    the sources; the first explicit candidate is taken when it is one of
    the three modes, and the default otherwise. *)
Fixpoint example_determine_dsmode (dflt : string) (candidates : list pyval) : string :=
  match candidates with
  | [] => dflt
  | PNone :: rest => example_determine_dsmode dflt rest
  | PStr s :: _ =>
      if bool_decide (s ∈ ["disabled"; "local"; "net"]) then s else dflt
  | _ :: _ => dflt
  end.

(** A reader for the [key: value] lines of the example seeds, standing for
    [util.load_yaml]. *)
Definition example_yaml_line (l : string) : option (string * pyval) :=
  match Py.split1 ":" l with
  | [k; String " " v] => Some (k, PStr v)
  | _ => None
  end.
Definition example_load_yaml (v : pyval) : res (option dict) :=
  match v with
  | PStr s =>
      if String.eqb s "" then Ok None
      else Ok (Some (list_to_map (omap example_yaml_line (Py.split "010" s))))
  | _ => Err AttributeError
  end.

Definition example_env (serial : option string) (cmdline : string)
    (dirs : string -> res dict) (table : list blkdev)
    (volumes : string -> res dict)
    (urls : string -> res (option dict * pyval * pyval * pyval)) : Env :=
  {| DSMODE_LOCAL := "local"; DSMODE_NETWORK := "net";
     DSMODE_DISABLED := "disabled";
     read_dmi_data := fun _ => Ok serial;
     get_cmdline := Ok cmdline;
     pathprefix2dict := dirs;
     find_devs_with := find_devs_with_in table;
     mount_cb := volumes;
     sub_dmi_vars := fun s => s;
     read_seeded := urls;
     load_yaml := example_load_yaml;
     _determine_dsmode := example_determine_dsmode |}.

Definition no_dir : string -> res dict := fun _ => Err ValueError.
Definition no_volume : string -> res dict := fun _ => Err MountFailedError.
Definition no_url : string -> res (option dict * pyval * pyval * pyval) :=
  fun _ => Err (OtherException "UrlError").

(** A fresh [DataSourceNoCloud] object. *)
Definition ds0 : DataSourceNoCloud :=
  {| seed := None;
     seed_dirs := ["/var/lib/cloud/seed/nocloud"; "/var/lib/cloud/seed/nocloud-net"];
     supported_seed_starts := ["/"; "file://"];
     dsmode := "net"; ds_cfg := ∅; metadata := ∅;
     userdata_raw := PNone; vendordata_raw := PNone;
     _network_config := PNone; _network_eni := PNone |}.

(** A machine on which nothing points to NoCloud. *)
Definition bare_env : Env :=
  example_env None "root=/dev/sda1 ro quiet" no_dir [] no_volume no_url.

(** The kernel command line names an instance id and a seed URL; the seed
    at that URL names another instance id and a host name. *)
Definition seed_url_reply : option dict * pyval * pyval * pyval :=
  (Some {[ "instance-id" := PStr "from-seed"; "local-hostname" := PStr "seedhost" ]},
   PStr "#cloud-config", PStr "", PNone).
Definition cmdline_seed_env : Env :=
  example_env None "ro ds=nocloud;i=from-cmdline;s=file:///seed/" no_dir []
    no_volume
    (fun url => if String.eqb url "file:///seed/" then Ok seed_url_reply
                else Err (OtherException "UrlError")).

(** The kernel command line asks for [dsmode=disabled] next to a full set
    of keys. *)
Definition disabled_env : Env :=
  example_env None "ro ds=nocloud;i=iid-1;h=host1;dsmode=disabled" no_dir []
    no_volume no_url.

(** A CD-ROM whose label is spelled in mixed case. *)
Definition mixed_case_table : list blkdev :=
  [ {| dev_path := "/dev/sr0"; dev_type := "iso9660"; dev_label := "CiData";
       dev_label_fatboot := "" |} ].
Definition mixed_case_env : Env :=
  example_env None "ro" no_dir mixed_case_table no_volume no_url.

(** Four devices, three of which are candidates for the label [cidata]. *)
Definition four_devices : list blkdev :=
  [ {| dev_path := "/dev/sdb"; dev_type := "vfat"; dev_label := "CIDATA";
       dev_label_fatboot := "" |};
    {| dev_path := "/dev/sdc"; dev_type := "ext4"; dev_label := "cidata";
       dev_label_fatboot := "" |};
    {| dev_path := "/dev/sr0"; dev_type := "iso9660"; dev_label := "cidata";
       dev_label_fatboot := "" |};
    {| dev_path := "/dev/sdd"; dev_type := "vfat"; dev_label := "boot";
       dev_label_fatboot := "cidata" |} ].
Definition four_devices_env : Env :=
  example_env None "ro" no_dir four_devices no_volume no_url.

(** A seed on a labelled volume. *)
Definition volume_seed : dict :=
  {[ "meta-data" := PStr "instance-id: abc";
     "user-data" := PStr "#cloud-config" ]}.
Definition volume_env : Env :=
  example_env None "ro" no_dir four_devices
    (fun dev => if String.eqb dev "/dev/sr0" then Ok volume_seed
                else Err MountFailedError)
    no_url.

(** Nothing points to NoCloud but three labelled volumes, none of which
    can be read: two fail to mount, and mounting [/dev/sdd] ends in an I/O
    error. *)
Definition unreadable_volume_env : Env :=
  example_env None "ro" no_dir four_devices
    (fun dev => if String.eqb dev "/dev/sdd" then Err (OSError 5)
                else Err MountFailedError)
    no_url.

(** A scripted machine for the hook.  Its state is a clock and the number
    of metadata refreshes made so far; the script says when the hotplugged
    device shows in the metadata (as a function of that number) and what
    the datasource and the distro answer. *)
Record machine := {
  now : Z;
  refreshes : nat;
}.

Record script := {
  visible : nat -> bool;
  skip_detect : bool;
  link_up : bool;
  retry : Hotplug.HotplugRetrySettings;
  supported : list (Hotplug.EventScope * list Hotplug.EventType);
}.

Definition mac : string := "52:54:00:12:34:56".

Definition tick (n : Z) (m : machine) : machine :=
  {| now := now m + n; refreshes := refreshes m |}.
Definition refreshed (m : machine) : machine :=
  {| now := now m; refreshes := S (refreshes m) |}.

Definition eth0_only : list dict :=
  [ {[ "name" := PStr "eth0"; "mac_address" := PStr "52:54:00:00:00:01" ]} ].
Definition eth0_eth1 : list dict :=
  [ {[ "name" := PStr "eth0"; "mac_address" := PStr "52:54:00:00:00:01" ]};
    {[ "name" := PStr "eth1"; "mac_address" := PStr mac ]} ].

Definition machine_collab (s : script) : Hotplug.Collab machine :=
  {| Hotplug.fetch := fun m => (Ok true, m);
     Hotplug.get_supported_events := fun _ _ => supported s;
     Hotplug.update_event_enabled := fun _ scopes _ scope =>
       bool_decide (Hotplug.scope_value scope ∈ scopes);
     Hotplug.hotplug_retry_settings := fun _ => retry s;
     Hotplug.skip_hotplug_detect := fun _ => skip_detect s;
     Hotplug.update_metadata_if_supported := fun _ m => (Ok true, refreshed m);
     Hotplug.read_sys_net_safe := fun _ _ _ => Some mac;
     Hotplug.iter_interfaces := fun m =>
       Ok (if visible s (refreshes m) then eth0_eth1 else eth0_only);
     Hotplug.apply_network_config := fun m => (Ok tt, m);
     Hotplug.bring_up_interface := fun _ m => (Ok (link_up s), m);
     Hotplug._write_to_cache := fun m => (Ok tt, m);
     Hotplug.write_file := fun _ m => (Ok tt, m);
     Hotplug.install_hotplug := fun m => (Ok tt, m);
     Hotplug.time := now;
     Hotplug.sleep := tick |}.

Definition no_force_retry : Hotplug.HotplugRetrySettings :=
  {| Hotplug.force_retry := false; Hotplug.sleep_period := 5; Hotplug.sleep_total := 60 |}.
(** A window of 8 seconds with 5 seconds between rounds. *)
Definition force_retry_8s : Hotplug.HotplugRetrySettings :=
  {| Hotplug.force_retry := true; Hotplug.sleep_period := 5; Hotplug.sleep_total := 8 |}.

Definition network_hotplug : list (Hotplug.EventScope * list Hotplug.EventType) :=
  [(Hotplug.NETWORK, [Hotplug.HOTPLUG])].

(** The world at the start: the clock at 1000, no refresh made, the given
    scopes in the state file. *)
Definition world0 (scopes : list string) : Hotplug.world machine :=
  {| Hotplug.ds := {| now := 1000; refreshes := 0 |};
     Hotplug.hotplug_enabled_file := scopes; Hotplug.log := [] |}.

(** The device never shows in the metadata. *)
Definition never : nat -> bool := fun _ => false.
(** The device shows from the first refresh on. *)
Definition always : nat -> bool := fun _ => true.
(** The device shows after the first refresh and is gone afterwards. *)
Definition once : nat -> bool := fun n => Nat.eqb n 1.

Definition eth1 : string := "/sys/class/net/eth1".

(** The device stays absent; detection is on. *)
Definition absent_script : script :=
  {| visible := never; skip_detect := false; link_up := true;
     retry := no_force_retry; supported := network_hotplug |}.
(** The device stays absent; the datasource skips the detection. *)
Definition skipping_script : script :=
  {| visible := never; skip_detect := true; link_up := true;
     retry := no_force_retry; supported := network_hotplug |}.
(** The device is there at once and everything works. *)
Definition present_script : script :=
  {| visible := always; skip_detect := false; link_up := true;
     retry := no_force_retry; supported := network_hotplug |}.
(** The device is there at once but its link cannot be brought up. *)
Definition link_down_script : script :=
  {| visible := always; skip_detect := false; link_up := false;
     retry := no_force_retry; supported := network_hotplug |}.
(** The datasource has no hotplug support but boot events. *)
Definition boot_only_script : script :=
  {| visible := always; skip_detect := false; link_up := true;
     retry := no_force_retry;
     supported := [(Hotplug.NETWORK, [Hotplug.BOOT])] |}.
(** Forced retries, the device stays. *)
Definition forced_script : script :=
  {| visible := always; skip_detect := false; link_up := true;
     retry := force_retry_8s; supported := network_hotplug |}.
(** Forced retries, the device is gone after the first round. *)
Definition forced_once_script : script :=
  {| visible := once; skip_detect := false; link_up := true;
     retry := force_retry_8s; supported := network_hotplug |}.

End Examples.

(** ** The rest of DataSourceNoCloud.py *)
Module NoCloudMore.
Import NoCloud.

(** [s.endswith(suffix)] *)
Fixpoint endswith (s suffix : string) : bool :=
  String.eqb s suffix ||
  match s with
  | EmptyString => false
  | String _ s' => endswith s' suffix
  end.

(** [os.path.join(a, b)] *)
Definition path_join (a b : string) : string :=
  if Py.startswith b "/" then b
  else if String.eqb a "" || endswith a "/" then a +:+ b
  else a +:+ "/" +:+ b.

(** [c in s] for a character. *)
Fixpoint has_char (c : ascii) (s : string) : bool :=
  match s with
  | EmptyString => false
  | String x s' => Ascii.eqb x c || has_char c s'
  end.

(** No character of [s] is white space. *)
Fixpoint no_space (s : string) : bool :=
  match s with
  | EmptyString => true
  | String x s' => negb (Py.isspace x) && no_space s'
  end.

(** The values that [parse_cmdline_data] writes: strings and [None]. *)
Definition str_or_none (v : pyval) : Prop :=
  match v with PStr _ | PNone => True | _ => False end.

(** The seed schemes of the two classes. *)
Definition local_seed_starts : list string := ["/"; "file://"].
Definition net_seed_starts : list string :=
  ["http://"; "https://"; "ftp://"; "ftps://"].

(** [DataSourceNoCloud.__init__]; [dsmode] and [ds_cfg] stand for what
    [sources.DataSource.__init__], which is not among the sources, has set
    from the class and the system configuration. *)
Definition DataSourceNoCloud__init__ (seed_dir : string) (dsmode : string)
    (ds_cfg : dict) : DataSourceNoCloud :=
  {| seed := None;
     seed_dirs := [path_join seed_dir "nocloud"; path_join seed_dir "nocloud-net"];
     supported_seed_starts := local_seed_starts;
     dsmode := dsmode; ds_cfg := ds_cfg; metadata := ∅;
     userdata_raw := PNone; vendordata_raw := PNone;
     _network_config := PNone; _network_eni := PNone |}.

(** [DataSourceNoCloudNet.__init__] *)
Definition DataSourceNoCloudNet__init__ (seed_dir : string) (dsmode : string)
    (ds_cfg : dict) : DataSourceNoCloud :=
  let ds := DataSourceNoCloud__init__ seed_dir dsmode ds_cfg in
  {| seed := seed ds; seed_dirs := seed_dirs ds;
     supported_seed_starts := net_seed_starts;
     dsmode := NoCloud.dsmode ds; ds_cfg := NoCloud.ds_cfg ds;
     metadata := metadata ds;
     userdata_raw := userdata_raw ds; vendordata_raw := vendordata_raw ds;
     _network_config := _network_config ds; _network_eni := _network_eni ds |}.

(** [DataSourceNoCloud._get_subplatform] *)
Definition _get_subplatform (ds : DataSourceNoCloud) : res string :=
  match seed ds with
  | None => Err AttributeError
  | Some s =>
      let subplatform_type :=
        if Py.startswith s "/dev" then "config-disk" else "seed-dir" in
      Ok (subplatform_type +:+ " (" +:+ s +:+ ")")
  end.

(** What the [network_config] property does besides returning a value. *)
Inductive nc_call :=
| CallDeprecate
| CallConvertEni (eni : pyval).

Definition set_network_config (ds : DataSourceNoCloud) (v : pyval) : DataSourceNoCloud :=
  {| seed := seed ds; seed_dirs := seed_dirs ds;
     supported_seed_starts := supported_seed_starts ds;
     dsmode := dsmode ds; ds_cfg := ds_cfg ds; metadata := metadata ds;
     userdata_raw := userdata_raw ds; vendordata_raw := vendordata_raw ds;
     _network_config := v; _network_eni := _network_eni ds |}.

(** The property [DataSourceNoCloud.network_config]; [convert_eni_data]
    is [cloudinit.net.eni.convert_eni_data].  The result is the value
    returned or the exception raised, the object afterwards and the calls
    made. *)
Definition network_config_property (convert_eni_data : pyval -> res pyval)
    (ds : DataSourceNoCloud) : res pyval * DataSourceNoCloud * list nc_call :=
  match _network_config ds with
  | PNone =>
      match _network_eni ds with
      | PNone => (Ok PNone, ds, [])
      | eni =>
          match convert_eni_data eni with
          | Ok v => (Ok v, set_network_config ds v, [CallDeprecate; CallConvertEni eni])
          | Err e => (Err e, ds, [CallDeprecate; CallConvertEni eni])
          end
      end
  | v => (Ok v, ds, [])
  end.

(** *** Notions used to state the properties *)

(** The stage that [load_cmdline_data] derives from the [seedfrom] [s] of
    [fill] agrees with the schemes [local] and [net] of the two classes:
    it is the network stage and the loop over [net] accepts [s] while the
    loop over [local] does not, or the other way round, or no stage is
    derived and neither loop accepts [s]. *)
Definition stage_agrees (env : Env) (fill : dict) (s dflt : string)
    (local net : list string) : Prop :=
  (set_cmdline_dsmode env fill dflt
     = Ok (<["dsmode" := PStr (DSMODE_NETWORK env)]> fill) ∧
   is_Some (List.find (Py.startswith s) net) ∧
   find_seed_proto (PStr s) local = Ok None) ∨
  (set_cmdline_dsmode env fill dflt
     = Ok (<["dsmode" := PStr (DSMODE_LOCAL env)]> fill) ∧
   is_Some (List.find (Py.startswith s) local) ∧
   find_seed_proto (PStr s) net = Ok None) ∨
  (set_cmdline_dsmode env fill dflt = Ok fill ∧
   find_seed_proto (PStr s) local = Ok None ∧
   find_seed_proto (PStr s) net = Ok None).

(** What a computation yields when it goes on. *)
Definition yields {A} (P : A -> Prop) (m : M A) : Prop :=
  forall st a st', m st = (Next a, st') -> P a.

(** Every key of [md] has the same value in [md']. *)
Definition keeps_keys (md md' : dict) : Prop :=
  forall k v, md !! k = Some v -> md' !! k = Some v.

(** [a'] extends [a]: the list [found] has grown at its end, and every
    key of the metadata other than [seedfrom] has kept its value. *)
Definition extends (a a' : acc) : Prop :=
  a.2 `prefix_of` a'.2 /\
  forall k v, k <> "seedfrom" ->
    meta_data a.1 !! k = Some v -> meta_data a'.1 !! k = Some v.

Section QuickRead.
Context (env : Env).
(** [util.pathprefix2dict(d, required=["meta-data"])] *)
Context (pathprefix2dict_meta : string -> res dict).
(** [DataSource.get_instance_id], of the base class. *)
Context (get_instance_id : DataSourceNoCloud -> string).

(** The loop over [dirs] of [_quick_read_instance_id]. *)
Fixpoint quick_read_dirs (dirs : list (option string)) : res pyval :=
  match dirs with
  | [] => Ok PNone
  | None :: rest => quick_read_dirs rest
  | Some d :: rest =>
      match pathprefix2dict_meta d with
      | Err ValueError => quick_read_dirs rest
      | Err e => Err e
      | Ok data =>
          match data !! "meta-data" with
          | None => Err (KeyError "meta-data")
          | Some blob =>
              match load_yaml env blob with
              | Err ValueError => quick_read_dirs rest
              | Err e => Err e
              | Ok md =>
                  match md ≫= (.!! "instance-id") with
                  | Some iid => Ok iid
                  | None => quick_read_dirs rest
                  end
              end
          end
      end
  end.

(** A directory that the loop passes over: it is [None], or the required
    file is not there. *)
Definition unreadable (d : option string) : Prop :=
  match d with
  | None => True
  | Some p => pathprefix2dict_meta p = Err ValueError
  end.

(** [_quick_read_instance_id(dirs)] *)
Definition _quick_read_instance_id (dirs : list (option string)) : res pyval :=
  match load_cmdline_data env ∅ None with
  | Err e => Err e
  | Ok (fill, b) =>
      match (if b then fill !! "instance-id" else None) with
      | Some iid => Ok iid
      | None => quick_read_dirs dirs
      end
  end.

(** [quick_id == current], where [current] is a string. *)
Definition eq_str (v : pyval) (s : string) : bool :=
  match v with PStr x => String.eqb x s | _ => false end.

(** [DataSourceNoCloud.check_instance_id]: [None], [True] or [False]. *)
Definition check_instance_id (ds : DataSourceNoCloud) : res (option bool) :=
  let current := get_instance_id ds in
  if String.eqb current "" then Ok None
  else
    match _quick_read_instance_id (Some <$> seed_dirs ds) with
    | Err e => Err e
    | Ok quick_id =>
        if negb (truthy quick_id) then Ok None
        else Ok (Some (eq_str quick_id current))
    end.

End QuickRead.
End NoCloudMore.

(** ** The rest of hotplug_hook.py *)
Module HotplugMore.
Import Hotplug.

(** The arguments that the parser of [get_parser] hands over: the
    subsystem and one of the three actions, [handle] with its device path
    and udev action. *)
Inductive hotplug_action :=
| Query
| Handle (devpath udevaction : string)
| Enable.

Record Args := {
  subsystem : string;
  action_ : hotplug_action;
}.

(** How [handle_args] ends: it returns, leaves through [sys.exit], or lets
    an exception through. *)
Inductive ending :=
| Returned
| SystemExit (code : Z)
| Raised (e : exn).

(** The lines printed on standard output and the ending; what goes to
    standard error and to the log is not recorded. *)
Record cli_result := {
  stdout : list string;
  status : ending;
}.

Section WithCollab.
Context {D : Type} (c : Collab D).

(** [handle_args(name, args)], run by the user [uid]; the set up of
    [Init], logging and reporting is left out. *)
Definition handle_args (uid : Z) (fuel : nat) (args : Args) (w : world D)
  : option (cli_result * world D) :=
  match action_ args with
  | Query =>
      match initialize_datasource c (subsystem args) w with
      | (Err DataSourceNotFoundException, w1) =>
          Some ({| stdout := ["Unable to determine hotplug state. No datasource detected"];
                   status := SystemExit 1 |}, w1)
      | (Err e, w1) => Some ({| stdout := []; status := Raised e |}, w1)
      | (Ok datasource, w1) =>
          Some ({| stdout := [if datasource then "enabled" else "disabled"];
                   status := Returned |}, w1)
      end
  | Handle devpath udevaction =>
      match handle_hotplug c fuel devpath (subsystem args) udevaction w with
      | None => None
      | Some (Ok _, w1) => Some ({| stdout := []; status := Returned |}, w1)
      | Some (Err e, w1) => Some ({| stdout := []; status := Raised e |}, w1)
      end
  | Enable =>
      if negb (uid =? 0)%Z
      then Some ({| stdout := []; status := SystemExit 1 |}, w)
      else
        match enable_hotplug c (subsystem args) w with
        | (Err e, w1) => Some ({| stdout := []; status := Raised e |}, w1)
        | (Ok false, w1) => Some ({| stdout := []; status := SystemExit 1 |}, w1)
        | (Ok true, w1) =>
            Some ({| stdout := ["Enabled cloud-init hotplug for subsystem="
                                +:+ subsystem args];
                     status := Returned |}, w1)
        end
  end.

(** *** Notions used to state the properties *)

(** The calls made between two worlds. *)
Definition calls_between (w w' : world D) (calls : list call) : Prop :=
  log w' = (log w ++ calls)%list.

(** A clock that sleeping advances by the time slept at least, and that
    no collaborator of an attempt sets back. *)
Definition steady_clock : Prop :=
  (forall n d, (0 <= n)%Z -> (time c d + n <= time c (sleep c n d))%Z) /\
  (forall d, (time c d <= time c (update_metadata_if_supported c [HOTPLUG] d).2)%Z) /\
  (forall d, (time c d <= time c (apply_network_config c d).2)%Z) /\
  (forall name d, (time c d <= time c (bring_up_interface c name d).2)%Z) /\
  (forall d, (time c d <= time c (_write_to_cache c d).2)%Z).

(** A computation all of whose calls satisfy [P]. *)
Definition calls_only {A} (P : call -> Prop) (m : H A) : Prop :=
  forall w r w', m w = (r, w') ->
    exists calls, calls_between w w' calls /\ Forall P calls.

(** A computation that does not set the clock back. *)
Definition clock_goes_on {A} (m : H A) : Prop :=
  forall w r w', m w = (r, w') -> (time c (ds w) <= time c (ds w'))%Z.

(** Retry settings that do not change while the hook runs. *)
Definition fixed_settings (s : HotplugRetrySettings) : Prop :=
  forall d, hotplug_retry_settings c d = s.

End WithCollab.

(** The calls of attempts that fail right after the refresh, each followed
    by its delay. *)
Fixpoint refreshes_and_sleeps (waits : list Z) : list call :=
  match waits with
  | [] => []
  | wait :: rest => CallRefresh :: CallSleep wait :: refreshes_and_sleeps rest
  end.

(** The calls that set hotplug up: writing the state file and installing
    the udev hook. *)
Definition sets_up (ev : call) : Prop :=
  match ev with
  | CallWriteFile _ | CallInstallHotplug => True
  | _ => False
  end.

(** The sum of the delays slept. *)
Definition total_sleep (l : list call) : Z := foldr Z.add 0%Z (sleeps l).

End HotplugMore.

(** ** More concrete machines *)
Module MoreExamples.
Import NoCloud Examples.

(** The machine of a script, on which writing the state file or
    installing the hook can be made to fail. *)
Definition faulty_collab (s : script) (write_ok install_ok : bool)
  : Hotplug.Collab machine :=
  let c := machine_collab s in
  {| Hotplug.fetch := Hotplug.fetch c;
     Hotplug.get_supported_events := Hotplug.get_supported_events c;
     Hotplug.update_event_enabled := Hotplug.update_event_enabled c;
     Hotplug.hotplug_retry_settings := Hotplug.hotplug_retry_settings c;
     Hotplug.skip_hotplug_detect := Hotplug.skip_hotplug_detect c;
     Hotplug.update_metadata_if_supported := Hotplug.update_metadata_if_supported c;
     Hotplug.read_sys_net_safe := Hotplug.read_sys_net_safe c;
     Hotplug.iter_interfaces := Hotplug.iter_interfaces c;
     Hotplug.apply_network_config := Hotplug.apply_network_config c;
     Hotplug.bring_up_interface := Hotplug.bring_up_interface c;
     Hotplug._write_to_cache := Hotplug._write_to_cache c;
     Hotplug.write_file := fun _ m =>
       (if write_ok then Ok tt else Err (OSError 28), m);
     Hotplug.install_hotplug := fun m =>
       (if install_ok then Ok tt else Err (OtherException "ProcessExecutionError"), m);
     Hotplug.time := Hotplug.time c;
     Hotplug.sleep := Hotplug.sleep c |}.

(** The kernel command line names the instance, and a labelled volume
    holds the seed. *)
Definition cmdline_and_volume_env : Env :=
  example_env None "ro ds=nocloud;i=iid-7" no_dir four_devices
    (fun dev => if String.eqb dev "/dev/sr0" then Ok volume_seed
                else Err MountFailedError)
    no_url.

(** A reader of the instance id, standing for
    [DataSource.get_instance_id]: the [instance-id] of the metadata, or a
    fixed name when there is none. *)
Definition example_get_instance_id (ds : DataSourceNoCloud) : string :=
  match metadata ds !! "instance-id" with
  | Some (PStr iid) => iid
  | _ => "iid-datasource"
  end.

End MoreExamples.

(** ** Properties of the NoCloud resolver *)
Module NoCloudProofs.
Import NoCloud Examples.

(** *** The definitions at work *)

Example split_cmdline :
  Py.split_ws " root=LABEL=uec-rootfs ro  ds=nocloud;h=myhost "
  = ["root=LABEL=uec-rootfs"; "ro"; "ds=nocloud;h=myhost"].
Proof. reflexivity. Qed.

Example parse_short_keys :
  parse_cmdline_data bare_env "ds=nocloud" ∅ (Some "ro ds=nocloud;h=myhost;i=iid-1;x")
  = Ok ({[ "local-hostname" := PStr "myhost"; "instance-id" := PStr "iid-1";
           "x" := PNone ]}, true).
Proof. vm_compute. reflexivity. Qed.

Example parse_other_datasource :
  parse_cmdline_data bare_env "ds=nocloud" ∅ (Some "ro ds=nocloud-net;h=myhost")
  = Ok (∅, false).
Proof. vm_compute. reflexivity. Qed.

(** A seedfrom URL on the command line decides dsmode. *)
Example cmdline_dsmode_from_seedfrom :
  load_cmdline_data bare_env ∅ (Some "ds=nocloud;s=http://10.0.0.1/seed/")
  = Ok ({[ "seedfrom" := PStr "http://10.0.0.1/seed/"; "dsmode" := PStr "net" ]}, true).
Proof. vm_compute. reflexivity. Qed.

(** The kernel command line [ds=nocloud;s=file://seed/;h=myhost], with an
    empty seed at that URL. *)
Example cmdline_scenario :
  let env := example_env None "ds=nocloud;s=file://seed/;h=myhost" no_dir []
               no_volume (fun _ => Ok (Some ∅, PStr "", PStr "", PNone)) in
  (_get_data env ds0).1 = Ok true ∧
  metadata (self (_get_data env ds0).2)
  = {[ "instance-id" := PStr "nocloud"; "local-hostname" := PStr "myhost";
       "seedfrom" := PStr "file://seed/"; "dsmode" := PStr "local" ]} ∧
  dsmode (self (_get_data env ds0).2) = "local".
Proof. vm_compute. repeat split. Qed.

(** A volume labelled for NoCloud holds [instance-id: abc] and user data. *)
Example volume_scenario :
  (_get_data volume_env ds0).1 = Ok true ∧
  seed (self (_get_data volume_env ds0).2) = Some "/dev/sr0" ∧
  metadata (self (_get_data volume_env ds0).2)
  = {[ "instance-id" := PStr "abc"; "dsmode" := PStr "net" ]} ∧
  userdata_raw (self (_get_data volume_env ds0).2) = PStr "#cloud-config".
Proof. vm_compute. repeat split. Qed.

(** *** Lemmas *)

Lemma leb_trans (a b c : string) :
  String.leb a b = true → String.leb b c = true → String.leb a c = true.
Proof.
  unfold String.leb. revert b c.
  induction a as [|x a IH]; intros [|y b] [|z c]; simpl; try done.
  unfold Ascii.compare.
  destruct (N.compare_spec (N_of_ascii x) (N_of_ascii y)) as [E1|E1|E1];
    destruct (N.compare_spec (N_of_ascii y) (N_of_ascii z)) as [E2|E2|E2];
    try done.
  - rewrite E1, E2, N.compare_refl. apply IH.
  - rewrite E1. intros _ _. by rewrite (proj2 (N.compare_lt_iff _ _) E2).
  - rewrite <- E2. intros _ _. by rewrite (proj2 (N.compare_lt_iff _ _) E1).
  - intros _ _. by rewrite (proj2 (N.compare_lt_iff _ _) (N.lt_trans _ _ _ E1 E2)).
Qed.

#[local] Instance str_ge_trans : Transitive str_ge.
Proof. intros a b c H1 H2. unfold str_ge in *. eauto using leb_trans. Qed.
#[local] Instance str_ge_total : Total str_ge.
Proof. intros a b. unfold str_ge. destruct (String.leb_total a b); auto. Qed.
#[local] Instance str_ge_antisym : AntiSymm eq str_ge.
Proof. intros a b H1 H2. unfold str_ge in *. by apply String.leb_antisym. Qed.

Section mo.
Context (env : Env).

Lemma merges_only_ret {A} (a : A) : merges_only (ret a).
Proof. intros st r st' [= <- <-]. do 2 (split; [done|]). exists []. by rewrite app_nil_r. Qed.
Lemma merges_only_raise {A} e : merges_only (@raise A e).
Proof. intros st r st' [= <- <-]. do 2 (split; [done|]). exists []. by rewrite app_nil_r. Qed.
Lemma merges_only_return {A} : merges_only (@return_ A false).
Proof. intros st r st' [= <- <-]. do 2 (split; [done|]). exists []. by rewrite app_nil_r. Qed.
Lemma merges_only_lift {A} (x : res A) : merges_only (lift x).
Proof. destruct x; [apply merges_only_ret | apply merges_only_raise]. Qed.
Lemma merges_only_get_self : merges_only get_self.
Proof. intros st r st' [= <- <-]. do 2 (split; [done|]). exists []. by rewrite app_nil_r. Qed.
Lemma merges_only_tell s : merges_only (tell (EvMerge s)).
Proof.
  intros st r st' [= <- <-]. do 2 (split; [done|]).
  exists [EvMerge s]. split; [done|]. by constructor.
Qed.

Lemma merges_only_step {A} (r : ctl A) (st1 st2 st3 : state) (l : list event) :
  self st2 = self st1 → trace st2 = (trace st1 ++ l)%list → Forall is_merge l →
  (r ≠ Return true ∧ self st3 = self st2 ∧
   ∃ l', trace st3 = (trace st2 ++ l')%list ∧ Forall is_merge l') →
  r ≠ Return true ∧ self st3 = self st1 ∧
  ∃ l', trace st3 = (trace st1 ++ l')%list ∧ Forall is_merge l'.
Proof.
  intros Hs Ht Hl (Hr & Hs' & l' & Ht' & Hl'). split; [done|]. split; [congruence|].
  exists (l ++ l')%list. split; [by rewrite Ht', Ht, app_assoc | by apply Forall_app].
Qed.

Lemma merges_only_bind {A B} (m : M A) (k : A → M B) :
  merges_only m → (∀ a, merges_only (k a)) → merges_only (bind m k).
Proof.
  intros Hm Hk st r st'. unfold bind.
  destruct (m st) as [[a|b|e] st1] eqn:E; intros H;
    destruct (Hm _ _ _ E) as (Hr & Hs & l & Ht & Hl).
  - eapply merges_only_step; eauto. eapply Hk; eauto.
  - injection H as <- <-. split; [congruence|]. eauto.
  - injection H as <- <-. split; [congruence|]. eauto.
Qed.

Lemma merges_only_try {A} (m : M A) h :
  merges_only m → (∀ e h', h e = Some h' → merges_only h') → merges_only (try_except m h).
Proof.
  intros Hm Hh st r st'. unfold try_except.
  destruct (m st) as [[a|b|e] st1] eqn:E; intros H;
    destruct (Hm _ _ _ E) as (Hr & Hs & l & Ht & Hl).
  - injection H as <- <-. eauto.
  - injection H as <- <-. eauto.
  - destruct (h e) as [h'|] eqn:Eh.
    + eapply merges_only_step; eauto. eapply Hh; eauto.
    + injection H as <- <-. eauto.
Qed.

Ltac mo :=
  repeat first
    [ apply merges_only_ret | apply merges_only_raise | apply merges_only_return
    | apply merges_only_lift | apply merges_only_get_self | apply merges_only_tell
    | apply merges_only_bind; [|intros]
    | progress (simpl; intros)
    | match goal with
      | |- merges_only (match ?x with _ => _ end) => destruct x
      | |- merges_only (if ?x then _ else _) => destruct x
      | |- merges_only (let '(_, _) := ?x in _) => destruct x
      end ].

Lemma merges_only_mergemanydict s : merges_only (mergemanydict s).
Proof. unfold mergemanydict. mo. Qed.

Lemma merges_only_merge_new_seed cur seeded : merges_only (_merge_new_seed env cur seeded).
Proof. unfold _merge_new_seed. mo; try apply merges_only_mergemanydict; mo. Qed.

Lemma merges_only_load_dmi a : merges_only (load_dmi env a).
Proof.
  unfold load_dmi. apply merges_only_try.
  - mo; try apply merges_only_merge_new_seed; mo.
  - intros e h' [= <-]. mo.
Qed.

Lemma merges_only_load_cmdline a : merges_only (load_cmdline env a).
Proof.
  unfold load_cmdline. apply merges_only_try.
  - mo; try apply merges_only_merge_new_seed; mo.
  - intros e h' [= <-]. mo.
Qed.

Lemma merges_only_load_seed_dirs paths a : merges_only (load_seed_dirs env paths a).
Proof.
  revert a. induction paths as [|p paths IH]; intros a; simpl; [mo|].
  destruct (pathprefix2dict env p) as [seeded|e].
  - apply merges_only_try.
    + mo; try apply merges_only_merge_new_seed; mo.
    + intros e h'. destruct e; intros [= <-]. apply IH.
  - destruct e; try apply merges_only_raise. apply IH.
Qed.

Lemma merges_only_load_ds_cfg_seedfrom cfg a : merges_only (load_ds_cfg_seedfrom cfg a).
Proof. unfold load_ds_cfg_seedfrom. mo. Qed.

Lemma merges_only_load_ds_cfg cfg a : merges_only (load_ds_cfg env cfg a).
Proof. unfold load_ds_cfg. mo; try apply merges_only_merge_new_seed; mo. Qed.

Lemma merges_only_load_devices devs a : merges_only (load_devices env devs a).
Proof.
  revert a. induction devs as [|d devs IH]; intros a; simpl; [mo|].
  assert (Ht : ∀ r : res dict, merges_only
    (try_except (seeded <- lift r;; m <- _merge_new_seed env a.1 seeded;; ret (m, (a.2 ++ [d])%list))
       (λ e, match e with
             | OSError errno => if decide (errno = ENOENT) then Some (load_devices env devs a) else None
             | MountFailedError => Some (load_devices env devs a)
             | _ => None
             end))).
  { intros r. apply merges_only_try.
    - mo; try apply merges_only_merge_new_seed; mo.
    - intros e h'. destruct e; try done.
      + case_decide; [|done]. intros [= <-]. apply IH.
      + intros [= <-]. apply IH. }
  destruct (mount_cb env d) as [seeded|e]; [exact (Ht (Ok seeded))|].
  destruct e; try exact (Ht (Err _)). apply IH.
Qed.

Lemma merges_only_load_labelled cfg a : merges_only (load_labelled env cfg a).
Proof.
  unfold load_labelled. destruct (default _ _); mo. apply merges_only_load_devices.
Qed.

Lemma merges_only_gather : merges_only (gather env).
Proof.
  unfold gather.
  repeat (apply merges_only_bind; [|intros]);
    auto using merges_only_get_self, merges_only_load_dmi, merges_only_load_cmdline,
      merges_only_load_seed_dirs, merges_only_load_ds_cfg_seedfrom,
      merges_only_load_ds_cfg, merges_only_load_labelled.
Qed.

Lemma merges_only_load_seedfrom a : merges_only (load_seedfrom env a).
Proof.
  unfold load_seedfrom. mo; try apply merges_only_mergemanydict; mo.
Qed.
End mo.

Section finish.
Context (env : Env).

Lemma util_mergemanydict_pair (a : dict) (b : option dict) :
  Util.mergemanydict [Some a; b] = a ∪ default ∅ b.
Proof.
  unfold Util.mergemanydict. simpl. rewrite (left_id_L ∅ (∪)).
  destruct b; simpl; [done | by rewrite (right_id_L ∅ (∪))].
Qed.

Lemma mergemanydict_run (a : dict) (b : option dict) st :
  mergemanydict [Some a; b] st =
    (Next (a ∪ default ∅ b),
     {| self := self st; trace := (trace st ++ [EvMerge [Some a; b]])%list |}).
Proof. unfold mergemanydict, bind, tell, ret. by rewrite util_mergemanydict_pair. Qed.

Lemma finish_unfold dflt a st :
  finish env dflt a st =
    if decide (a.2 = []) then (Return false, st)
    else match load_seedfrom env a st with
         | (Next a', st1) => resolve_dsmode env dflt a' st1
         | (Return b, st1) => (Return b, st1)
         | (Raise e, st1) => (Raise e, st1)
         end.
Proof.
  unfold finish. case_decide; [done|].
  unfold bind at 1. destruct (load_seedfrom env a st) as [[a'|b|e] st1]; try done.
  unfold bind at 1. rewrite mergemanydict_run. simpl.
  unfold resolve_dsmode, bind, get_self, tell, set_self, ret, return_. simpl.
  rewrite <- app_assoc. simpl.
  by destruct (String.eqb _ _).
Qed.

Lemma get_data_unfold ds :
  _get_data env ds =
    match gather env {| self := ds; trace := [] |} with
    | (Next a, st) =>
        match finish env (defaults ds) a st with
        | (Next b, st') => (Ok b, st')
        | (Return b, st') => (Ok b, st')
        | (Raise e, st') => (Err e, st')
        end
    | (Return b, st) => (Ok b, st)
    | (Raise e, st) => (Err e, st)
    end.
Proof.
  unfold _get_data, run, _get_data_body. unfold bind at 1. unfold get_self at 1.
  unfold bind at 1.
  by destruct (gather env _) as [[a|b|e] st].
Qed.
End finish.

Section resolver.
Context (env : Env).

Lemma merge_new_seed_run cur seeded st m st' :
  _merge_new_seed env cur seeded st = (Next m, st') →
  ∃ newmd, seed_metadata env seeded = Ok newmd ∧
    meta_data m = meta_data cur ∪ default ∅ newmd.
Proof.
  unfold _merge_new_seed. unfold bind at 1.
  destruct (seed_metadata env seeded) as [newmd|e]; simpl; [|done].
  unfold bind at 1. rewrite mergemanydict_run.
  unfold bind at 1.
  match goal with |- context [?f ?s] =>
    match f with
    | match _ with _ => _ end => destruct (f s) as [[nc|b|e] st1]
    end end; simpl; try done.
  intros [= <- <-]. eauto.
Qed.

Lemma load_seedfrom_run a url md_seed ud vd network st a' st' :
  meta_data a.1 !! "seedfrom" = Some (PStr url) →
  read_seeded env (sub_dmi_vars env url) = Ok (md_seed, ud, vd, network) →
  load_seedfrom env a st = (Next a', st') →
  meta_data a'.1 = meta_data a.1 ∪ default ∅ md_seed.
Proof.
  intros Hs Hr. unfold load_seedfrom. rewrite Hs.
  unfold bind at 1. unfold get_self at 1. unfold bind at 1.
  destruct (find_seed_proto _ _) as [seedfound|e]; simpl; [|done].
  destruct (negb _); [done|].
  rewrite Hr. unfold bind at 1. simpl. unfold bind at 1. rewrite mergemanydict_run.
  intros [= <- <-]. done.
Qed.

Lemma load_seedfrom_grows a st a' st' :
  load_seedfrom env a st = (Next a', st') → meta_data a.1 ⊆ meta_data a'.1.
Proof.
  unfold load_seedfrom. destruct (meta_data a.1 !! "seedfrom") as [v|] eqn:Hs.
  2:{ by intros [= <- <-]. }
  unfold bind at 1. unfold get_self at 1. unfold bind at 1.
  destruct (find_seed_proto _ _) as [seedfound|e]; simpl; [|done].
  destruct (negb _); [done|].
  destruct v; try done.
  unfold bind at 1. destruct (read_seeded env _) as [[[[md_seed ud] vd] network]|e];
    simpl; [|done].
  unfold bind at 1. rewrite mergemanydict_run.
  intros [= <- <-]. simpl. apply map_union_subseteq_l.
Qed.
End resolver.

(** *** Laying a seed over what was gathered *)

Section layering.
Import NoCloudMerge.
Context (env : Env).

(** With [Util.mergemanydict] as the merge, the two steps are the ones
    that [_get_data] runs. *)
Lemma merge_new_seed_with_util cur seeded :
  _merge_new_seed_with env Util.mergemanydict cur seeded = _merge_new_seed env cur seeded.
Proof. reflexivity. Qed.

Lemma load_seedfrom_with_util a :
  load_seedfrom_with env Util.mergemanydict a = load_seedfrom env a.
Proof. reflexivity. Qed.

Lemma last_writer_wins_pair (a : dict) (b : option dict) :
  Util.mergemanydict_last_writer_wins [Some a; b] = default ∅ b ∪ a.
Proof.
  unfold Util.mergemanydict_last_writer_wins. simpl. rewrite (right_id_L ∅ (∪)).
  destruct b; simpl; [done | by rewrite (left_id_L ∅ (∪))].
Qed.

(** Both steps yield what the merge makes of the gathered metadata and
    the new one, in this order. *)
Lemma merge_new_seed_with_run merge cur seeded st m st' :
  _merge_new_seed_with env merge cur seeded st = (Next m, st') →
  ∃ newmd, seed_metadata env seeded = Ok newmd ∧
    meta_data m = merge [Some (meta_data cur); newmd].
Proof.
  unfold _merge_new_seed_with. unfold bind at 1.
  destruct (seed_metadata env seeded) as [newmd|e]; simpl; [|done].
  unfold bind at 1. unfold mergemanydict_with, bind, tell, ret at 1. simpl.
  match goal with |- context [?f ?s] =>
    match f with
    | match _ with _ => _ end => destruct (f s) as [[nc|b|e] st1]
    end end; simpl; try done.
  intros [= <- <-]. eauto.
Qed.

Lemma load_seedfrom_with_run merge a url md_seed ud vd network st a' st' :
  meta_data a.1 !! "seedfrom" = Some (PStr url) →
  read_seeded env (sub_dmi_vars env url) = Ok (md_seed, ud, vd, network) →
  load_seedfrom_with env merge a st = (Next a', st') →
  meta_data a'.1 = merge [Some (meta_data a.1); md_seed].
Proof.
  intros Hs Hr. unfold load_seedfrom_with. rewrite Hs.
  unfold bind at 1. unfold get_self at 1. unfold bind at 1.
  destruct (find_seed_proto _ _) as [seedfound|e]; simpl; [|done].
  destruct (negb _); [done|].
  rewrite Hr. unfold bind at 1. simpl. unfold bind at 1.
  unfold mergemanydict_with, bind, tell, ret. simpl.
  intros [= <- <-]. done.
Qed.

Lemma layered_merge merge earlier later after :
  layered env merge earlier later after → after = merge [Some earlier; later].
Proof.
  intros [cur seeded newmd st m st' Hn Hm | a url md_seed ud vd nw st a' st' Hs Hr Hm].
  - destruct (merge_new_seed_with_run _ _ _ _ _ _ Hm) as (newmd' & Hn' & ->).
    congruence.
  - eapply load_seedfrom_with_run; eauto.
Qed.

End layering.

(** C1: with the merge rule of the spec (last writer wins per key), when
    the resolver lays the metadata of a later seed source over the
    metadata gathered from the sources consulted before it, a key that
    both supply gets the value of the later source, whole; a key that only
    one of them supplies keeps that value; and no key is removed.  The
    seed fetched from the seedfrom URL, laid over last, is one such
    source: it may replace the value of a key gathered earlier and removes
    none. *)
Theorem later_source_replaces_earlier env (earlier : dict) (later : option dict)
    (after : dict) :
  NoCloudMerge.layered env Util.mergemanydict_last_writer_wins earlier later after →
  (∀ k, after !! k = match default ∅ later !! k with
                     | Some v => Some v
                     | None => earlier !! k
                     end) ∧
  (∀ k, is_Some (earlier !! k) → is_Some (after !! k)).
Proof.
  intros Hl. rewrite (layered_merge _ _ _ _ _ Hl), last_writer_wins_pair.
  split; intros k.
  - rewrite lookup_union. destruct (default ∅ later !! k), (earlier !! k); done.
  - intros [v Hv]. rewrite lookup_union, Hv.
    destruct (default ∅ later !! k); by eexists.
Qed.

(** The kernel command line has given [i=from-cmdline] and a seedfrom URL;
    the seed fetched from that URL names the instance [from-seed] and a
    host: laid over last, it replaces the instance id, adds the host name
    and leaves the seedfrom where it was. *)
Lemma later_source_replaces_earlier_witness :
  let earlier : dict :=
    {[ "instance-id" := PStr "from-cmdline"; "seedfrom" := PStr "file:///seed/" ]} in
  let later : dict :=
    {[ "instance-id" := PStr "from-seed"; "local-hostname" := PStr "seedhost" ]} in
  let after : dict :=
    {[ "instance-id" := PStr "from-seed"; "local-hostname" := PStr "seedhost";
       "seedfrom" := PStr "file:///seed/" ]} in
  NoCloudMerge.layered cmdline_seed_env Util.mergemanydict_last_writer_wins
    earlier (Some later) after ∧
  after !! "instance-id" = Some (PStr "from-seed") ∧
  after !! "local-hostname" = Some (PStr "seedhost") ∧
  is_Some (after !! "seedfrom").
Proof.
  intros earlier later after.
  assert (Hl : NoCloudMerge.layered cmdline_seed_env
                 Util.mergemanydict_last_writer_wins earlier (Some later) after).
  { set (a := ({| meta_data := earlier; user_data := PStr ""; vendor_data := PStr "";
                  network_config := PNone |}, ["cmdline"]) : acc).
    set (a' := ({| meta_data := after; user_data := PStr "#cloud-config";
                   vendor_data := PStr ""; network_config := PNone |},
                ["cmdline"; "file:///seed/"]) : acc).
    set (st := {| self := ds0; trace := [] |}).
    set (st' := {| self := ds0; trace := [EvMerge [Some earlier; Some later]] |}).
    assert (H1 : meta_data a.1 !! "seedfrom" = Some (PStr "file:///seed/"))
      by reflexivity.
    assert (H2 : read_seeded cmdline_seed_env (sub_dmi_vars cmdline_seed_env "file:///seed/")
                 = Ok (Some later, PStr "#cloud-config", PStr "", PNone))
      by reflexivity.
    assert (H3 : NoCloudMerge.load_seedfrom_with cmdline_seed_env
                   Util.mergemanydict_last_writer_wins a st = (Next a', st'))
      by (by vm_compute).
    exact (NoCloudMerge.layered_seedfrom cmdline_seed_env _ a "file:///seed/"
             (Some later) _ _ _ st a' st' H1 H2 H3). }
  split; [exact Hl|].
  destruct (later_source_replaces_earlier cmdline_seed_env _ _ _ Hl) as [Hk Hkeep].
  split; [exact (Hk "instance-id")|]. split; [exact (Hk "local-hostname")|].
  apply Hkeep. by eexists.
Defined.

Lemma dsmode_count_merges l : Forall is_merge l → dsmode_count l = 0.
Proof.
  unfold dsmode_count. induction 1 as [|e l He _ IH]; [done|].
  simpl. by destruct e.
Qed.

Lemma dsmode_count_snoc l c :
  Forall is_merge l → dsmode_count (l ++ [EvDsmode c]) = 1.
Proof.
  intros Hl. unfold dsmode_count. rewrite List.filter_app, length_app.
  fold (dsmode_count l). by rewrite dsmode_count_merges.
Qed.

(** The shape of every run of [_get_data]. *)
Lemma get_data_cases env ds r st :
  _get_data env ds = (r, st) →
  (r ≠ Ok true ∧ self st = ds ∧ Forall is_merge (trace st)) ∨
  ∃ a st1, self st1 = ds ∧ Forall is_merge (trace st1) ∧ a.2 ≠ [] ∧
    match resolve_dsmode env (defaults ds) a st1 with
    | (Next b, st') => r = Ok b ∧ st = st'
    | (Return b, st') => r = Ok b ∧ st = st'
    | (Raise e, st') => r = Err e ∧ st = st'
    end.
Proof.
  rewrite get_data_unfold.
  destruct (gather env _) as [[a|b|e] st0] eqn:Eg;
    destruct (merges_only_gather env _ _ _ Eg) as (Hr & Hs & l & Ht & Hl);
    simpl in Hs, Ht.
  - rewrite finish_unfold. case_decide as Hf.
    { intros [= <- <-]. left. by rewrite Ht. }
    destruct (load_seedfrom env a st0) as [[a'|b|e] st1] eqn:El;
      destruct (merges_only_load_seedfrom env _ _ _ _ El) as (Hr' & Hs' & l' & Ht' & Hl').
    + intros H. right. exists a', st1. split; [congruence|].
      split; [rewrite Ht', Ht; by apply Forall_app|].
      split.
      { revert El. unfold load_seedfrom.
        destruct (meta_data a.1 !! "seedfrom"); [|by intros [= <- <-]].
        unfold bind at 1. unfold get_self at 1. unfold bind at 1.
        destruct (find_seed_proto _ _); simpl; [|done].
        destruct (negb _); [done|]. destruct p; try done.
        unfold bind at 1. destruct (read_seeded env _) as [[[[? ?] ?] ?]|]; simpl; [|done].
        unfold bind at 1. rewrite mergemanydict_run. intros [= <- <-]. simpl.
        by destruct (a.2). }
      destruct (resolve_dsmode env _ a' st1) as [[?|?|?] ?]; by injection H as <- <-.
    + intros [= <- <-]. left. split; [destruct b; congruence|]. split; [congruence|].
      rewrite Ht', Ht. by apply Forall_app.
    + intros [= <- <-]. left. split; [done|]. split; [congruence|].
      rewrite Ht', Ht. by apply Forall_app.
  - intros [= <- <-]. left. split; [destruct b; congruence|]. split; [done|]. by rewrite Ht.
  - intros [= <- <-]. left. split; [done|]. split; [done|]. by rewrite Ht.
Qed.

(** C5: when [_get_data] returns [True], the metadata has the keys
    [instance-id] and [dsmode]: the last merge of the run, after every
    other one and just before dsmode is resolved, lays the defaults under
    the gathered metadata [md], whose own keys keep their values. *)
Theorem claimed_metadata_has_defaults env ds st :
  _get_data env ds = (Ok true, st) →
  is_Some (metadata (self st) !! "instance-id") ∧
  is_Some (metadata (self st) !! "dsmode") ∧
  ∃ md pre c,
    trace st = (pre ++ [EvMerge [Some md; Some (defaults ds)]; EvDsmode c])%list ∧
    Forall is_merge pre ∧
    metadata (self st) = md ∪ defaults ds ∧
    ∀ k v, md !! k = Some v → metadata (self st) !! k = Some v.
Proof.
  intros H. destruct (get_data_cases _ _ _ _ H) as [(Hr & _)|(a & st1 & Hs & Ht & Hf & Hres)];
    [done|].
  unfold resolve_dsmode in Hres. destruct (String.eqb _ _).
  { destruct Hres as [? _]. done. }
  destruct Hres as [_ ->]. simpl.
  assert (Hk : ∀ k, is_Some (defaults ds !! k) → is_Some ((meta_data a.1 ∪ defaults ds) !! k)).
  { intros k [v Hv]. rewrite lookup_union. rewrite Hv.
    destruct (meta_data a.1 !! k); by eexists. }
  split; [apply Hk; by eexists|]. split; [apply Hk; by eexists|].
  eexists _, _, _. split; [reflexivity|]. split; [done|]. split; [done|].
  intros k v Hv. by apply lookup_union_Some_l.
Qed.

(** The seed of a labelled volume gives [instance-id: abc]; the run
    succeeds and keeps it. *)
Lemma claimed_metadata_has_defaults_witness :
  let st := (_get_data volume_env ds0).2 in
  _get_data volume_env ds0 = (Ok true, st) ∧
  metadata (self st) !! "instance-id" = Some (PStr "abc") ∧
  is_Some (metadata (self st) !! "instance-id") ∧
  is_Some (metadata (self st) !! "dsmode").
Proof.
  intros st.
  assert (H : _get_data volume_env ds0 = (Ok true, st)) by (vm_compute; reflexivity).
  split; [exact H|]. split; [vm_compute; reflexivity|].
  pose proof (claimed_metadata_has_defaults volume_env ds0 st H) as (H1 & H2 & _).
  split; [exact H1 | exact H2].
Defined.

(** C3 (as amended): in every run of [_get_data] the trace consists of
    merges, followed by at most one computation of dsmode, which nothing
    follows.  A run that ends before the merging is complete (nothing was
    found, the seedfrom is not usable, or an error) computes no dsmode,
    does not return [True] and leaves the object as it was.  Every other
    run computes dsmode exactly once, after all merges; when the result is
    the disabled mode the run returns [False] and keeps nothing of what was
    gathered (only the [dsmode] attribute is set), and otherwise it returns
    [True]. *)
Theorem dsmode_resolved_once_after_merging env ds r st :
  _get_data env ds = (r, st) →
  ∃ merges, Forall is_merge merges ∧
    ((trace st = merges ∧ dsmode_count (trace st) = 0 ∧ r ≠ Ok true ∧ self st = ds) ∨
     (∃ c, trace st = (merges ++ [EvDsmode c])%list ∧ dsmode_count (trace st) = 1 ∧
        if String.eqb (_determine_dsmode env (dsmode ds) c) (DSMODE_DISABLED env)
        then r = Ok false ∧ self st = set_dsmode ds (DSMODE_DISABLED env)
        else r = Ok true ∧
             dsmode (self st) = _determine_dsmode env (dsmode ds) c)).
Proof.
  intros H. destruct (get_data_cases _ _ _ _ H) as [(Hr & Hs & Ht)|(a & st1 & Hs & Ht & Hf & Hres)].
  - exists (trace st). split; [done|]. left. by rewrite dsmode_count_merges.
  - unfold resolve_dsmode in Hres. rewrite Hs in Hres.
    set (c := [default PNone ((meta_data a.1 ∪ defaults ds) !! "dsmode")]) in *.
    exists (trace st1 ++ [EvMerge [Some (meta_data a.1); Some (defaults ds)]])%list.
    split; [apply Forall_app; split; [done|by repeat constructor]|].
    right. exists c.
    assert (Htr : (trace st1 ++ [EvMerge [Some (meta_data a.1); Some (defaults ds)];
                                 EvDsmode c])%list
                  = ((trace st1 ++ [EvMerge [Some (meta_data a.1); Some (defaults ds)]])
                       ++ [EvDsmode c])%list) by (by rewrite <- app_assoc).
    assert (Hm : Forall is_merge
                   (trace st1 ++ [EvMerge [Some (meta_data a.1); Some (defaults ds)]])%list).
    { apply Forall_app; split; [done|by repeat constructor]. }
    destruct (String.eqb _ _) eqn:Em; destruct Hres as [-> ->]; simpl; rewrite Htr.
    + split; [done|]. split; [by apply dsmode_count_snoc|].
      split; [done|]. apply String.eqb_eq in Em. by rewrite Em.
    + split; [done|]. split; [by apply dsmode_count_snoc|]. done.
Qed.

(** The kernel command line asks for [dsmode=disabled]: dsmode is computed
    once and the run returns [False]. *)
Lemma dsmode_resolved_once_after_merging_witness :
  let r := _get_data disabled_env ds0 in
  _get_data disabled_env ds0 = (r.1, r.2) ∧
  r.1 = Ok false ∧ dsmode_count (trace r.2) = 1 ∧
  ∃ merges, Forall is_merge merges ∧
    ((trace r.2 = merges ∧ dsmode_count (trace r.2) = 0 ∧ r.1 ≠ Ok true ∧ self r.2 = ds0) ∨
     (∃ c, trace r.2 = (merges ++ [EvDsmode c])%list ∧ dsmode_count (trace r.2) = 1 ∧
        if String.eqb (_determine_dsmode disabled_env (dsmode ds0) c)
                      (DSMODE_DISABLED disabled_env)
        then r.1 = Ok false ∧ self r.2 = set_dsmode ds0 (DSMODE_DISABLED disabled_env)
        else r.1 = Ok true ∧
             dsmode (self r.2) = _determine_dsmode disabled_env (dsmode ds0) c)).
Proof.
  intros r.
  assert (H : _get_data disabled_env ds0 = (r.1, r.2)) by apply surjective_pairing.
  split; [exact H|]. split; [vm_compute; reflexivity|]. split; [vm_compute; reflexivity|].
  exact (dsmode_resolved_once_after_merging disabled_env ds0 r.1 r.2 H).
Defined.

(** C3 (counterexample): on a machine where nothing points to NoCloud the
    run returns [False] without computing dsmode at all. *)
Lemma dsmode_not_computed_when_nothing_found :
  (_get_data bare_env ds0).1 = Ok false ∧
  dsmode_count (trace (_get_data bare_env ds0).2) = 0 ∧
  dsmode_count (trace (_get_data bare_env ds0).2) ≠ 1.
Proof. vm_compute. repeat split; congruence. Qed.

Section silent.
Context (env : Env).

Lemma load_dmi_silent a st : dmi_silent env → load_dmi env a st = (Next a, st).
Proof.
  unfold dmi_silent, load_dmi, try_except. unfold bind at 1.
  destruct (read_dmi_data env _) as [[s|]|e]; simpl; try done.
  intros [->|(fill & Hf)]; [done|].
  destruct (String.eqb s ""); [done|].
  unfold bind at 1. by rewrite Hf.
Qed.

Lemma load_cmdline_silent a st : cmdline_silent env → load_cmdline env a st = (Next a, st).
Proof.
  intros (fill & Hf). unfold load_cmdline, try_except. unfold bind at 1. by rewrite Hf.
Qed.

Lemma load_seed_dirs_silent paths a st :
  Forall (λ path, pathprefix2dict env path = Err ValueError) paths →
  load_seed_dirs env paths a st = (Next a, st).
Proof. induction 1 as [|p paths Hp _ IH]; simpl; [done|]. by rewrite Hp. Qed.

Lemma load_devices_silent devs a st :
  Forall (volume_silent env) devs → load_devices env devs a st = (Next a, st).
Proof.
  induction 1 as [|d devs Hd _ IH]; simpl; [done|].
  destruct Hd as [-> | [-> | ->]]; [done| |]; unfold try_except; simpl.
  - done.
  - done.
Qed.

Lemma load_ds_cfg_seedfrom_silent ds a st :
  ds_cfg_silent ds → load_ds_cfg_seedfrom (ds_cfg ds) a st = (Next a, st).
Proof.
  intros [Hf _]. unfold load_ds_cfg_seedfrom.
  destruct (ds_cfg ds !! "seedfrom"); [by rewrite Hf | done].
Qed.

Lemma load_ds_cfg_silent ds a st :
  ds_cfg_silent ds → load_ds_cfg env (ds_cfg ds) a st = (Next a, st).
Proof. intros [_ Hp]. unfold load_ds_cfg. by rewrite decide_False. Qed.

Lemma load_labelled_silent ds a st :
  volumes_silent env ds → load_labelled env (ds_cfg ds) a st = (Next a, st).
Proof.
  unfold volumes_silent, load_labelled.
  destruct (default _ _); try done. apply load_devices_silent.
Qed.
End silent.

(** C4 (as amended): when every source is consulted and yields nothing
    (the DMI serial and the kernel command line are read and do not name
    NoCloud, no seed directory has the required files, the datasource
    configuration has neither a seedfrom entry nor the user-data and
    meta-data pair, and every labelled volume is not a valid seed, is
    absent or fails to mount, so that no seedfrom URL is known either),
    [_get_data] returns [False], has merged nothing, and leaves every
    attribute of the object as it was. *)
Theorem nothing_found_is_not_found env ds :
  dmi_silent env → cmdline_silent env → seed_dirs_silent env ds →
  ds_cfg_silent ds → volumes_silent env ds →
  _get_data env ds = (Ok false, {| self := ds; trace := [] |}).
Proof.
  intros Hd Hc Hs Hf Hv. rewrite get_data_unfold.
  assert (gather env {| self := ds; trace := [] |}
          = (Next (mydata0, []), {| self := ds; trace := [] |})) as ->.
  { unfold gather. unfold bind at 1. unfold get_self at 1.
    unfold bind at 1. rewrite load_dmi_silent by done.
    unfold bind at 1. rewrite load_cmdline_silent by done.
    unfold bind at 1. rewrite load_seed_dirs_silent by done.
    unfold bind at 1. rewrite load_ds_cfg_seedfrom_silent by done.
    unfold bind at 1. rewrite load_ds_cfg_silent by done.
    by apply load_labelled_silent. }
  by rewrite finish_unfold.
Qed.

(** A machine on which nothing points to NoCloud. *)
Lemma nothing_found_is_not_found_witness :
  dmi_silent bare_env ∧ cmdline_silent bare_env ∧ seed_dirs_silent bare_env ds0 ∧
  ds_cfg_silent ds0 ∧ volumes_silent bare_env ds0 ∧
  _get_data bare_env ds0 = (Ok false, {| self := ds0; trace := [] |}).
Proof.
  assert (H1 : dmi_silent bare_env) by exact I.
  assert (H2 : cmdline_silent bare_env) by (eexists; vm_compute; reflexivity).
  assert (H3 : seed_dirs_silent bare_env ds0) by (repeat constructor).
  assert (H4 : ds_cfg_silent ds0).
  { split; [exact I|]. intros [[v Hv] _]. vm_compute in Hv. discriminate. }
  assert (H5 : volumes_silent bare_env ds0) by (vm_compute; constructor).
  repeat (split; [assumption|]).
  exact (nothing_found_is_not_found bare_env ds0 H1 H2 H3 H4 H5).
Defined.

(** C4 (counterexample): nothing points to NoCloud and no labelled volume
    yields a seed, so that no source contributes anything; but mounting
    one of the volumes raises an [OSError] whose errno is not [ENOENT],
    which the loop over the volumes raises again: [_get_data] does not
    return [False], it raises. *)
Lemma unreadable_volume_is_not_not_found :
  dmi_silent unreadable_volume_env ∧ cmdline_silent unreadable_volume_env ∧
  seed_dirs_silent unreadable_volume_env ds0 ∧ ds_cfg_silent ds0 ∧
  _get_devices unreadable_volume_env "cidata" = ["/dev/sr0"; "/dev/sdd"; "/dev/sdb"] ∧
  Forall (λ dev, ∃ e, mount_cb unreadable_volume_env dev = Err e)
    (_get_devices unreadable_volume_env "cidata") ∧
  _get_data unreadable_volume_env ds0
    = (Err (OSError 5), {| self := ds0; trace := [] |}) ∧
  (_get_data unreadable_volume_env ds0).1 ≠ Ok false.
Proof.
  split; [exact I|]. split; [by exists ∅|]. split; [repeat constructor|].
  split.
  { split; [exact I|]. intros [[v Hv] _]. vm_compute in Hv. discriminate. }
  split; [by vm_compute|]. split.
  { assert (_get_devices unreadable_volume_env "cidata"
            = ["/dev/sr0"; "/dev/sdd"; "/dev/sdb"]) as -> by (by vm_compute).
    repeat constructor; eexists; reflexivity. }
  split; [by vm_compute|]. by vm_compute.
Qed.

(** C9 (as amended): the candidates for a label are the devices that one
    of the two type lookups (vfat, iso9660) returns and that one of the
    three label lookups returns: the label in upper case, the label in
    lower case (no other spelling is looked up), or the label as given
    under [LABEL_FATBOOT].  They come without duplicates, in descending
    order, and the sequence depends only on which devices each lookup
    returns, not on their order or multiplicity. *)
Theorem get_devices_candidates env (label : string) :
  let devs := _get_devices env label in
  (∀ dev, dev ∈ devs ↔
     (dev ∈ find_devs_with env "TYPE=vfat" ∨ dev ∈ find_devs_with env "TYPE=iso9660") ∧
     (dev ∈ find_devs_with env ("LABEL=" +:+ Py.upper label) ∨
      dev ∈ find_devs_with env ("LABEL=" +:+ Py.lower label) ∨
      dev ∈ find_devs_with env ("LABEL_FATBOOT=" +:+ label))) ∧
  NoDup devs ∧
  StronglySorted str_ge devs ∧
  (∀ env', (∀ criteria dev, dev ∈ find_devs_with env' criteria ↔
                            dev ∈ find_devs_with env criteria) →
           _get_devices env' label = devs).
Proof.
  unfold _get_devices. cbv zeta. split; [|split; [|split]].
  - intros dev. rewrite merge_sort_Permutation, elem_of_elements,
      elem_of_intersection, !elem_of_list_to_set, !elem_of_app. tauto.
  - rewrite merge_sort_Permutation. apply NoDup_elements.
  - apply StronglySorted_merge_sort; apply _.
  - intros env' Hsame.
    assert (Hset : ∀ l l' : list string, (∀ x, x ∈ l ↔ x ∈ l') →
                     (list_to_set l : gset string) = list_to_set l').
    { intros l l' Hl. apply set_eq. intros x. rewrite !elem_of_list_to_set. apply Hl. }
    f_equal. f_equal. f_equal; apply Hset; intros x; rewrite !elem_of_app, !Hsame; tauto.
Qed.

(** C9 (counterexample): a CD-ROM of type iso9660 whose label is [CiData]
    matches the label [cidata] when case is ignored, but it is not a
    candidate: only [CIDATA] and [cidata] are looked up. *)
Lemma mixed_case_label_is_not_a_candidate :
  ∃ d, mixed_case_table = [d] ∧ dev_type d = "iso9660" ∧
    Py.lower (dev_label d) = Py.lower "cidata" ∧
    dev_path d ∉ _get_devices mixed_case_env "cidata".
Proof.
  eexists. split; [reflexivity|]. split; [reflexivity|]. split; [reflexivity|].
  assert (_get_devices mixed_case_env "cidata" = []) as -> by (vm_compute; reflexivity).
  apply not_elem_of_nil.
Qed.

Lemma four_devices_in_descending_order :
  _get_devices four_devices_env "cidata" = ["/dev/sr0"; "/dev/sdd"; "/dev/sdb"].
Proof. vm_compute. reflexivity. Qed.

Lemma find_devs_with_in_reverse table criteria dev :
  dev ∈ find_devs_with_in (reverse table) criteria ↔
  dev ∈ find_devs_with_in table criteria.
Proof.
  unfold find_devs_with_in.
  destruct (Py.split1 "=" criteria) as [|tag [|value [|]]]; try done.
  rewrite !list_elem_of_fmap. setoid_rewrite list_elem_of_filter.
  by setoid_rewrite elem_of_reverse.
Qed.

(** The candidates do not depend on the order in which the devices are
    enumerated. *)
Lemma get_devices_candidates_witness :
  _get_devices (example_env None "ro" no_dir (reverse four_devices) no_volume no_url)
    "cidata"
  = _get_devices four_devices_env "cidata".
Proof.
  apply (proj2 (proj2 (proj2 (get_devices_candidates four_devices_env "cidata")))).
  intros criteria dev. apply find_devs_with_in_reverse.
Defined.

End NoCloudProofs.

(** ** Properties of the hotplug hook *)
Module HotplugProofs.
Import Hotplug Examples.

Section hook.
Context {D : Type} (c : Collab D).

Lemma invoke_run {A} ev (f : D → res A * D) w :
  invoke ev f w =
    ((f (ds w)).1,
     {| ds := (f (ds w)).2; hotplug_enabled_file := hotplug_enabled_file w;
        log := (log w ++ [ev])%list |}).
Proof. unfold invoke. by destruct (f (ds w)). Qed.

Lemma filter_none {A} (f : A → bool) (l : list A) :
  Forall (λ x, f x = false) l → filter (λ x, f x = true) l = [].
Proof.
  induction 1 as [|x l Hx _ IH]; [done|].
  rewrite filter_cons, decide_False; [done | by rewrite Hx].
Qed.

(** An attempt on an add event fails when detection is on and the device
    does not show in the metadata. *)
Lemma attempt_fails_absent (self : UeventHandler) w :
  action self = "add" →
  (∀ d, skip_hotplug_detect c d = false) →
  (∀ d ifaces, iter_interfaces c d = Ok ifaces →
               Forall (λ iface, mac_matches (id self) iface = false) ifaces) →
  ∃ e w' l, attempt c self w = (Err e, w') ∧ failed_attempt_calls l ∧
    log w' = (log w ++ l)%list ∧ hotplug_enabled_file w' = hotplug_enabled_file w.
Proof.
  intros Ha Hskip Habs.
  unfold attempt, update_metadata, detect_hotplugged_device, device_detected,
    bind, ask, ret, raise, invoke. rewrite Ha. simpl.
  destruct (update_metadata_if_supported c [HOTPLUG] (ds w)) as [[[|]|e] d1]; simpl.
  - rewrite Hskip. simpl.
    destruct (iter_interfaces c d1) as [ifaces|e] eqn:Ei; simpl.
    + rewrite (filter_none _ _ (Habs _ _ Ei)).
      simpl. eexists _, _, [CallRefresh; CallDetect]. split; [reflexivity|].
      split; [by right|]. simpl. split; [by rewrite <- app_assoc | done].
    + eexists _, _, [CallRefresh; CallDetect]. split; [reflexivity|].
      split; [by right|]. simpl. split; [by rewrite <- app_assoc | done].
  - eexists _, _, [CallRefresh]. split; [reflexivity|]. split; [by left|]. done.
  - eexists _, _, [CallRefresh]. split; [reflexivity|]. split; [by left|]. done.
Qed.

Lemma try_hotplug_loop_exhausts (self : UeventHandler) waits e0 w :
  (∀ w, ∃ e w' l, attempt c self w = (Err e, w') ∧ failed_attempt_calls l ∧
      log w' = (log w ++ l)%list ∧ hotplug_enabled_file w' = hotplug_enabled_file w) →
  ∃ e w' calls, try_hotplug_loop c self waits e0 w = (Err e, w') ∧
    log w' = (log w ++ calls)%list ∧ exhausted waits calls ∧
    hotplug_enabled_file w' = hotplug_enabled_file w ∧
    match last waits with
    | None => e = e0
    | Some wait => ∃ wa wb, attempt c self wa = (Err e, wb) ∧
                            time_sleep c wait wb = (Ok tt, w')
    end.
Proof.
  intros Hfail. revert e0 w.
  induction waits as [|wait rest IH]; intros e0 w; simpl.
  { eexists _, _, []. split; [reflexivity|]. by rewrite app_nil_r. }
  unfold try_except. destruct (Hfail w) as (e & w1 & l & Hatt & Hl & Hlog & Hfile).
  rewrite Hatt.
  unfold bind at 1. unfold time_sleep at 1. rewrite invoke_run. simpl.
  set (w2 := {| ds := sleep c wait (ds w1);
                hotplug_enabled_file := hotplug_enabled_file w1;
                log := (log w1 ++ [CallSleep wait])%list |}).
  destruct (IH e w2) as (e' & w' & calls & H0 & Hlog' & Hex & Hfile' & Hlast).
  rewrite H0.
  eexists e', w', (l ++ CallSleep wait :: calls)%list.
  split; [reflexivity|]. split.
  { rewrite Hlog'. simpl. rewrite Hlog. by rewrite <- !app_assoc. }
  split; [exists l, calls; by repeat split|]. split; [simpl in Hfile'; congruence|].
  destruct rest as [|wait' rest'].
  - simpl in Hlast. simpl in H0. injection H0 as _ <-. subst e'.
    simpl. exists w, w1. split; [done|].
    unfold time_sleep. by rewrite invoke_run.
  - rewrite last_cons_cons.
    destruct (last (wait' :: rest')) eqn:El; [exact Hlast|].
    by apply last_None in El.
Qed.

Lemma initialize_datasource_keeps subsystem w b w1 :
  initialize_datasource c subsystem w = (Ok b, w1) →
  hotplug_enabled_file w1 = hotplug_enabled_file w ∧
  log w1 = (log w ++ [CallFetch])%list.
Proof.
  unfold initialize_datasource, is_enabled, bind, ask, ret, raise. rewrite invoke_run.
  destruct (fetch c (ds w)) as [[[|]|e] d1]; simpl; try done.
  destruct (bool_decide _); [by intros [= <- <-]|].
  destruct (SUBSYSTEM_PROPERTIES_MAP !! subsystem); simpl; [|done].
  destruct (update_event_enabled _ _ _ _ _); by intros [= <- <-].
Qed.
End hook.

Lemma sleeps_app l l' : sleeps (l ++ l') = (sleeps l ++ sleeps l')%list.
Proof. induction l as [|[] l IH]; simpl; by rewrite ?IH. Qed.

Lemma exhausted_counts waits calls :
  exhausted waits calls →
  attempt_count calls = length waits ∧ sleeps calls = waits ∧ success_count calls = 0 ∧
  CallApplyNetworkConfig ∉ calls.
Proof.
  revert calls. induction waits as [|wait rest IH]; intros calls; simpl.
  { intros ->. repeat split; try done. apply not_elem_of_nil. }
  intros (l & calls' & Hl & -> & Hex).
  destruct (IH _ Hex) as (Ha & Hs & Hc & Hn).
  unfold attempt_count, success_count in *.
  rewrite !List.filter_app, !length_app, sleeps_app. simpl.
  rewrite Ha, Hs, Hc.
  destruct Hl as [-> | ->]; simpl; repeat split; try done.
  - rewrite !elem_of_cons. intros [?|[?|?]]; done.
  - rewrite !elem_of_cons. intros [?|[?|[?|?]]]; done.
Qed.

(** C2 (as amended): an add event for a subsystem whose hotplug handling
    is supported and enabled, on a datasource that neither forces retries
    nor skips the detection, whose device never shows in the refreshed
    metadata: [handle_hotplug] makes exactly five attempts, none of which
    gets as far as applying the configuration or calling the persistence
    callback, sleeps 1, 3, 5, 10 and 30 seconds, one delay after each
    failed attempt, and then raises the exception of the fifth attempt. *)
Theorem absent_device_exhausts_attempts {D} (c : Collab D) (fuel : nat)
    (devpath : string) (w w1 : world D) :
  initialize_datasource c "net" w = (Ok true, w1) →
  force_retry (hotplug_retry_settings c (ds w1)) = false →
  (∀ d, skip_hotplug_detect c d = false) →
  (∀ d ifaces, iter_interfaces c d = Ok ifaces →
     Forall (λ iface,
       mac_matches (read_sys_net_safe c (ds w1) (basename devpath) "address") iface
       = false) ifaces) →
  ∃ e w' calls,
    handle_hotplug c fuel devpath "net" "add" w = Some (Err e, w') ∧
    log w' = (log w1 ++ calls)%list ∧
    exhausted wait_times calls ∧
    attempt_count calls = 5 ∧
    sleeps calls = [1; 3; 5; 10; 30]%Z ∧
    success_count calls = 0 ∧
    (∃ self wa wb, attempt c self wa = (Err e, wb) ∧
                   time_sleep c 30 wb = (Ok tt, w')).
Proof.
  intros Hinit Hforce Hskip Habs. unfold handle_hotplug. rewrite Hinit, Hforce. simpl.
  set (self := {| id := _; devpath := devpath; action := "add" |}).
  destruct (try_hotplug_loop_exhausts c self wait_times
              (OtherException "Bug while processing hotplug event.") w1)
    as (e & w' & calls & Hrun & Hlog & Hex & _ & Hlast).
  { intros w0. by apply attempt_fails_absent. }
  exists e, w', calls. unfold try_hotplug. rewrite Hrun.
  destruct (exhausted_counts _ _ Hex) as (Ha & Hs & Hc & _).
  repeat split; try done.
  simpl in Hlast. destruct Hlast as (wa & wb & ? & ?). by exists self, wa, wb.
Qed.

(** The device stays absent on a machine whose datasource detects. *)
Lemma absent_device_exhausts_attempts_witness :
  ∃ e w' calls,
    handle_hotplug (machine_collab absent_script) 0 eth1 "net" "add" (world0 ["network"])
      = Some (Err e, w') ∧
    log w' = ([CallFetch] ++ calls)%list ∧
    attempt_count calls = 5 ∧ sleeps calls = [1; 3; 5; 10; 30]%Z ∧
    success_count calls = 0.
Proof.
  destruct (absent_device_exhausts_attempts (machine_collab absent_script) 0 eth1
              (world0 ["network"])
              {| ds := ds (world0 ["network"]); hotplug_enabled_file := ["network"];
                 log := [CallFetch] |})
    as (e & w' & calls & H1 & H2 & _ & H3 & H4 & H5 & _).
  - reflexivity.
  - reflexivity.
  - intros d. reflexivity.
  - intros d ifaces [= <-]. simpl. repeat constructor.
  - exists e, w', calls. repeat split; assumption.
Defined.

(** C2 (counterexample): on a datasource that skips the detection, an add
    event whose device never shows in the metadata is handled in one
    attempt that succeeds: nothing is raised and nothing is slept. *)
Lemma absent_device_not_checked_when_detection_skipped :
  (∀ n, visible skipping_script n = false) ∧
  ∃ w', handle_hotplug (machine_collab skipping_script) 0 eth1 "net" "add"
          (world0 ["network"]) = Some (Ok tt, w') ∧
    attempt_count (log w') = 1 ∧ sleeps (log w') = [] ∧ success_count (log w') = 1.
Proof. split; [done|]. eexists. vm_compute. repeat split. Qed.

Lemma filter_some {A} (f : A → bool) (l : list A) x :
  x ∈ l → f x = true → (0 < length (filter (λ x, f x = true) l)).
Proof.
  intros Hx Hf. induction Hx as [x l|x y l _ IH].
  - rewrite filter_cons, decide_True by done. rewrite length_cons. lia.
  - rewrite filter_cons. case_decide; [rewrite length_cons; lia | auto].
Qed.

(** C6 (as amended): an add event, supported and enabled, on a datasource
    that does not force retries: when on the first attempt the refresh
    succeeds, the detection finds the device, the network configuration is
    applied, the interface comes up and the persistence callback returns,
    [handle_hotplug] returns without raising after these five calls in
    this order; the callback is called once, last. *)
Theorem device_found_on_first_attempt {D} (c : Collab D) (fuel : nat)
    (devpath : string) (w w1 : world D) (d2 d3 d4 d5 : D)
    (ifaces : list dict) (iface : dict) :
  initialize_datasource c "net" w = (Ok true, w1) →
  force_retry (hotplug_retry_settings c (ds w1)) = false →
  update_metadata_if_supported c [HOTPLUG] (ds w1) = (Ok true, d2) →
  skip_hotplug_detect c d2 = false →
  iter_interfaces c d2 = Ok ifaces →
  iface ∈ ifaces →
  mac_matches (read_sys_net_safe c (ds w1) (basename devpath) "address") iface = true →
  apply_network_config c d2 = (Ok tt, d3) →
  bring_up_interface c (basename devpath) d3 = (Ok true, d4) →
  _write_to_cache c d4 = (Ok tt, d5) →
  let calls := [CallRefresh; CallDetect; CallApplyNetworkConfig;
                CallBringUp (basename devpath); CallSuccess] in
  handle_hotplug c fuel devpath "net" "add" w =
    Some (Ok tt, {| ds := d5; hotplug_enabled_file := hotplug_enabled_file w1;
                    log := (log w1 ++ calls)%list |}) ∧
  success_count calls = 1 ∧ last calls = Some CallSuccess.
Proof.
  intros Hinit Hforce Hup Hskip Hif Hin Hmac Happ Hbr Hwr calls.
  split; [|done].
  unfold handle_hotplug. rewrite Hinit, Hforce. simpl.
  unfold try_hotplug. simpl. unfold try_except.
  unfold attempt, update_metadata, detect_hotplugged_device, device_detected,
    apply, success, bind, ask, ret, raise, invoke. simpl.
  rewrite Hup. simpl. rewrite Hskip. simpl. rewrite Hif. simpl.
  rewrite bool_decide_true by (eapply filter_some; eauto). simpl.
  rewrite Happ. simpl. rewrite Hbr. simpl. rewrite Hwr. simpl.
  by rewrite <- !app_assoc.
Qed.

(** The device is in the metadata after the first refresh and everything
    works. *)
Lemma device_found_on_first_attempt_witness :
  ∃ w', handle_hotplug (machine_collab present_script) 0 eth1 "net" "add"
          (world0 ["network"]) = Some (Ok tt, w') ∧
    log w' = [CallFetch; CallRefresh; CallDetect; CallApplyNetworkConfig;
              CallBringUp "eth1"; CallSuccess].
Proof.
  eexists. split.
  - refine (proj1 (device_found_on_first_attempt (machine_collab present_script) 0 eth1
              (world0 ["network"])
              {| ds := ds (world0 ["network"]); hotplug_enabled_file := ["network"];
                 log := [CallFetch] |}
              _ _ _ _ eth0_eth1 {[ "name" := PStr "eth1"; "mac_address" := PStr mac ]}
              _ _ _ _ _ _ _ _ _ _)); try reflexivity.
    apply list_elem_of_further, list_elem_of_here.
  - reflexivity.
Defined.

(** C6 (counterexample): the device shows in the metadata on the first
    attempt, but the interface cannot be brought up; every attempt detects
    the device and fails in [apply], [handle_hotplug] raises after the
    fifth one and the persistence callback is never called. *)
Lemma device_found_but_link_stays_down :
  (∀ n, visible link_down_script n = true) ∧
  ∃ w', handle_hotplug (machine_collab link_down_script) 0 eth1 "net" "add"
          (world0 ["network"])
        = Some (Err (RuntimeError "Failed to bring up device"), w') ∧
    take 5 (log w') = [CallFetch; CallRefresh; CallDetect; CallApplyNetworkConfig;
                       CallBringUp "eth1"] ∧
    attempt_count (log w') = 5 ∧ success_count (log w') = 0.
Proof. split; [done|]. eexists. vm_compute. repeat split. Qed.

(** C8: when [Init.fetch] returns the datasource and either the datasource
    supports no hotplug event or the scope of the subsystem is not
    enabled, [handle_hotplug] returns without raising, whatever the retry
    settings, and the fetch is the only call it has made: no refresh, no
    detection, no configuration and no persistence callback. *)
Theorem unsupported_or_disabled_event_is_ignored {D} (c : Collab D) (fuel : nat)
    (devpath subsystem udevaction : string) (w : world D) (d1 : D) :
  fetch c (ds w) = (Ok true, d1) →
  (get_supported_events c d1 [HOTPLUG] = [] ∨
   ∃ scope, SUBSYSTEM_PROPERTIES_MAP !! subsystem = Some scope ∧
     update_event_enabled c d1 (hotplug_enabled_file w) HOTPLUG scope = false) →
  handle_hotplug c fuel devpath subsystem udevaction w =
    Some (Ok tt, {| ds := d1; hotplug_enabled_file := hotplug_enabled_file w;
                    log := (log w ++ [CallFetch])%list |}).
Proof.
  intros Hf Hgate. unfold handle_hotplug.
  assert (initialize_datasource c subsystem w =
          (Ok false, {| ds := d1; hotplug_enabled_file := hotplug_enabled_file w;
                        log := (log w ++ [CallFetch])%list |})) as ->; [|done].
  unfold initialize_datasource, is_enabled, bind, ask, ret, raise.
  rewrite invoke_run, Hf. simpl.
  destruct Hgate as [-> | (scope & -> & Hen)]; [done|].
  destruct (bool_decide _); [done|]. simpl. by rewrite Hen.
Qed.

(** The state file names no scope. *)
Lemma unsupported_or_disabled_event_is_ignored_witness :
  handle_hotplug (machine_collab present_script) 0 eth1 "net" "add" (world0 [])
  = Some (Ok tt, {| ds := ds (world0 []); hotplug_enabled_file := [];
                    log := [CallFetch] |}).
Proof.
  apply (unsupported_or_disabled_event_is_ignored (machine_collab present_script) 0
           eth1 "net" "add" (world0 []) (ds (world0 []))).
  - reflexivity.
  - right. exists NETWORK. split; reflexivity.
Defined.

Section frame.
Context {D : Type} (c : Collab D).

Lemma keeps_file_ret {A} (a : A) : keeps_file (@ret D A a).
Proof. by intros w r w' [= <- <-]. Qed.
Lemma keeps_file_raise {A} e : keeps_file (@raise D A e).
Proof. by intros w r w' [= <- <-]. Qed.
Lemma keeps_file_ask {A} (f : D → A) : keeps_file (ask f).
Proof. by intros w r w' [= <- <-]. Qed.
Lemma keeps_file_invoke {A} ev (f : D → res A * D) : keeps_file (invoke ev f).
Proof. intros w r w'. rewrite invoke_run. by intros [= <- <-]. Qed.
Lemma keeps_file_bind {A B} (m : @H D A) (k : A → @H D B) :
  keeps_file m → (∀ a, keeps_file (k a)) → keeps_file (bind m k).
Proof.
  intros Hm Hk w r w'. unfold bind. destruct (m w) as [[a|e] w1] eqn:E.
  - intros Hka. rewrite (Hk _ _ _ _ Hka). eauto.
  - intros [= <- <-]. eauto.
Qed.
Lemma keeps_file_try {A} (m : @H D A) (h : exn → @H D A) :
  keeps_file m → (∀ e, keeps_file (h e)) → keeps_file (try_except m h).
Proof.
  intros Hm Hh w r w'. unfold try_except. destruct (m w) as [[a|e] w1] eqn:E.
  - intros [= <- <-]. eauto.
  - intros Hhe. rewrite (Hh _ _ _ _ Hhe). eauto.
Qed.

Ltac kf :=
  repeat first
    [ apply keeps_file_ret | apply keeps_file_raise | apply keeps_file_ask
    | apply keeps_file_invoke | apply keeps_file_bind; [|intros]
    | match goal with
      | |- keeps_file (if ?x then _ else _) => destruct x
      | |- keeps_file (match ?x with _ => _ end) => destruct x
      end ].

Lemma keeps_file_attempt self : keeps_file (attempt c self).
Proof.
  unfold attempt, update_metadata, detect_hotplugged_device, device_detected,
    apply, success. kf.
Qed.

Lemma keeps_file_try_hotplug_loop self waits e0 :
  keeps_file (try_hotplug_loop c self waits e0).
Proof.
  revert e0. induction waits as [|wait rest IH]; intros e0; simpl; [kf|].
  apply keeps_file_try; [apply keeps_file_attempt|].
  intros e. unfold time_sleep. kf. apply IH.
Qed.

Lemma keeps_file_initialize_datasource subsystem :
  keeps_file (initialize_datasource c subsystem).
Proof.
  unfold initialize_datasource, is_enabled. kf.
  by intros w r w' [= <- <-].
Qed.

Lemma force_retry_loop_S fuel self start w :
  force_retry_loop c (S fuel) self start w =
    if bool_decide (time c (ds w) - start
                    < sleep_total (hotplug_retry_settings c (ds w)))%Z
    then
      match try_hotplug c self w with
      | (Ok _, w1) =>
          force_retry_loop c fuel self start
            (time_sleep c (sleep_period (hotplug_retry_settings c (ds w1))) w1).2
      | (Err e, w1) => Some (Err e, w1)
      end
    else Some (Ok tt, w).
Proof.
  simpl. case_bool_decide; [|done].
  destruct (try_hotplug c self w) as [[[]|e] w1]; done.
Qed.

Lemma force_retry_loop_keeps fuel self start w r w' :
  force_retry_loop c fuel self start w = Some (r, w') →
  hotplug_enabled_file w' = hotplug_enabled_file w.
Proof.
  revert w. induction fuel as [|fuel IH]; intros w; [done|].
  rewrite force_retry_loop_S.
  case_bool_decide; [|by intros [= <- <-]].
  destruct (try_hotplug c self w) as [[[]|e] w1] eqn:Et.
  - intros Hl. rewrite (IH _ Hl). unfold time_sleep. rewrite invoke_run. simpl.
    eapply keeps_file_try_hotplug_loop, Et.
  - intros [= <- <-]. eapply keeps_file_try_hotplug_loop, Et.
Qed.

Lemma handle_hotplug_keeps fuel devpath subsystem udevaction w r w' :
  handle_hotplug c fuel devpath subsystem udevaction w = Some (r, w') →
  hotplug_enabled_file w' = hotplug_enabled_file w.
Proof.
  unfold handle_hotplug.
  destruct (initialize_datasource c subsystem w) as [[[|]|e] w1] eqn:Ei;
    pose proof (keeps_file_initialize_datasource _ _ _ _ Ei) as Hi.
  - destruct (negb _).
    + intros [= Ht]. rewrite <- Hi. eapply keeps_file_try_hotplug_loop, Ht.
    + intros Hl. rewrite (force_retry_loop_keeps _ _ _ _ _ _ Hl). done.
  - by intros [= <- <-].
  - by intros [= <- <-].
Qed.
End frame.

Section enable.
Context {D : Type} (c : Collab D).

(** The three ways [enable_hotplug] ends when the subsystem is known. *)
Lemma enable_hotplug_run subsystem scope w :
  SUBSYSTEM_PROPERTIES_MAP !! subsystem = Some scope →
  enable_hotplug c subsystem w =
    match fetch c (ds w) with
    | (Err e, d1) =>
        (Err e, {| ds := d1; hotplug_enabled_file := hotplug_enabled_file w;
                   log := (log w ++ [CallFetch])%list |})
    | (Ok datasource, d1) =>
        let w1 := {| ds := d1; hotplug_enabled_file := hotplug_enabled_file w;
                     log := (log w ++ [CallFetch])%list |} in
        if negb datasource then (Ok false, w1)
        else if negb (hotplug_supported c d1 scope) then (Ok false, w1)
        else if bool_decide (scope_value scope ∈ hotplug_enabled_file w)
        then (Ok true, w1)
        else
          let scopes' := (hotplug_enabled_file w ++ [scope_value scope])%list in
          match write_file c scopes' d1 with
          | (Err e, d2) =>
              (Err e, {| ds := d2; hotplug_enabled_file := hotplug_enabled_file w;
                         log := (log w ++ [CallFetch; CallWriteFile scopes'])%list |})
          | (Ok _, d2) =>
              match install_hotplug c d2 with
              | (r, d3) =>
                  (match r with Ok _ => Ok true | Err e => Err e end,
                   {| ds := d3; hotplug_enabled_file := scopes';
                      log := (log w ++ [CallFetch; CallWriteFile scopes';
                                        CallInstallHotplug])%list |})
              end
          end
    end.
Proof.
  intros Hs. unfold enable_hotplug. unfold bind at 1. rewrite invoke_run.
  destruct (fetch c (ds w)) as [[[|]|e] d1]; simpl; try done.
  rewrite Hs. unfold bind at 1. unfold ask at 1. simpl.
  destruct (hotplug_supported c d1 scope); simpl; [|done].
  case_bool_decide; [done|].
  unfold bind, ret. rewrite !invoke_run. simpl.
  destruct (write_file c _ d1) as [[[]|e] d2]; simpl.
  - destruct (install_hotplug c d2) as [[[]|e] d3]; simpl; by rewrite <- !app_assoc.
  - by rewrite <- !app_assoc.
Qed.
End enable.

(** C7 (as amended): for a subsystem of the map, (1) when the datasource
    is fetched and advertises hotplug support for the scope, and the scope
    is already in the state file, [enable_hotplug] returns [True] having
    made no call but the fetch: nothing is appended, the file is not
    written and the installer is not called; (2) hence a call that comes
    after a successful call, with the datasource still fetched and
    supporting hotplug, is such a no-op; (3) whatever it returns,
    [enable_hotplug] keeps every scope of the state file, and
    [handle_hotplug] leaves the file as it is. *)
Theorem enable_hotplug_is_idempotent {D} (c : Collab D) (subsystem : string)
    (scope : EventScope) :
  SUBSYSTEM_PROPERTIES_MAP !! subsystem = Some scope →
  (∀ w d1,
     fetch c (ds w) = (Ok true, d1) →
     hotplug_supported c d1 scope = true →
     scope_value scope ∈ hotplug_enabled_file w →
     enable_hotplug c subsystem w =
       (Ok true, {| ds := d1; hotplug_enabled_file := hotplug_enabled_file w;
                    log := (log w ++ [CallFetch])%list |})) ∧
  (∀ w w1 d2,
     enable_hotplug c subsystem w = (Ok true, w1) →
     fetch c (ds w1) = (Ok true, d2) →
     hotplug_supported c d2 scope = true →
     enable_hotplug c subsystem w1 =
       (Ok true, {| ds := d2; hotplug_enabled_file := hotplug_enabled_file w1;
                    log := (log w1 ++ [CallFetch])%list |})) ∧
  (∀ w r w' s,
     enable_hotplug c subsystem w = (r, w') →
     s ∈ hotplug_enabled_file w → s ∈ hotplug_enabled_file w') ∧
  (∀ fuel devpath udevaction w r w',
     handle_hotplug c fuel devpath subsystem udevaction w = Some (r, w') →
     hotplug_enabled_file w' = hotplug_enabled_file w).
Proof.
  intros Hs.
  assert (H1 : ∀ w d1,
     fetch c (ds w) = (Ok true, d1) →
     hotplug_supported c d1 scope = true →
     scope_value scope ∈ hotplug_enabled_file w →
     enable_hotplug c subsystem w =
       (Ok true, {| ds := d1; hotplug_enabled_file := hotplug_enabled_file w;
                    log := (log w ++ [CallFetch])%list |})).
  { intros w d1 Hf Hsup Hin. rewrite (enable_hotplug_run c _ _ _ Hs), Hf. simpl.
    rewrite Hsup. simpl. by rewrite bool_decide_true. }
  split; [exact H1|]. split; [|split].
  - intros w w1 d2 He Hf Hsup. apply H1; [done..|].
    revert He. rewrite (enable_hotplug_run c _ _ _ Hs).
    destruct (fetch c (ds w)) as [[[|]|e] d1]; simpl; try done.
    destruct (hotplug_supported c d1 scope); simpl; [|done].
    case_bool_decide as Hin; [by intros [= <-]|].
    destruct (write_file c _ d1) as [[[]|e] d3]; [|done].
    destruct (install_hotplug c d3) as [[[]|e] d4]; [|done].
    intros [= <-]. simpl. apply elem_of_app. right. apply list_elem_of_here.
  - intros w r w' s. rewrite (enable_hotplug_run c _ _ _ Hs).
    destruct (fetch c (ds w)) as [[[|]|e] d1]; simpl; try by intros [= <- <-].
    destruct (hotplug_supported c d1 scope); simpl; [|by intros [= <- <-]].
    case_bool_decide as Hin; [by intros [= <- <-]|].
    destruct (write_file c _ d1) as [[[]|e] d3]; [|by intros [= <- <-]].
    destruct (install_hotplug c d3) as [r' d4]. intros [= <- <-]. simpl.
    intros ?. apply elem_of_app. by left.
  - intros fuel devpath udevaction w r w'. apply handle_hotplug_keeps.
Qed.

(** Two calls in a row on a fresh machine: the first one writes the file and
    installs the hook, the second one only fetches the datasource. *)
Lemma enable_hotplug_is_idempotent_witness :
  let w1 := (enable_hotplug (machine_collab present_script) "net" (world0 [])).2 in
  enable_hotplug (machine_collab present_script) "net" (world0 []) = (Ok true, w1) ∧
  log w1 = [CallFetch; CallWriteFile ["network"]; CallInstallHotplug] ∧
  enable_hotplug (machine_collab present_script) "net" w1 =
    (Ok true, {| ds := ds w1; hotplug_enabled_file := ["network"];
                 log := [CallFetch; CallWriteFile ["network"]; CallInstallHotplug;
                         CallFetch] |}).
Proof.
  intros w1.
  assert (H1 : enable_hotplug (machine_collab present_script) "net" (world0 [])
               = (Ok true, w1)) by reflexivity.
  split; [exact H1|]. split; [reflexivity|].
  exact (proj1 (proj2 (enable_hotplug_is_idempotent (machine_collab present_script)
                         "net" NETWORK eq_refl))
           (world0 []) w1 (ds w1) H1 eq_refl eq_refl).
Defined.

(** C7 (counterexample): the scope is in the state file, but the
    datasource does not advertise hotplug support for it; [enable_hotplug]
    returns [False]. *)
Lemma enable_fails_when_hotplug_is_not_supported :
  let w := world0 ["network"] in
  scope_value NETWORK ∈ hotplug_enabled_file w ∧
  (enable_hotplug (machine_collab boot_only_script) "net" w).1 = Ok false.
Proof. split; [apply list_elem_of_here | reflexivity]. Qed.

Section rounds.
Context {D : Type} (c : Collab D).

Lemma force_retry_loop_rounds self start n w0 w fuel :
  nsteps (round_ok c self start) n w0 w →
  force_retry_loop c (n + fuel) self start w0 = force_retry_loop c fuel self start w.
Proof.
  induction 1 as [|n w0 w1 w [Hwin (w' & Ht & Hs)] _ IH]; [done|].
  change (S n + fuel) with (S (n + fuel)). rewrite force_retry_loop_S.
  rewrite bool_decide_true by exact Hwin. rewrite Ht, Hs. exact IH.
Qed.
End rounds.

(** C10: with [force_retry] the loop of [handle_hotplug] goes on after a
    round that succeeds: (1) inside the window a successful round is
    followed by a sleep of [sleep_period] and by the rest of the loop, and
    (2) the loop ends well only when the window is over; (3) an exception
    that comes out of [try_hotplug] in a round, after any number of
    successful rounds, comes out of the loop; (4) there is an execution of
    two rounds in which the persistence callback is called twice, and (5)
    one whose first round succeeds and whose second round raises after its
    own five attempts, the exception coming out of [handle_hotplug]. *)
Theorem force_retry_repeats_until_window_closes :
  (∀ D (c : Collab D) self start fuel w w1,
     in_window c start w → try_hotplug c self w = (Ok tt, w1) →
     force_retry_loop c (S fuel) self start w =
       force_retry_loop c fuel self start
         (time_sleep c (sleep_period (hotplug_retry_settings c (ds w1))) w1).2) ∧
  (∀ D (c : Collab D) self start fuel w,
     ¬ in_window c start w →
     force_retry_loop c (S fuel) self start w = Some (Ok tt, w)) ∧
  (∀ D (c : Collab D) self start n w0 w e w1 fuel,
     nsteps (round_ok c self start) n w0 w →
     in_window c start w → try_hotplug c self w = (Err e, w1) →
     (n < fuel)%nat →
     force_retry_loop c fuel self start w0 = Some (Err e, w1)) ∧
  (∀ fuel : nat, (3 ≤ fuel)%nat →
     ∃ w', handle_hotplug (machine_collab forced_script) fuel eth1 "net" "add"
             (world0 ["network"]) = Some (Ok tt, w') ∧
       success_count (log w') = 2) ∧
  (∀ fuel : nat, (2 ≤ fuel)%nat →
     ∃ e w', handle_hotplug (machine_collab forced_once_script) fuel eth1 "net" "add"
               (world0 ["network"]) = Some (Err e, w') ∧
       success_count (log w') = 1 ∧ attempt_count (log w') = 6 ∧
       sleeps (log w') = [5; 1; 3; 5; 10; 30]%Z).
Proof.
  split; [|split; [|split; [|split]]].
  - intros D c self start fuel w w1 Hwin Ht.
    rewrite force_retry_loop_S, bool_decide_true by exact Hwin. by rewrite Ht.
  - intros D c self start fuel w Hout.
    by rewrite force_retry_loop_S, bool_decide_false.
  - intros D c self start n w0 w e w1 fuel Hn Hwin Ht Hlt.
    destruct (Nat.le_exists_sub (S n) fuel Hlt) as (k & -> & _).
    rewrite (Nat.add_comm k (S n)). change (S n + k) with (n + S k)%nat at 1
      || replace (S n + k) with (n + S k) by lia.
    rewrite (force_retry_loop_rounds c self start n w0 w (S k) Hn).
    rewrite force_retry_loop_S, bool_decide_true by exact Hwin. by rewrite Ht.
  - intros fuel Hf. destruct fuel as [|[|[|fuel]]]; try lia.
    eexists. split; [vm_compute; reflexivity | reflexivity].
  - intros fuel Hf. destruct fuel as [|[|fuel]]; try lia.
    eexists _, _. split; [vm_compute; reflexivity | repeat split].
Qed.

(** A window of two rounds: the first one succeeds, the second one fails
    five times, and its exception comes out of the loop. *)
Lemma force_retry_repeats_until_window_closes_witness :
  let c := machine_collab forced_once_script in
  let self := {| id := Some mac; devpath := eth1; action := "add" |} in
  let w0 := {| ds := {| now := 1000; refreshes := 0 |};
               hotplug_enabled_file := ["network"]; log := [CallFetch] |} in
  let w := (time_sleep c 5 (try_hotplug c self w0).2).2 in
  nsteps (round_ok c self 1000) 1 w0 w ∧
  in_window c 1000 w ∧
  force_retry_loop c 2 self 1000 w0
  = Some (Err (RuntimeError "Failed to detect device in updated metadata"),
          (try_hotplug c self w).2).
Proof.
  intros c self w0 w.
  assert (H1 : nsteps (round_ok c self 1000) 1 w0 w).
  { apply nsteps_once. split; [vm_compute; reflexivity|].
    exists (try_hotplug c self w0).2. split; reflexivity. }
  assert (H2 : in_window c 1000 w) by (vm_compute; reflexivity).
  split; [exact H1|]. split; [exact H2|].
  apply (proj1 (proj2 (proj2 force_retry_repeats_until_window_closes))
           machine c self 1000%Z 1%nat w0 w _ _ 2%nat H1 H2); [reflexivity | lia].
Defined.

End HotplugProofs.

(** ** Properties of the command line parser and of the rest of
    DataSourceNoCloud.py *)
Module NoCloudMoreProofs.
Import NoCloud Examples NoCloudMore MoreExamples NoCloudProofs.

(** *** Strings *)

Lemma append_cons (x : ascii) (a b : string) :
  String x a +:+ b = String x (a +:+ b).
Proof. reflexivity. Qed.

Lemma append_nil_l (b : string) : "" +:+ b = b.
Proof. reflexivity. Qed.

Lemma append_assoc (a b c : string) : (a +:+ b) +:+ c = a +:+ (b +:+ c).
Proof.
  induction a as [|x a IH]; [done|]. by rewrite !append_cons, IH.
Qed.

Lemma append_nil_r (a : string) : a +:+ "" = a.
Proof. induction a as [|x a IH]; [done|]. by rewrite append_cons, IH. Qed.

Lemma snoc_append (a : string) (x : ascii) (b : string) :
  Py.snoc a x +:+ b = a +:+ String x b.
Proof. unfold Py.snoc. by rewrite append_assoc, append_cons, append_nil_l. Qed.

Lemma prefix_iff (p s : string) :
  String.prefix p s = true ↔ ∃ r, s = p +:+ r.
Proof.
  revert s. induction p as [|x p IH]; intros s.
  - destruct s; split; eauto.
  - destruct s as [|y s]; [split; [done | by intros [r ?]]|]. simpl.
    destruct (Ascii.ascii_dec x y) as [->|Hne].
    + rewrite IH. split; intros [r Hr]; exists r.
      * by rewrite append_cons, Hr.
      * rewrite append_cons in Hr. by injection Hr.
    + split; [done|]. intros [r Hr]. rewrite append_cons in Hr.
      by injection Hr as ? ?.
Qed.

Lemma contains_split (sub s : string) :
  Py.contains sub s = true → ∃ pre post, s = pre +:+ (sub +:+ post).
Proof.
  induction s as [|x s IH].
  - change (Py.contains sub "") with (String.prefix sub "" || false).
    rewrite orb_true_iff.
    intros [H|?]; [|done]. apply prefix_iff in H as [r ->]. by exists "", r.
  - change (Py.contains sub (String x s))
      with (String.prefix sub (String x s) || Py.contains sub s).
    rewrite orb_true_iff. intros [H|H].
    + apply prefix_iff in H as [r ->]. by exists "", r.
    + destruct (IH H) as (pre & post & ->). by exists (String x pre), post.
Qed.

Lemma has_char_append c a b : has_char c a = true → has_char c (a +:+ b) = true.
Proof.
  induction a as [|x a IH]; [done|]. rewrite append_cons. simpl.
  rewrite !orb_true_iff. intros [?|?]; auto.
Qed.

(** *** [str.split] *)

Lemma split_ws_go_skip (acc pre rest : string) :
  ∃ l, Py.split_ws_go acc (pre +:+ String " " rest) = (l ++ Py.split_ws_go "" rest)%list.
Proof.
  revert acc. induction pre as [|x pre IH]; intros acc;
    [rewrite append_nil_l | rewrite append_cons]; simpl.
  - destruct (String.eqb acc ""); [by exists [] | by exists [acc]].
  - destruct (Py.isspace x).
    + destruct (IH "") as [l Hl]. rewrite Hl.
      destruct (String.eqb acc ""); [by exists l | by exists (acc :: l)].
    + apply IH.
Qed.

Lemma split_ws_go_word (acc t rest : string) :
  no_space t = true →
  Py.split_ws_go acc (t +:+ rest) = Py.split_ws_go (acc +:+ t) rest.
Proof.
  revert acc. induction t as [|x t IH]; intros acc.
  - by rewrite append_nil_r.
  - rewrite append_cons. simpl. rewrite andb_true_iff, negb_true_iff.
    intros [-> Ht]. rewrite IH by done. by rewrite snoc_append.
Qed.

Lemma split_ws_go_head (acc rest : string) :
  acc ≠ "" →
  ∃ tok l, Py.split_ws_go acc rest = tok :: l ∧ String.prefix acc tok = true.
Proof.
  revert acc. induction rest as [|x rest IH]; intros acc Hacc; simpl.
  - rewrite (proj2 (String.eqb_neq _ _) Hacc). exists acc, [].
    split; [done|]. apply prefix_iff. exists "". by rewrite append_nil_r.
  - rewrite (proj2 (String.eqb_neq _ _) Hacc). destruct (Py.isspace x).
    + exists acc, (Py.split_ws_go "" rest). split; [done|].
      apply prefix_iff. exists "". by rewrite append_nil_r.
    + destruct (IH (Py.snoc acc x)) as (tok & l & -> & Hp).
      { unfold Py.snoc. by destruct acc. }
      exists tok, l. split; [done|].
      apply prefix_iff in Hp as [r ->]. apply prefix_iff.
      exists (String x r). by rewrite snoc_append.
Qed.

Lemma blank_word (w s post : string) :
  (" " +:+ w +:+ s) +:+ post = String " " (w +:+ (s +:+ post)).
Proof.
  change (" " +:+ w +:+ s) with (String " " (w +:+ s)).
  by rewrite append_cons, append_assoc.
Qed.

(** A word that follows a blank is the beginning of a token. *)
Lemma split_ws_token (word pre post : string) :
  word ≠ "" → no_space word = true →
  ∃ tok, tok ∈ Py.split_ws (pre +:+ String " " (word +:+ post)) ∧
         String.prefix word tok = true.
Proof.
  intros Hne Hns. unfold Py.split_ws.
  destruct (split_ws_go_skip "" pre (word +:+ post)) as [l ->].
  rewrite split_ws_go_word by done. rewrite append_nil_l.
  destruct (split_ws_go_head word post Hne) as (tok & l' & -> & Hp).
  exists tok. split; [|done]. apply elem_of_app. right. apply list_elem_of_here.
Qed.

Lemma split1_go_two sep acc s :
  has_char sep s = true → ∃ x y, Py.split1_go sep acc s = [x; y].
Proof.
  revert acc. induction s as [|c s IH]; intros acc; simpl; [done|].
  destruct (Ascii.eqb c sep); simpl; eauto.
Qed.

Lemma find_argline_found ds_id toks :
  (∃ tok, tok ∈ toks ∧ Py.startswith tok ds_id = true) →
  ∃ tok, Py.startswith tok ds_id = true ∧
         find_argline ds_id toks = Some (Py.split1 "=" tok).
Proof.
  unfold find_argline.
  assert (H : ∀ init,
    (∃ tok, Py.startswith tok ds_id = true ∧ init = Some (Py.split1 "=" tok)) ∨
    (∃ tok, tok ∈ toks ∧ Py.startswith tok ds_id = true) →
    ∃ tok, Py.startswith tok ds_id = true ∧
      foldl (λ argline tok, if Py.startswith tok ds_id
                            then Some (Py.split1 "=" tok) else argline) init toks
      = Some (Py.split1 "=" tok)).
  { induction toks as [|t toks IH]; intros init; simpl.
    - intros [?|(tok & Hin & _)]; [done|]. by apply elem_of_nil in Hin.
    - intros [(tok & Hp & ->)|(tok & Hin & Hp)].
      + apply IH. left. destruct (Py.startswith t ds_id) eqn:Et; eauto.
      + apply elem_of_cons in Hin as [->|Hin].
        * apply IH. left. rewrite Hp. eauto.
        * apply IH. right. eauto. }
  intros Hex. apply H. by right.
Qed.

Lemma parse_cmdline_data_some env (ds_id : string) (fill : dict)
    (cmdline : string) :
  has_char "=" ds_id = true → no_space ds_id = true →
  ∃ fill' b, parse_cmdline_data env ds_id fill (Some cmdline) = Ok (fill', b).
Proof.
  intros Heq Hns. unfold parse_cmdline_data.
  destruct (negb _) eqn:Ec; [eauto|].
  apply negb_false_iff, orb_true_iff in Ec.
  assert (Hne : ds_id ≠ "") by (by destruct ds_id).
  assert (Htok : ∃ tok, tok ∈ Py.split_ws (" " +:+ cmdline +:+ " ") ∧
                        Py.startswith tok ds_id = true).
  { destruct Ec as [Hc|Hc]; apply contains_split in Hc as (pre & post & Hs);
      rewrite Hs, blank_word; by apply split_ws_token. }
  destruct (find_argline_found ds_id _ Htok) as (tok & Hp & ->).
  apply prefix_iff in Hp as [r ->].
  destruct (split1_go_two "=" "" (ds_id +:+ r)) as (x & y & Hxy).
  { by apply has_char_append. }
  unfold Py.split1. rewrite Hxy. eauto.
Qed.

(** X1: [parse_cmdline_data] returns on every command line that it is
    given, for an id that has an equals sign and no white space (as
    [ds=nocloud] and [ds=nocloud-net] have): the token that its loop looks
    for is there whenever the test on the command line has passed, and it
    splits in two at its first equals sign, so that [argline[1]] exists.
    The flag returned says whether the id stands on the line as a word or
    before a semicolon, and [fill] is left alone when it does not. *)
Theorem parse_cmdline_data_returns env (ds_id : string) (fill : dict)
    (cmdline : string) :
  has_char "=" ds_id = true → no_space ds_id = true →
  ∃ fill' b, parse_cmdline_data env ds_id fill (Some cmdline) = Ok (fill', b) ∧
    b = (Py.contains (" " +:+ ds_id +:+ " ") (" " +:+ cmdline +:+ " ")
         || Py.contains (" " +:+ ds_id +:+ ";") (" " +:+ cmdline +:+ " ")) ∧
    (b = false → fill' = fill).
Proof.
  intros Heq Hns.
  destruct (parse_cmdline_data_some env ds_id fill cmdline Heq Hns)
    as (fill' & b & Hp).
  exists fill', b. split; [done|]. revert Hp. unfold parse_cmdline_data.
  destruct (_ || _); simpl.
  - destruct (find_argline _ _) as [[|? [|? ?]]|]; try done.
    by intros [= <- <-].
  - by intros [= <- <-].
Qed.

Lemma parse_cmdline_data_returns_witness :
  has_char "=" "ds=nocloud" = true ∧ no_space "ds=nocloud" = true ∧
  ∃ fill' b,
    parse_cmdline_data bare_env "ds=nocloud" ∅ (Some "ro ds=nocloud;i=iid-7")
      = Ok (fill', b) ∧
    b = (Py.contains (" " +:+ "ds=nocloud" +:+ " ")
           (" " +:+ "ro ds=nocloud;i=iid-7" +:+ " ")
         || Py.contains (" " +:+ "ds=nocloud" +:+ ";")
              (" " +:+ "ro ds=nocloud;i=iid-7" +:+ " ")) ∧
    (b = false → fill' = ∅).
Proof.
  split; [reflexivity|]. split; [reflexivity|].
  apply (parse_cmdline_data_returns bare_env "ds=nocloud" ∅ "ro ds=nocloud;i=iid-7");
    reflexivity.
Defined.

(** *** The values written by the parser *)

Lemma fill_kvpairs_str_or_none kvpairs (fill : dict) :
  map_Forall (λ _, str_or_none) fill →
  map_Forall (λ _, str_or_none) (fill_kvpairs kvpairs fill).
Proof.
  revert fill. induction kvpairs as [|item rest IH]; intros fill Hf; simpl; [done|].
  destruct (String.eqb item ""); [by apply IH|].
  destruct (Py.split1 "=" item) as [|k [|v [|? ?]]]; apply IH;
    by apply map_Forall_insert_2.
Qed.

Lemma parse_cmdline_data_str_or_none env ds_id (fill : dict) cmdline fill' b :
  parse_cmdline_data env ds_id fill cmdline = Ok (fill', b) →
  map_Forall (λ _, str_or_none) fill → map_Forall (λ _, str_or_none) fill'.
Proof.
  unfold parse_cmdline_data.
  destruct (match cmdline with Some c => Ok c | None => get_cmdline env end);
    [|done].
  destruct (negb _); [by intros [= <- <-]|].
  destruct (find_argline _ _) as [[|? [|? ?]]|]; try done.
  intros [= <- <-]. apply fill_kvpairs_str_or_none.
Qed.

Lemma set_cmdline_dsmode_some env (fill : dict) dsmode :
  map_Forall (λ _, str_or_none) fill →
  ∃ fill', set_cmdline_dsmode env fill dsmode = Ok fill' ∧
    map_Forall (λ _, str_or_none) fill'.
Proof.
  intros Hf. unfold set_cmdline_dsmode. case_decide; [eauto|].
  destruct (fill !! "seedfrom") as [v|] eqn:Hv.
  - pose proof (Hf _ _ Hv) as Hs. destruct v; try done; unfold truthy.
    + eexists. split; [done|]. by apply map_Forall_insert_2.
    + destruct (negb _);
        [|eexists; split; [done|]; by apply map_Forall_insert_2].
      destruct (startswith_any _ _);
        [eexists; split; [done|]; by apply map_Forall_insert_2|].
      destruct (startswith_any _ _); eexists; (split; [done|]);
        [by apply map_Forall_insert_2 | done].
  - eexists. split; [done|]. by apply map_Forall_insert_2.
Qed.

(** X2: [load_cmdline_data] returns on every command line that it is
    given, when [fill] holds strings and [None] only, as the empty [fill]
    of its callers does: [parse_cmdline_data] finds its token, and the
    [seedfrom] that it may have written is a string or [None], so that
    [seedfrom.startswith] is not reached with anything else.  The [fill]
    returned holds strings and [None] only. *)
Theorem load_cmdline_data_returns env (fill : dict) (cmdline : string) :
  map_Forall (λ _, str_or_none) fill →
  ∃ fill' b, load_cmdline_data env fill (Some cmdline) = Ok (fill', b) ∧
    map_Forall (λ _, str_or_none) fill'.
Proof.
  intros Hf. unfold load_cmdline_data. simpl.
  destruct (parse_cmdline_data_some env "ds=nocloud" fill cmdline)
    as (f1 & b1 & H1); [done..|].
  rewrite H1. pose proof (parse_cmdline_data_str_or_none _ _ _ _ _ _ H1 Hf) as Hf1.
  destruct b1.
  { destruct (set_cmdline_dsmode_some env f1 (DSMODE_LOCAL env) Hf1)
      as (f & -> & Hf'). eauto. }
  destruct (parse_cmdline_data_some env "ds=nocloud-net" f1 cmdline)
    as (f2 & b2 & H2); [done..|].
  rewrite H2. pose proof (parse_cmdline_data_str_or_none _ _ _ _ _ _ H2 Hf1) as Hf2.
  destruct b2; [|eauto].
  destruct (set_cmdline_dsmode_some env f2 (DSMODE_NETWORK env) Hf2)
    as (f & -> & Hf'). eauto.
Qed.

Lemma load_cmdline_data_returns_witness :
  map_Forall (λ _, str_or_none) (∅ : dict) ∧
  ∃ fill' b,
    load_cmdline_data bare_env ∅ (Some "ro ds=nocloud;s;h=box") = Ok (fill', b) ∧
    map_Forall (λ _, str_or_none) fill'.
Proof.
  split; [apply map_Forall_empty|].
  apply (load_cmdline_data_returns bare_env ∅ "ro ds=nocloud;s;h=box").
  apply map_Forall_empty.
Defined.

(** *** The key=value pairs *)

Lemma fill_kvpairs_app l1 l2 (fill : dict) :
  fill_kvpairs (l1 ++ l2) fill = fill_kvpairs l2 (fill_kvpairs l1 fill).
Proof.
  revert fill. induction l1 as [|item l1 IH]; intros fill; simpl; [done|].
  destruct (String.eqb item ""); [apply IH|].
  destruct (Py.split1 "=" item) as [|k [|v [|? ?]]]; apply IH.
Qed.

Lemma split1_go_sep sep acc k v :
  has_char sep k = false →
  Py.split1_go sep acc (k +:+ String sep v) = [acc +:+ k; v].
Proof.
  revert acc. induction k as [|x k IH]; intros acc.
  - intros _. rewrite append_nil_l, append_nil_r. simpl.
    by rewrite Ascii.eqb_refl.
  - rewrite append_cons. simpl. intros [Hx Hk]%orb_false_elim.
    rewrite Hx, IH by done. by rewrite snoc_append.
Qed.

(** X3: within one command line the pairs are applied from left to right,
    so that the last value given for a key is the one that [fill] holds,
    whatever came before; a short key [h], [i] or [s] writes the long key
    it stands for. *)
Theorem last_value_of_a_key_wins (pre : list string) (k v : string) (fill : dict) :
  has_char "=" k = false →
  fill_kvpairs (pre ++ [k +:+ String "=" v]) fill !! default k (s2l !! k)
    = Some (PStr v).
Proof.
  intros Hk. rewrite fill_kvpairs_app. simpl.
  replace (String.eqb (k +:+ String "=" v) "") with false
    by (by destruct k).
  unfold Py.split1. rewrite split1_go_sep by done. rewrite append_nil_l.
  apply lookup_insert_eq.
Qed.

Lemma last_value_of_a_key_wins_witness :
  has_char "=" "i" = false ∧
  fill_kvpairs (["i=first"; "instance-id=second"] ++ ["i" +:+ String "=" "third"]) ∅
    !! default "i" (s2l !! "i") = Some (PStr "third").
Proof.
  split; [reflexivity|].
  apply (last_value_of_a_key_wins ["i=first"; "instance-id=second"] "i" "third" ∅).
  reflexivity.
Defined.

(** *** The stage chosen from the seedfrom *)

(** X4: when [load_cmdline_data] says that the command line names
    NoCloud, [fill] has a [dsmode], unless it has a non-empty [seedfrom]
    that starts with none of the six schemes: then, and only then, the
    stage is left to the defaults of the caller. *)
Theorem load_cmdline_data_sets_dsmode env (fill : dict) cmdline (fill' : dict) :
  load_cmdline_data env fill cmdline = Ok (fill', true) →
  is_Some (fill' !! "dsmode") ∨
  ∃ s, fill' !! "seedfrom" = Some (PStr s) ∧ s ≠ "" ∧
       startswith_any s (net_seed_starts ++ local_seed_starts) = false.
Proof.
  assert (Hset : ∀ (f f' : dict) d, set_cmdline_dsmode env f d = Ok f' →
    is_Some (f' !! "dsmode") ∨
    ∃ s, f' !! "seedfrom" = Some (PStr s) ∧ s ≠ "" ∧
         startswith_any s (net_seed_starts ++ local_seed_starts) = false).
  { intros f f' d. unfold set_cmdline_dsmode. case_decide as Hd.
    { intros [= <-]. by left. }
    assert (Hins : ∀ x, is_Some (<["dsmode" := x]> f !! "dsmode")).
    { intros x. rewrite lookup_insert_eq. eauto. }
    destruct (f !! "seedfrom") as [v|] eqn:Hv; [|intros [= <-]; by left].
    destruct (truthy v) eqn:Ht; [|intros [= <-]; by left].
    destruct v as [| | |s| |]; try done.
    destruct (startswith_any s ["http://"; "https://"; "ftp://"; "ftps://"]) eqn:E1;
      [intros [= <-]; by left|].
    destruct (startswith_any s ["file://"; "/"]) eqn:E2;
      [intros [= <-]; by left|].
    intros [= <-]. right. exists s. split; [done|]. split.
    { intros ->. done. }
    unfold startswith_any in *. rewrite existsb_app.
    simpl in *. rewrite !orb_false_r in *.
    apply orb_false_elim in E2 as [E2 E3]. rewrite E1, E2, E3. done. }
  unfold load_cmdline_data. simpl.
  destruct (parse_cmdline_data env "ds=nocloud" fill cmdline) as [[f1 [|]]|]; [| |done].
  { destruct (set_cmdline_dsmode env f1 _) eqn:E; [|done].
    intros [= <-]. eauto. }
  destruct (parse_cmdline_data env "ds=nocloud-net" f1 cmdline) as [[f2 [|]]|];
    [|done..].
  destruct (set_cmdline_dsmode env f2 _) eqn:E; [|done].
  intros [= <-]. eauto.
Qed.

Lemma load_cmdline_data_sets_dsmode_witness :
  load_cmdline_data bare_env ∅ (Some "ro ds=nocloud;s=nfs://host/seed")
    = Ok ({[ "seedfrom" := PStr "nfs://host/seed" ]}, true) ∧
  (is_Some (({[ "seedfrom" := PStr "nfs://host/seed" ]} : dict) !! "dsmode") ∨
   ∃ s, ({[ "seedfrom" := PStr "nfs://host/seed" ]} : dict) !! "seedfrom"
          = Some (PStr s) ∧ s ≠ "" ∧
        startswith_any s (net_seed_starts ++ local_seed_starts) = false).
Proof.
  split; [by vm_compute|].
  apply (load_cmdline_data_sets_dsmode bare_env ∅
           (Some "ro ds=nocloud;s=nfs://host/seed")).
  by vm_compute.
Defined.

Lemma prefix_both p q s :
  Py.startswith s p = true → Py.startswith s q = true →
  Py.startswith p q = true ∨ Py.startswith q p = true.
Proof.
  unfold Py.startswith. revert p q. induction s as [|c s IH]; intros p q.
  - destruct p, q; simpl; try done; auto.
  - destruct p as [|a p], q as [|b q]; simpl; try done; auto.
    destruct (Ascii.ascii_dec a c) as [->|], (Ascii.ascii_dec b c) as [->|];
      try done.
    destruct (Ascii.ascii_dec c c); [|done]. apply IH.
Qed.

Lemma find_seed_proto_str s protos :
  find_seed_proto (PStr s) protos = Ok (List.find (Py.startswith s) protos).
Proof.
  induction protos as [|p protos IH]; simpl; [done|].
  by destruct (Py.startswith s p).
Qed.

Lemma find_none_existsb {A} (f : A → bool) l :
  List.find f l = None ↔ existsb f l = false.
Proof.
  induction l as [|x l IH]; simpl; [done|]. destruct (f x); simpl; [done|].
  apply IH.
Qed.

(** X5: the stage that [load_cmdline_data] derives from a [seedfrom]
    agrees with the class whose [_get_data] accepts that [seedfrom]: the
    network stage exactly for the seeds that the loop over
    [supported_seed_starts] of [DataSourceNoCloudNet] accepts, the local
    stage for those that the loop of [DataSourceNoCloud] accepts, and no
    class accepts a seed for which [fill] is left without [dsmode]; no
    seed is accepted by both classes. *)
Theorem seedfrom_stage_matches_class env (fill : dict) (s dflt seed_dir dsmode0 : string)
    (cfg : dict) :
  fill !! "dsmode" = None → fill !! "seedfrom" = Some (PStr s) → s ≠ "" →
  stage_agrees env fill s dflt
    (supported_seed_starts (DataSourceNoCloud__init__ seed_dir dsmode0 cfg))
    (supported_seed_starts (DataSourceNoCloudNet__init__ seed_dir dsmode0 cfg)).
Proof.
  intros Hd Hs Hne. unfold stage_agrees. rewrite !find_seed_proto_str.
  unfold set_cmdline_dsmode. rewrite decide_False by (rewrite Hd; by intros [? ?]).
  rewrite Hs. unfold truthy.
  rewrite (proj2 (String.eqb_neq s "") Hne). simpl negb. cbv iota.
  unfold startswith_any, local_seed_starts, net_seed_starts. simpl.
  rewrite !orb_false_r.
  destruct (Py.startswith s "http://") eqn:E1;
  destruct (Py.startswith s "https://") eqn:E2;
  destruct (Py.startswith s "ftp://") eqn:E3;
  destruct (Py.startswith s "ftps://") eqn:E4;
  destruct (Py.startswith s "/") eqn:E5;
  destruct (Py.startswith s "file://") eqn:E6; simpl;
  try (exfalso; by destruct (prefix_both _ _ _ E1 E5));
  try (exfalso; by destruct (prefix_both _ _ _ E2 E5));
  try (exfalso; by destruct (prefix_both _ _ _ E3 E5));
  try (exfalso; by destruct (prefix_both _ _ _ E4 E5));
  try (exfalso; by destruct (prefix_both _ _ _ E1 E6));
  try (exfalso; by destruct (prefix_both _ _ _ E2 E6));
  try (exfalso; by destruct (prefix_both _ _ _ E3 E6));
  try (exfalso; by destruct (prefix_both _ _ _ E4 E6));
  eauto 10.
Qed.

Lemma seedfrom_stage_matches_class_witness :
  stage_agrees bare_env {[ "seedfrom" := PStr "https://host/seed/" ]}
    "https://host/seed/" "local"
    (supported_seed_starts (DataSourceNoCloud__init__ "/var/lib/cloud/seed" "net" ∅))
    (supported_seed_starts (DataSourceNoCloudNet__init__ "/var/lib/cloud/seed" "net" ∅)).
Proof.
  apply (seedfrom_stage_matches_class bare_env
           {[ "seedfrom" := PStr "https://host/seed/" ]} "https://host/seed/");
    [reflexivity | reflexivity | discriminate].
Defined.

(** *** The seedfrom of a resolution *)

Lemma find_seed_proto_none s protos :
  startswith_any s protos = false → find_seed_proto (PStr s) protos = Ok None.
Proof.
  intros H. rewrite find_seed_proto_str. f_equal. by apply find_none_existsb.
Qed.

Lemma gather_self env ds a st1 :
  gather env {| self := ds; trace := [] |} = (Next a, st1) →
  self st1 = ds ∧ Forall is_merge (trace st1).
Proof.
  intros Hg. destruct (merges_only_gather env _ _ _ Hg) as (_ & Hs & l & Ht & Hl).
  split; [done|]. by rewrite Ht.
Qed.

(** X6: a [seedfrom] that starts with none of the schemes of the class
    ends the resolution with [False] although seed sources were found:
    the object is left as it was and dsmode is not computed.  The
    [seedfrom] may come from any of the sources gathered. *)
Theorem unusable_seedfrom_is_not_found env ds (a : acc) st1 (s : string) :
  gather env {| self := ds; trace := [] |} = (Next a, st1) →
  a.2 ≠ [] →
  meta_data a.1 !! "seedfrom" = Some (PStr s) →
  startswith_any s (supported_seed_starts ds) = false →
  _get_data env ds = (Ok false, st1) ∧ self st1 = ds ∧
  dsmode_count (trace st1) = 0.
Proof.
  intros Hg Hf Hs Hu. destruct (gather_self _ _ _ _ Hg) as [Hself Htr].
  rewrite get_data_unfold, Hg, finish_unfold, decide_False by done.
  unfold load_seedfrom. rewrite Hs. unfold bind at 1. unfold get_self at 1.
  rewrite Hself, (find_seed_proto_none _ _ Hu). simpl.
  split; [done|]. split; [done|]. by apply dsmode_count_merges.
Qed.

Lemma unusable_seedfrom_is_not_found_witness :
  let env := example_env None "ro ds=nocloud;s=https://host/seed/" no_dir []
               no_volume no_url in
  ∃ st1, _get_data env ds0 = (Ok false, st1) ∧ self st1 = ds0 ∧
         dsmode_count (trace st1) = 0.
Proof.
  intros env. eexists.
  eapply (unusable_seedfrom_is_not_found env ds0 _ _ "https://host/seed/").
  - vm_compute. reflexivity.
  - discriminate.
  - vm_compute. reflexivity.
  - reflexivity.
Defined.

(** X7: a [seedfrom] that is not a string makes [_get_data] raise
    [AttributeError], where an unusable string makes it return [False]:
    the loop over the schemes calls [seedfrom.startswith].  The kernel
    command line [ds=nocloud;s] gives such a [seedfrom]: a key without a
    value is stored as [None]. *)
Theorem seedfrom_without_value_raises env ds (a : acc) st1 (v : pyval) :
  gather env {| self := ds; trace := [] |} = (Next a, st1) →
  a.2 ≠ [] →
  meta_data a.1 !! "seedfrom" = Some v →
  (∀ s, v ≠ PStr s) →
  supported_seed_starts ds ≠ [] →
  _get_data env ds = (Err AttributeError, st1) ∧ self st1 = ds.
Proof.
  intros Hg Hf Hs Hv Hp. destruct (gather_self _ _ _ _ Hg) as [Hself Htr].
  rewrite get_data_unfold, Hg, finish_unfold, decide_False by done.
  unfold load_seedfrom. rewrite Hs. unfold bind at 1. unfold get_self at 1.
  rewrite Hself. destruct (supported_seed_starts ds) as [|p ps]; [done|].
  destruct v; try done. by destruct (Hv s).
Qed.

Lemma seedfrom_without_value_raises_witness :
  let env := example_env None "ro ds=nocloud;s" no_dir [] no_volume no_url in
  ∃ st1, _get_data env ds0 = (Err AttributeError, st1) ∧ self st1 = ds0.
Proof.
  intros env. eexists.
  eapply (seedfrom_without_value_raises env ds0 _ _ PNone).
  - vm_compute. reflexivity.
  - discriminate.
  - vm_compute. reflexivity.
  - discriminate.
  - discriminate.
Defined.

(** X8: when the DMI serial number cannot be read, or when it names no
    seed and the kernel command line cannot be read, [_get_data] returns
    [False] at once: the exception is swallowed, no other source is
    consulted, nothing is merged and the object is left as it was. *)
Theorem unreadable_serial_or_cmdline_is_not_found env ds (e : exn) :
  read_dmi_data env "system-serial-number" = Err e ∨
  (dmi_silent env ∧ get_cmdline env = Err e) →
  _get_data env ds = (Ok false, {| self := ds; trace := [] |}).
Proof.
  intros H. rewrite get_data_unfold. unfold gather.
  unfold bind at 1. unfold get_self at 1. unfold bind at 1.
  destruct H as [Hd|[Hd Hc]].
  - unfold load_dmi, try_except. unfold bind at 1. by rewrite Hd.
  - rewrite load_dmi_silent by done. unfold bind at 1.
    unfold load_cmdline, try_except. unfold bind at 1.
    unfold load_cmdline_data. simpl. unfold parse_cmdline_data at 1.
    by rewrite Hc.
Qed.

Lemma unreadable_serial_or_cmdline_is_not_found_witness :
  let env := {| DSMODE_LOCAL := "local"; DSMODE_NETWORK := "net";
                DSMODE_DISABLED := "disabled";
                read_dmi_data := fun _ => Ok None;
                get_cmdline := Err (OSError 13);
                pathprefix2dict := fun _ => Ok volume_seed;
                find_devs_with := find_devs_with_in four_devices;
                mount_cb := fun _ => Ok volume_seed;
                sub_dmi_vars := fun s => s;
                read_seeded := no_url;
                load_yaml := example_load_yaml;
                _determine_dsmode := example_determine_dsmode |} in
  _get_data env ds0 = (Ok false, {| self := ds0; trace := [] |}).
Proof.
  intros env.
  apply (unreadable_serial_or_cmdline_is_not_found env ds0 (OSError 13)).
  right. split; [exact I | reflexivity].
Defined.

(** *** What the loaders add *)

Section yields.
Context (env : Env).

Lemma yields_ret {A} (P : A → Prop) a : P a → yields P (ret a).
Proof. intros H st a' st' [= <- <-]. done. Qed.
Lemma yields_raise {A} (P : A → Prop) e : yields P (raise e).
Proof. intros st a' st'. done. Qed.
Lemma yields_return {A} (P : A → Prop) b : yields P (return_ b).
Proof. intros st a' st'. done. Qed.
Lemma yields_bind {A B} (P : A → Prop) (Q : B → Prop) (m : M A) (k : A → M B) :
  yields P m → (∀ a, P a → yields Q (k a)) → yields Q (bind m k).
Proof.
  intros Hm Hk st b st'. unfold bind.
  destruct (m st) as [[a| |] st1] eqn:E; [|done..].
  apply (Hk a). by eapply Hm.
Qed.
Lemma yields_bind_any {A B} (Q : B → Prop) (m : M A) (k : A → M B) :
  (∀ a, yields Q (k a)) → yields Q (bind m k).
Proof.
  intros Hk. apply (yields_bind (λ _, True)); [done|]. intros a _. apply Hk.
Qed.
Lemma yields_try {A} (P : A → Prop) (m : M A) h :
  yields P m → (∀ e h', h e = Some h' → yields P h') → yields P (try_except m h).
Proof.
  intros Hm Hh st a st'. unfold try_except.
  destruct (m st) as [[a'| |e] st1] eqn:E; [| done |].
  - intros [= <- <-]. by eapply Hm.
  - destruct (h e) as [h'|] eqn:Eh; [|done]. by eapply Hh.
Qed.
Lemma yields_mono {A} (P Q : A → Prop) (m : M A) :
  (∀ a, P a → Q a) → yields P m → yields Q m.
Proof. intros HPQ Hm st a st' E. apply HPQ. by eapply Hm. Qed.

Lemma extends_refl a : extends a a.
Proof. split; [done|]. auto. Qed.
Lemma extends_trans a b c : extends a b → extends b c → extends a c.
Proof.
  intros [H1 K1] [H2 K2]. split; [by etrans|]. auto.
Qed.
Lemma extends_found (a : acc) (m : mydata) (l : list string) :
  keeps_keys (meta_data a.1) (meta_data m) → extends a (m, (a.2 ++ l)%list).
Proof. intros Hk. split; [by apply prefix_app_r|]. intros k v _. apply Hk. Qed.

Lemma yields_merge_new_seed cur seeded :
  yields (λ m, keeps_keys (meta_data cur) (meta_data m))
    (_merge_new_seed env cur seeded).
Proof.
  intros st m st' E. destruct (merge_new_seed_run env _ _ _ _ _ E) as (newmd & _ & ->).
  intros k v Hk. by apply lookup_union_Some_l.
Qed.

Lemma yields_merge_then (a : acc) seeded (l : list string) :
  yields (extends a)
    (m <- _merge_new_seed env a.1 seeded ;; ret (m, (a.2 ++ l)%list)).
Proof.
  eapply yields_bind; [apply yields_merge_new_seed|].
  intros m Hm. apply yields_ret. by apply extends_found.
Qed.

Lemma yields_load_dmi a : yields (extends a) (load_dmi env a).
Proof.
  unfold load_dmi. apply yields_try.
  - apply yields_bind_any. intros [s|]; [|apply yields_ret, extends_refl].
    destruct (String.eqb s ""); [apply yields_ret, extends_refl|].
    apply yields_bind_any. intros r.
    destruct r.2; [apply yields_merge_then | apply yields_ret, extends_refl].
  - intros e h' [= <-]. apply yields_return.
Qed.

Lemma yields_load_cmdline a : yields (extends a) (load_cmdline env a).
Proof.
  unfold load_cmdline. apply yields_try.
  - apply yields_bind_any. intros r.
    destruct r.2; [apply yields_merge_then | apply yields_ret, extends_refl].
  - intros e h' [= <-]. apply yields_return.
Qed.

Lemma yields_load_seed_dirs paths a : yields (extends a) (load_seed_dirs env paths a).
Proof.
  revert a. induction paths as [|p paths IH]; intros a; simpl;
    [apply yields_ret, extends_refl|].
  destruct (pathprefix2dict env p) as [seeded|e].
  - apply yields_try; [apply yields_merge_then|].
    intros e h'. destruct e; intros [= <-].
    eapply yields_mono; [|apply IH]. intros a'. apply extends_trans.
    split; [by apply prefix_app_r | auto].
  - destruct e; try apply yields_raise. apply IH.
Qed.

Lemma yields_load_ds_cfg_seedfrom cfg a : yields (extends a) (load_ds_cfg_seedfrom cfg a).
Proof.
  unfold load_ds_cfg_seedfrom.
  destruct (cfg !! "seedfrom") as [v|]; [|apply yields_ret, extends_refl].
  destruct (truthy v); [|apply yields_ret, extends_refl].
  apply yields_ret. split; [by apply prefix_app_r|]. simpl.
  intros k w Hk Hw. by rewrite lookup_insert_ne.
Qed.

Lemma yields_load_ds_cfg cfg a : yields (extends a) (load_ds_cfg env cfg a).
Proof.
  unfold load_ds_cfg. case_decide; [apply yields_merge_then|].
  apply yields_ret, extends_refl.
Qed.

Lemma yields_load_devices devs a : yields (extends a) (load_devices env devs a).
Proof.
  revert a. induction devs as [|d devs IH]; intros a; simpl;
    [apply yields_ret, extends_refl|].
  assert (Ht : ∀ r : res dict, yields (extends a)
    (try_except (seeded <- lift r;; m <- _merge_new_seed env a.1 seeded;; ret (m, (a.2 ++ [d])%list))
       (λ e, match e with
             | OSError errno => if decide (errno = ENOENT) then Some (load_devices env devs a) else None
             | MountFailedError => Some (load_devices env devs a)
             | _ => None
             end))).
  { intros r. apply yields_try.
    - apply yields_bind_any. intros seeded. apply yields_merge_then.
    - intros e h'. destruct e; try done.
      + case_decide; [|done]. intros [= <-]. apply IH.
      + intros [= <-]. apply IH. }
  destruct (mount_cb env d) as [seeded|e]; [exact (Ht (Ok seeded))|].
  destruct e; try exact (Ht (Err _)). apply IH.
Qed.

Lemma yields_load_labelled cfg a : yields (extends a) (load_labelled env cfg a).
Proof.
  unfold load_labelled. destruct (default _ _);
    try apply yields_raise; [apply yields_ret, extends_refl|].
  apply yields_load_devices.
Qed.

Lemma yields_load_seedfrom a : yields (extends a) (load_seedfrom env a).
Proof.
  intros st a' st' E. split.
  - revert E. unfold load_seedfrom.
    destruct (meta_data a.1 !! "seedfrom") as [v|]; [|by intros [= <- <-]].
    unfold bind at 1. unfold get_self at 1. unfold bind at 1.
    destruct (find_seed_proto _ _); simpl; [|done].
    destruct (negb _); [done|]. destruct v; try done.
    unfold bind at 1. destruct (read_seeded env _) as [[[[? ?] ?] ?]|]; simpl; [|done].
    unfold bind at 1. rewrite mergemanydict_run. intros [= <- <-]. simpl.
    by apply prefix_app_r.
  - intros k v _ Hk. pose proof (load_seedfrom_grows env _ _ _ _ E) as Hsub.
    by eapply lookup_weaken.
Qed.

End yields.

(** *** The list [found] and the seed *)

(** X9: every loader of the resolver, and the seedfrom layer, only adds
    to the end of [found]: no entry is removed or moved, so that the
    first source found stays first in [self.seed]. *)
Theorem found_only_grows env ds (a a' : acc) st st' :
  load_dmi env a st = (Next a', st') ∨
  load_cmdline env a st = (Next a', st') ∨
  load_seed_dirs env (seed_dirs ds) a st = (Next a', st') ∨
  load_ds_cfg_seedfrom (ds_cfg ds) a st = (Next a', st') ∨
  load_ds_cfg env (ds_cfg ds) a st = (Next a', st') ∨
  load_labelled env (ds_cfg ds) a st = (Next a', st') ∨
  load_seedfrom env a st = (Next a', st') →
  a.2 `prefix_of` a'.2.
Proof.
  intros [H|[H|[H|[H|[H|[H|H]]]]]].
  - by destruct (yields_load_dmi env a _ _ _ H).
  - by destruct (yields_load_cmdline env a _ _ _ H).
  - by destruct (yields_load_seed_dirs env _ a _ _ _ H).
  - by destruct (yields_load_ds_cfg_seedfrom _ a _ _ _ H).
  - by destruct (yields_load_ds_cfg env _ a _ _ _ H).
  - by destruct (yields_load_labelled env _ a _ _ _ H).
  - by destruct (yields_load_seedfrom env a _ _ _ H).
Qed.

Lemma found_only_grows_witness :
  (["cmdline"] : list string) `prefix_of` ["cmdline"; "/dev/sr0"].
Proof.
  apply (found_only_grows cmdline_and_volume_env ds0
           ({| meta_data := {[ "instance-id" := PStr "iid-7"; "dsmode" := PStr "local" ]};
               user_data := PStr ""; vendor_data := PStr "";
               network_config := PNone |}, ["cmdline"])
           ({| meta_data := {[ "instance-id" := PStr "iid-7"; "dsmode" := PStr "local" ]};
               user_data := PStr "#cloud-config"; vendor_data := PStr "";
               network_config := PNone |}, ["cmdline"; "/dev/sr0"])
           {| self := ds0; trace := [] |}
           {| self := ds0;
              trace := [EvMerge [Some {[ "instance-id" := PStr "iid-7";
                                         "dsmode" := PStr "local" ]};
                                 Some {[ "instance-id" := PStr "abc" ]}]] |}).
  do 5 right. left. by vm_compute.
Defined.

(** A run of [_get_data] that returns [True]. *)
Lemma get_data_true env ds st :
  _get_data env ds = (Ok true, st) →
  ∃ a0 st0 a st1,
    gather env {| self := ds; trace := [] |} = (Next a0, st0) ∧
    a0.2 ≠ [] ∧
    load_seedfrom env a0 st0 = (Next a, st1) ∧
    seed (self st) = Some (Py.join "," a.2) ∧
    metadata (self st) = meta_data a.1 ∪ defaults ds.
Proof.
  rewrite get_data_unfold.
  destruct (gather env _) as [[a0|b|e] st0] eqn:Eg; [| |done].
  2:{ intros [= -> <-].
      by destruct (merges_only_gather env _ _ _ Eg) as (Hr & _). }
  destruct (gather_self _ _ _ _ Eg) as [Hself _].
  rewrite finish_unfold. case_decide as Hf; [done|].
  destruct (load_seedfrom env a0 st0) as [[a|b|e] st1] eqn:El; [| |done].
  2:{ intros [= -> <-].
      by destruct (merges_only_load_seedfrom env _ _ _ _ El) as (Hr & _). }
  destruct (merges_only_load_seedfrom env _ _ _ _ El) as (_ & Hs1 & _).
  unfold resolve_dsmode. destruct (String.eqb _ _); [done|].
  intros [= <-]. exists a0, st0, a, st1. simpl.
  do 4 (split; [done|]). done.
Qed.

Lemma gather_split env st a st' :
  gather env st = (Next a, st') →
  ∃ a1 st1 a2 st2,
    load_dmi env (mydata0, []) st = (Next a1, st1) ∧
    load_cmdline env a1 st1 = (Next a2, st2) ∧
    extends a2 a.
Proof.
  unfold gather. unfold bind at 1. unfold get_self at 1.
  unfold bind at 1.
  destruct (load_dmi env _ st) as [[a1| |] st1] eqn:E1; [|done..].
  unfold bind at 1.
  destruct (load_cmdline env a1 st1) as [[a2| |] st2] eqn:E2; [|done..].
  unfold bind at 1.
  destruct (load_seed_dirs env _ a2 st2) as [[a3| |] st3] eqn:E3; [|done..].
  unfold bind at 1.
  destruct (load_ds_cfg_seedfrom _ a3 st3) as [[a4| |] st4] eqn:E4; [|done..].
  unfold bind at 1.
  destruct (load_ds_cfg env _ a4 st4) as [[a5| |] st5] eqn:E5; [|done..].
  intros E6. exists a1, st1, a2, st2. do 2 (split; [done|]).
  eapply extends_trans; [by eapply yields_load_seed_dirs|].
  eapply extends_trans; [by eapply yields_load_ds_cfg_seedfrom|].
  eapply extends_trans; [by eapply yields_load_ds_cfg|].
  by eapply yields_load_labelled.
Qed.

Lemma load_dmi_found env st a1 st1 :
  load_dmi env (mydata0, []) st = (Next a1, st1) →
  a1 = (mydata0, []) ∨ a1.2 = ["dmi"].
Proof.
  unfold load_dmi, try_except. unfold bind at 1.
  destruct (read_dmi_data env _) as [[s|]|e]; simpl; [| |done].
  2:{ intros [= <- <-]. by left. }
  destruct (String.eqb s ""); [intros [= <- <-]; by left|].
  unfold bind at 1. destruct (load_cmdline_data env ∅ (Some s)) as [[f b]|]; simpl;
    [|done].
  destruct b; [|intros [= <- <-]; by left].
  unfold bind at 1. destruct (_merge_new_seed env _ _ _) as [[m| |] st2]; [|done..].
  intros [= <- <-]. by right.
Qed.

Lemma load_cmdline_hit env fill a1 st1 a2 st2 :
  load_cmdline_data env ∅ None = Ok (fill, true) →
  load_cmdline env a1 st1 = (Next a2, st2) →
  a2.2 = (a1.2 ++ ["cmdline"])%list ∧ meta_data a2.1 = meta_data a1.1 ∪ fill.
Proof.
  intros Hc. unfold load_cmdline, try_except. unfold bind at 1. rewrite Hc. simpl.
  unfold bind at 1.
  destruct (_merge_new_seed env _ _ _) as [[m| |] st3] eqn:Em; [|done..].
  intros [= <- <-]. split; [done|]. simpl.
  destruct (merge_new_seed_run env _ _ _ _ _ Em) as (newmd & Hn & ->).
  unfold seed_metadata in Hn. rewrite lookup_singleton_eq in Hn.
  by injection Hn as <-.
Qed.

Lemma join_cons sep h t : ∃ r, Py.join sep (h :: t) = h +:+ r.
Proof.
  unfold Py.join. destruct t; simpl; [|eauto].
  exists "". by rewrite append_nil_r.
Qed.

Lemma prefix_of_head (h : string) l l' :
  (h :: l) `prefix_of` l' → ∃ t, l' = h :: t.
Proof. intros [k ->]. eauto. Qed.

(** X10: after [_get_data] has returned [True], [self.seed] is the
    non-empty list [found] joined by commas, so that [_get_subplatform],
    which fails on a fresh object whose [seed] is [None], returns; it
    says [config-disk] when that string starts with [/dev], that is when
    the first source found is a device. *)
Theorem subplatform_after_get_data env ds st :
  _get_data env ds = (Ok true, st) →
  ∃ found, found ≠ [] ∧ seed (self st) = Some (Py.join "," found) ∧
    _get_subplatform (self st) =
      Ok ((if Py.startswith (Py.join "," found) "/dev"
           then "config-disk" else "seed-dir")
          +:+ " (" +:+ Py.join "," found +:+ ")").
Proof.
  intros H. destruct (get_data_true _ _ _ H)
    as (a0 & st0 & a & st1 & Hg & Hf & Hl & Hseed & _).
  exists a.2. split.
  - destruct (yields_load_seedfrom env a0 _ _ _ Hl) as [[k Hk] _].
    rewrite Hk. by destruct a0.2.
  - split; [done|]. unfold _get_subplatform. by rewrite Hseed.
Qed.

Lemma subplatform_after_get_data_witness :
  ∃ found, found ≠ [] ∧
    seed (self (_get_data volume_env ds0).2) = Some (Py.join "," found) ∧
    _get_subplatform (self (_get_data volume_env ds0).2) =
      Ok ((if Py.startswith (Py.join "," found) "/dev"
           then "config-disk" else "seed-dir")
          +:+ " (" +:+ Py.join "," found +:+ ")").
Proof.
  apply (subplatform_after_get_data volume_env ds0 (_get_data volume_env ds0).2).
  by vm_compute.
Defined.

(** X11: when the kernel command line names NoCloud, the subplatform of a
    claimed datasource is [seed-dir], whatever else supplied the seed: the
    list [found] then begins with [dmi] or [cmdline], and a labelled
    volume that is found afterwards comes later in [self.seed]. *)
Theorem cmdline_hit_is_seed_dir env ds (fill : dict) st :
  load_cmdline_data env ∅ None = Ok (fill, true) →
  _get_data env ds = (Ok true, st) →
  ∃ s, seed (self st) = Some s ∧
       _get_subplatform (self st) = Ok ("seed-dir (" +:+ s +:+ ")").
Proof.
  intros Hc H. destruct (get_data_true _ _ _ H)
    as (a0 & st0 & a & st1 & Hg & Hf & Hl & Hseed & _).
  destruct (gather_split _ _ _ _ Hg) as (a1 & s1 & a2 & s2 & Hd & Hcm & [Hp _]).
  destruct (load_cmdline_hit _ _ _ _ _ _ Hc Hcm) as [Hf2 _].
  destruct (yields_load_seedfrom env a0 _ _ _ Hl) as [Hp' _].
  assert (Hpre : a2.2 `prefix_of` a.2) by (by etrans).
  exists (Py.join "," a.2). split; [done|].
  unfold _get_subplatform. rewrite Hseed.
  assert (Hh : ∃ h t, a.2 = h :: t ∧ (h = "dmi" ∨ h = "cmdline")).
  { rewrite Hf2 in Hpre. destruct (load_dmi_found _ _ _ _ Hd) as [->|Hd1].
    - simpl in Hpre. destruct (prefix_of_head _ _ _ Hpre) as [t ->]. eauto.
    - rewrite Hd1 in Hpre. simpl in Hpre.
      destruct (prefix_of_head _ _ _ Hpre) as [t ->]. eauto. }
  destruct Hh as (h & t & -> & Hh). destruct (join_cons "," h t) as [r ->].
  by destruct Hh as [-> | ->].
Qed.

Lemma cmdline_hit_is_seed_dir_witness :
  ∃ s, seed (self (_get_data cmdline_and_volume_env ds0).2) = Some s ∧
       _get_subplatform (self (_get_data cmdline_and_volume_env ds0).2)
         = Ok ("seed-dir (" +:+ s +:+ ")").
Proof.
  apply (cmdline_hit_is_seed_dir cmdline_and_volume_env ds0
           {[ "instance-id" := PStr "iid-7"; "dsmode" := PStr "local" ]}
           (_get_data cmdline_and_volume_env ds0).2).
  - by vm_compute.
  - by vm_compute.
Defined.

(** *** The labelled volumes *)

Lemma load_devices_skip env pre devs a st :
  Forall (volume_silent env) pre →
  load_devices env (pre ++ devs) a st = load_devices env devs a st.
Proof.
  induction 1 as [|d pre Hd _ IH]; simpl; [done|].
  destruct Hd as [-> | [-> | ->]]; [done| |]; unfold try_except; simpl.
  - done.
  - done.
Qed.

(** X12: the loop over the labelled volumes stops at the first volume
    that holds a valid seed: volumes that are not a seed, are absent or
    fail to mount are passed over, the seed is merged, the device is
    added to [found], and whatever volumes come after it are not used. *)
Theorem first_valid_volume_is_used env (pre rest : list string) (dev : string)
    (a : acc) st (seeded : dict) (m : mydata) st' :
  Forall (volume_silent env) pre →
  mount_cb env dev = Ok seeded →
  _merge_new_seed env a.1 seeded st = (Next m, st') →
  load_devices env (pre ++ dev :: rest) a st = (Next (m, (a.2 ++ [dev])%list), st').
Proof.
  intros Hpre Hm He. rewrite load_devices_skip by done. simpl. rewrite Hm.
  unfold try_except. unfold bind at 1. simpl. unfold bind at 1. by rewrite He.
Qed.

Lemma first_valid_volume_is_used_witness :
  load_devices volume_env (["/dev/sdb"] ++ "/dev/sr0" :: ["/dev/sdd"])
    (mydata0, []) {| self := ds0; trace := [] |}
  = (Next ({| meta_data := {[ "instance-id" := PStr "abc" ]};
              user_data := PStr "#cloud-config"; vendor_data := PStr "";
              network_config := PNone |}, ([] ++ ["/dev/sr0"])%list),
     {| self := ds0;
        trace := [EvMerge [Some ∅; Some {[ "instance-id" := PStr "abc" ]}]] |}).
Proof.
  apply (first_valid_volume_is_used volume_env ["/dev/sdb"] ["/dev/sdd"] "/dev/sr0"
           (mydata0, []) {| self := ds0; trace := [] |} volume_seed).
  - constructor; [right; right; reflexivity | constructor].
  - reflexivity.
  - by vm_compute.
Defined.

(** X13: when no other source gives a seed, an [OSError] other than
    [ENOENT] raised while a labelled volume is mounted leaves
    [_get_data]: it is not turned into [False], and the volumes that come
    after it are not tried. *)
Theorem volume_error_leaves_get_data env ds (label : string)
    (pre rest : list string) (dev : string) (errno : Z) :
  dmi_silent env → cmdline_silent env → seed_dirs_silent env ds →
  ds_cfg_silent ds →
  default (PStr "cidata") (ds_cfg ds !! "fs_label") = PStr label →
  _get_devices env label = (pre ++ dev :: rest)%list →
  Forall (volume_silent env) pre →
  mount_cb env dev = Err (OSError errno) → errno ≠ ENOENT →
  _get_data env ds = (Err (OSError errno), {| self := ds; trace := [] |}).
Proof.
  intros Hd Hc Hs Hcfg Hl Hdevs Hpre Hm He.
  rewrite get_data_unfold. unfold gather.
  unfold bind at 1. unfold get_self at 1. simpl self.
  unfold bind at 1. rewrite load_dmi_silent by done.
  unfold bind at 1. rewrite load_cmdline_silent by done.
  unfold bind at 1. rewrite load_seed_dirs_silent by done.
  unfold bind at 1. rewrite load_ds_cfg_seedfrom_silent by done.
  unfold bind at 1. rewrite load_ds_cfg_silent by done.
  unfold load_labelled. rewrite Hl, Hdevs, load_devices_skip by done.
  simpl. rewrite Hm. unfold try_except. simpl. by rewrite decide_False.
Qed.

Lemma volume_error_leaves_get_data_witness :
  let env := example_env None "ro" no_dir four_devices
               (fun dev => if String.eqb dev "/dev/sdd" then Err (OSError 5)
                           else if String.eqb dev "/dev/sr0" then Err MountFailedError
                           else Ok volume_seed)
               no_url in
  _get_data env ds0 = (Err (OSError 5), {| self := ds0; trace := [] |}).
Proof.
  intros env.
  apply (volume_error_leaves_get_data env ds0 "cidata" ["/dev/sr0"] ["/dev/sdb"]
           "/dev/sdd" 5).
  - exact I.
  - by exists ∅.
  - repeat constructor.
  - split; [exact I|]. intros [[? H] _]. by vm_compute in H.
  - reflexivity.
  - by vm_compute.
  - constructor; [right; right; reflexivity | constructor].
  - reflexivity.
  - discriminate.
Defined.

(** *** The network configuration *)

(** X14: the property [network_config] converts the ENI configuration
    only when there is no structured one, with one deprecation notice,
    and keeps what it has converted: a second access returns the same
    value from the object, without converting or logging again. *)
Theorem network_config_is_converted_once (convert_eni_data : pyval → res pyval)
    (ds ds' : DataSourceNoCloud) (v : pyval) (calls : list nc_call) :
  network_config_property convert_eni_data ds = (Ok v, ds', calls) →
  v ≠ PNone →
  (calls = [] ∨
   _network_config ds = PNone ∧
   calls = [CallDeprecate; CallConvertEni (_network_eni ds)]) ∧
  network_config_property convert_eni_data ds' = (Ok v, ds', []).
Proof.
  unfold network_config_property.
  destruct (_network_config ds) as [| | | | |] eqn:Hc;
    try (intros [= <- <- <-] _; split; [by left|]; by rewrite Hc).
  destruct (_network_eni ds) as [| | | | |] eqn:He;
    try (intros [= <- <- <-] Hv; done);
    (destruct (convert_eni_data _) as [w|]; [|done];
     intros [= <- <- <-] Hv; split; [by right|]; simpl; by destruct w).
Qed.

Lemma network_config_is_converted_once_witness :
  let ds := {| seed := Some "cmdline"; seed_dirs := []; supported_seed_starts := [];
               dsmode := "local"; ds_cfg := ∅; metadata := ∅;
               userdata_raw := PStr ""; vendordata_raw := PStr "";
               _network_config := PNone;
               _network_eni := PStr "auto eth0" |} in
  let convert := fun _ : pyval => Ok (PDict {[ "version" := PInt 1 ]}) in
  let v := PDict {[ "version" := PInt 1 ]} in
  (([CallDeprecate; CallConvertEni (PStr "auto eth0")] = [] ∨
    _network_config ds = PNone ∧
    [CallDeprecate; CallConvertEni (PStr "auto eth0")]
      = [CallDeprecate; CallConvertEni (_network_eni ds)]) ∧
   network_config_property convert (set_network_config ds v)
     = (Ok v, set_network_config ds v, [])).
Proof.
  intros ds convert v.
  apply (network_config_is_converted_once convert ds (set_network_config ds v) v
           [CallDeprecate; CallConvertEni (PStr "auto eth0")]).
  - reflexivity.
  - discriminate.
Defined.

(** *** The instance id *)

(** X15: when the kernel command line names NoCloud and gives a
    non-empty instance id, [check_instance_id] answers from the command
    line alone: [True] when that id is the current instance id and
    [False] when it is another one, whatever the seed directories hold;
    they are not read. *)
Theorem check_instance_id_prefers_cmdline env
    (pathprefix2dict_meta : string → res dict)
    (get_instance_id : DataSourceNoCloud → string)
    ds (fill : dict) (iid : string) :
  load_cmdline_data env ∅ None = Ok (fill, true) →
  fill !! "instance-id" = Some (PStr iid) → iid ≠ "" →
  get_instance_id ds ≠ "" →
  check_instance_id env pathprefix2dict_meta get_instance_id ds
    = Ok (Some (String.eqb iid (get_instance_id ds))) ∧
  _quick_read_instance_id env pathprefix2dict_meta (Some <$> seed_dirs ds)
    = Ok (PStr iid).
Proof.
  intros Hc Hi Hne Hcur.
  assert (Hq : ∀ dirs, _quick_read_instance_id env pathprefix2dict_meta dirs
                       = Ok (PStr iid)).
  { intros dirs. unfold _quick_read_instance_id. by rewrite Hc, Hi. }
  split; [|apply Hq].
  unfold check_instance_id.
  rewrite (proj2 (String.eqb_neq (get_instance_id ds) "") Hcur), Hq. simpl.
  by rewrite (proj2 (String.eqb_neq iid "") Hne).
Qed.

(** The command line names [iid-7]; the seed directories, which would
    give [abc], are not asked, and an object whose instance id is another
    one gets [False]. *)
Lemma check_instance_id_prefers_cmdline_witness :
  let pp := fun _ : string => Ok volume_seed in
  let ds := claim ds0 ["/dev/sr0"]
              {| meta_data := {[ "instance-id" := PStr "abc" ]};
                 user_data := PStr ""; vendor_data := PStr "";
                 network_config := PNone |} in
  check_instance_id cmdline_and_volume_env pp example_get_instance_id ds
    = Ok (Some (String.eqb "iid-7" (example_get_instance_id ds))) ∧
  _quick_read_instance_id cmdline_and_volume_env pp (Some <$> seed_dirs ds)
    = Ok (PStr "iid-7") ∧
  String.eqb "iid-7" (example_get_instance_id ds) = false.
Proof.
  intros pp ds.
  destruct (check_instance_id_prefers_cmdline cmdline_and_volume_env pp
              example_get_instance_id ds
              {[ "instance-id" := PStr "iid-7"; "dsmode" := PStr "local" ]} "iid-7")
    as [H1 H2].
  - by vm_compute.
  - reflexivity.
  - discriminate.
  - discriminate.
  - split; [exact H1|]. split; [exact H2 | reflexivity].
Defined.

(** X16: when the kernel command line does not name NoCloud,
    [_quick_read_instance_id] reads the directories in order and returns
    the [instance-id] of the first one that has a [meta-data] file with
    such a key; the directories that are [None] or lack the file are
    passed over, and those after it are not read. *)
Theorem quick_read_uses_first_readable_dir env
    (pathprefix2dict_meta : string → res dict)
    (pre rest : list (option string)) (d : string) (data md : dict)
    (blob iid : pyval) :
  cmdline_silent env →
  Forall (unreadable pathprefix2dict_meta) pre →
  pathprefix2dict_meta d = Ok data →
  data !! "meta-data" = Some blob →
  load_yaml env blob = Ok (Some md) →
  md !! "instance-id" = Some iid →
  _quick_read_instance_id env pathprefix2dict_meta (pre ++ Some d :: rest) = Ok iid.
Proof.
  intros (fill & Hc) Hpre Hd Hb Hy Hi. unfold _quick_read_instance_id.
  rewrite Hc. simpl.
  induction Hpre as [|[p|] pre Hp _ IH]; simpl.
  - rewrite Hd, Hb, Hy. simpl. by rewrite Hi.
  - simpl in Hp. by rewrite Hp.
  - done.
Qed.

Lemma quick_read_uses_first_readable_dir_witness :
  let pp := fun p => if String.eqb p "/var/lib/cloud/seed/nocloud-net"
                     then Ok volume_seed else Err ValueError in
  _quick_read_instance_id bare_env pp
    ([None; Some "/var/lib/cloud/seed/nocloud"]
     ++ Some "/var/lib/cloud/seed/nocloud-net" :: [Some "/other"])
  = Ok (PStr "abc").
Proof.
  intros pp.
  apply (quick_read_uses_first_readable_dir bare_env pp
           [None; Some "/var/lib/cloud/seed/nocloud"] [Some "/other"]
           "/var/lib/cloud/seed/nocloud-net" volume_seed
           {[ "instance-id" := PStr "abc" ]} (PStr "instance-id: abc")).
  - exists ∅. by vm_compute.
  - repeat constructor.
  - reflexivity.
  - reflexivity.
  - by vm_compute.
  - reflexivity.
Defined.

End NoCloudMoreProofs.

(** ** Properties of the rest of the hotplug hook *)
Module HotplugMoreProofs.
Import Hotplug Examples HotplugMore MoreExamples HotplugProofs.

Section attempts.
Context {D : Type} (c : Collab D).

Ltac run_collab :=
  repeat first
    [ match goal with
      | |- context [update_metadata_if_supported c ?a ?d] =>
          destruct (update_metadata_if_supported c a d) as [[[|]|?] ?] eqn:?
      | |- context [skip_hotplug_detect c ?d] =>
          destruct (skip_hotplug_detect c d) eqn:?
      | |- context [String.eqb (action ?s) "add"] =>
          destruct (String.eqb (action s) "add") eqn:?
      | |- context [iter_interfaces c ?d] =>
          destruct (iter_interfaces c d) as [?|?] eqn:?
      | |- context [bool_decide (0 < ?n)%nat] =>
          destruct (bool_decide (0 < n)%nat) eqn:?
      | |- context [apply_network_config c ?d] =>
          destruct (apply_network_config c d) as [[[]|?] ?] eqn:?
      | |- context [bring_up_interface c ?n ?d] =>
          destruct (bring_up_interface c n d) as [[[|]|?] ?] eqn:?
      | |- context [_write_to_cache c ?d] =>
          destruct (_write_to_cache c d) as [[[]|?] ?] eqn:?
      end
    | progress simpl ].

(** The calls of one attempt: a refresh, then no other refresh and no
    sleep; the persistence callback is the last call of an attempt that
    succeeds and is not called before. *)
Lemma attempt_calls (self : UeventHandler) w r w' :
  attempt c self w = (r, w') →
  ∃ l, log w' = (log w ++ CallRefresh :: l)%list ∧
    attempt_count l = 0%nat ∧ sleeps l = [] ∧
    (∀ u, r = Ok u → ∃ l0, l = (l0 ++ [CallSuccess])%list ∧ success_count l0 = 0%nat) ∧
    ((∀ d, (_write_to_cache c d).1 = Ok tt) → ∀ e, r = Err e → success_count l = 0%nat) ∧
    (action self ≠ "add" →
     (CallDetect ∉ l) ∧ (∀ name, CallBringUp name ∉ l)) ∧
    (action self ≠ "add" → (∀ d, skip_hotplug_detect c d = false) →
     l = [] ∧ ∃ e, r = Err e).
Proof.
  unfold attempt, update_metadata, detect_hotplugged_device, device_detected,
    apply, success, bind, ask, ret, raise, invoke.
  run_collab.
  all: intros [= <- <-]; simpl; rewrite <- ?app_assoc; simpl.
  all: eexists; split; [reflexivity|].
  all: split; [reflexivity|]; split; [reflexivity|]; split; [|split; [|split]].
  all: try (intros u Hu; try discriminate;
            match goal with
            | |- ∃ l0, ?l = _ ∧ _ => exists (removelast l); split; reflexivity
            end).
  all: try (intros Hw e' He'; try discriminate; try reflexivity;
            match goal with
            | Hc : _write_to_cache c ?d = (Err _, _) |- _ =>
                specialize (Hw d); rewrite Hc in Hw; discriminate
            end).
  all: try (intros Ha Hs;
            first [ split; [reflexivity | eauto]
                  | exfalso;
                    match goal with
                    | He : String.eqb (action ?s) "add" = true |- _ =>
                        apply String.eqb_eq in He; done
                    | Hk : skip_hotplug_detect c ?d = true |- _ =>
                        rewrite Hs in Hk; discriminate
                    end ]).
  all: intros Ha;
       try (exfalso;
            match goal with
            | He : String.eqb (action ?s) "add" = true |- _ =>
                apply String.eqb_eq in He; done
            end);
       (split; [|intros name]); intros Hin;
       repeat (apply elem_of_cons in Hin as [Hin|Hin]; [discriminate|]);
       by apply elem_of_nil in Hin.
Qed.
Lemma attempt_count_app l l' :
  attempt_count (l ++ l') = (attempt_count l + attempt_count l')%nat.
Proof. unfold attempt_count. by rewrite List.filter_app, length_app. Qed.
Lemma success_count_app l l' :
  success_count (l ++ l') = (success_count l + success_count l')%nat.
Proof. unfold success_count. by rewrite List.filter_app, length_app. Qed.

Lemma try_hotplug_loop_step (self : UeventHandler) wait rest e0 w r w' :
  try_hotplug_loop c self (wait :: rest) e0 w = (r, w') →
  (∃ u, attempt c self w = (Ok u, w') ∧ r = Ok u) ∨
  (∃ e w1, attempt c self w = (Err e, w1) ∧
     try_hotplug_loop c self rest e
       {| ds := sleep c wait (ds w1);
          hotplug_enabled_file := hotplug_enabled_file w1;
          log := (log w1 ++ [CallSleep wait])%list |} = (r, w')).
Proof.
  simpl. unfold try_except.
  destruct (attempt c self w) as [[u|e] w1] eqn:Ea.
  - intros [= <- <-]. left. eauto.
  - unfold bind at 1. unfold time_sleep. rewrite invoke_run. simpl.
    intros Hl. right. eauto.
Qed.

(** The shape of every run of the loop of [try_hotplug]. *)
Lemma try_hotplug_loop_calls (self : UeventHandler) waits e0 w r w' :
  try_hotplug_loop c self waits e0 w = (r, w') →
  ∃ calls, log w' = (log w ++ calls)%list ∧
    sleeps calls `prefix_of` waits ∧
    match r with
    | Ok _ =>
        attempt_count calls = S (length (sleeps calls)) ∧
        (length (sleeps calls) < length waits)%nat ∧
        last calls = Some CallSuccess
    | Err _ =>
        attempt_count calls = length waits ∧ sleeps calls = waits
    end.
Proof.
  revert e0 w. induction waits as [|wait rest IH]; intros e0 w.
  { simpl. intros [= <- <-]. exists []. by rewrite app_nil_r. }
  intros [(u & Ha & ->)|(e & w1 & Ha & Hl)]%try_hotplug_loop_step;
    destruct (attempt_calls _ _ _ _ Ha) as (l & Hlog & Hac & Hsl & Hok & _).
  - exists (CallRefresh :: l). split; [done|]. simpl. rewrite Hsl.
    split; [apply prefix_nil|].
    unfold attempt_count in *. simpl. rewrite Hac. split; [done|].
    split; [simpl; lia|].
    destruct (Hok u eq_refl) as (l0 & -> & _).
    by rewrite app_comm_cons, last_snoc.
  - destruct (IH _ _ Hl) as (calls & Hlog' & Hpre & Hr). simpl in Hlog'.
    exists (CallRefresh :: l ++ CallSleep wait :: calls)%list.
    split; [rewrite Hlog', Hlog, <- !app_assoc; done|].
    assert (Hs : sleeps (CallRefresh :: l ++ CallSleep wait :: calls)
                 = wait :: sleeps calls).
    { simpl. by rewrite sleeps_app, Hsl. }
    assert (Hc : attempt_count (CallRefresh :: l ++ CallSleep wait :: calls)
                 = S (attempt_count calls)).
    { change (CallRefresh :: l ++ CallSleep wait :: calls)%list
        with ([CallRefresh] ++ l ++ [CallSleep wait] ++ calls)%list.
      rewrite !attempt_count_app, Hac. reflexivity. }
    rewrite Hs, Hc. split; [by apply prefix_cons|].
    destruct r as [u|e'].
    + destruct Hr as (-> & Hlt & Hlast). split; [done|]. split; [simpl; lia|].
      change (CallRefresh :: l ++ CallSleep wait :: calls)%list
        with ((CallRefresh :: l) ++ CallSleep wait :: calls)%list.
      destruct calls as [|x calls]; [done|].
      by rewrite last_app, last_cons_cons, Hlast.
    + destruct Hr as (-> & ->). done.
Qed.

(** The persistence callback in a run of the loop, when it does not
    fail. *)
Lemma try_hotplug_loop_success (self : UeventHandler) waits e0 w r w' calls :
  (∀ d, (_write_to_cache c d).1 = Ok tt) →
  try_hotplug_loop c self waits e0 w = (r, w') →
  log w' = (log w ++ calls)%list →
  success_count calls = match r with Ok _ => 1%nat | Err _ => 0%nat end.
Proof.
  intros Hw. revert e0 w calls. induction waits as [|wait rest IH]; intros e0 w calls.
  { simpl. intros [= <- <-] Hlog.
    replace calls with ([] : list call); [done|].
    apply (app_inv_head (log w)). by rewrite app_nil_r. }
  intros [(u & Ha & ->)|(e & w1 & Ha & Hl)]%try_hotplug_loop_step Hcalls;
    destruct (attempt_calls _ _ _ _ Ha) as (l & Hlog & _ & _ & Hok & Hcache & _).
  - rewrite Hlog in Hcalls. apply app_inv_head in Hcalls as <-.
    destruct (Hok u eq_refl) as (l0 & -> & Hl0).
    change (CallRefresh :: l0 ++ [CallSuccess])%list
      with ([CallRefresh] ++ l0 ++ [CallSuccess])%list.
    rewrite !success_count_app, Hl0. reflexivity.
  - destruct (try_hotplug_loop_calls _ _ _ _ _ _ Hl) as (calls' & Hlog' & _).
    simpl in Hlog'.
    rewrite Hlog', Hlog, <- !app_assoc in Hcalls. apply app_inv_head in Hcalls as <-.
    change ((CallRefresh :: l) ++ [CallSleep wait] ++ calls')%list
      with ([CallRefresh] ++ l ++ [CallSleep wait] ++ calls')%list.
    rewrite !success_count_app, (Hcache Hw e eq_refl).
    rewrite (IH _ _ calls' Hl) by (simpl; exact Hlog'). reflexivity.
Qed.

(** An action other than [add]. *)
Lemma try_hotplug_loop_other_action (self : UeventHandler) waits e0 w r w' calls :
  action self ≠ "add" →
  try_hotplug_loop c self waits e0 w = (r, w') →
  log w' = (log w ++ calls)%list →
  (CallDetect ∉ calls) ∧ (∀ name, CallBringUp name ∉ calls) ∧
  ((∀ d, skip_hotplug_detect c d = false) →
   calls = refreshes_and_sleeps waits ∧ ∃ e, r = Err e).
Proof.
  intros Hact. revert e0 w calls. induction waits as [|wait rest IH]; intros e0 w calls.
  { simpl. intros [= <- <-] Hlog.
    replace calls with ([] : list call)
      by (apply (app_inv_head (log w)); by rewrite app_nil_r).
    split; [apply not_elem_of_nil|]. split; [intros; apply not_elem_of_nil|]. eauto. }
  intros [(u & Ha & ->)|(e & w1 & Ha & Hl)]%try_hotplug_loop_step Hcalls;
    destruct (attempt_calls _ _ _ _ Ha) as (l & Hlog & _ & _ & _ & _ & Hno & Hraise);
    destruct (Hno Hact) as [Hd Hb].
  - rewrite Hlog in Hcalls. apply app_inv_head in Hcalls as <-.
    split; [by intros [?|?]%elem_of_cons|].
    split; [intros name [?|?]%elem_of_cons; [done | by eapply Hb]|].
    intros Hs. by destruct (Hraise Hact Hs) as (_ & e & ?).
  - destruct (try_hotplug_loop_calls _ _ _ _ _ _ Hl) as (calls' & Hlog' & _).
    destruct (IH _ _ calls' Hl Hlog') as (Hd' & Hb' & Hx). simpl in Hlog'.
    rewrite Hlog', Hlog, <- !app_assoc in Hcalls. apply app_inv_head in Hcalls as <-.
    split.
    { intros [?|[?|[?|?]%elem_of_cons]%elem_of_app]%elem_of_cons; done. }
    split.
    { intros name [?|[?|[?|?]%elem_of_cons]%elem_of_app]%elem_of_cons;
        [done | by eapply Hb | done | by eapply Hb']. }
    intros Hs. destruct (Hraise Hact Hs) as (-> & _).
    destruct (Hx Hs) as (-> & He). done.
Qed.

End attempts.
(** X17: whatever the collaborators do, [try_hotplug] makes between one
    and five attempts; every attempt that fails is followed by its delay,
    so that the delays slept are a beginning of 1, 3, 5, 10, 30 and sum
    up to 49 seconds at most; when it returns, the number of attempts is
    one more than the number of delays, less than five delays were slept
    and the persistence callback is the last call made; when it raises,
    five attempts were made and all five delays slept. *)
Theorem try_hotplug_is_bounded {D} (c : Collab D) (self : UeventHandler)
    (w : world D) r w' :
  try_hotplug c self w = (r, w') →
  ∃ calls, calls_between w w' calls ∧
    sleeps calls `prefix_of` wait_times ∧
    (1 ≤ attempt_count calls ≤ 5)%nat ∧ (total_sleep calls ≤ 49)%Z ∧
    match r with
    | Ok _ =>
        attempt_count calls = S (length (sleeps calls)) ∧
        (total_sleep calls ≤ 19)%Z ∧ last calls = Some CallSuccess
    | Err _ => attempt_count calls = 5%nat ∧ sleeps calls = wait_times
    end.
Proof.
  intros Ht. destruct (try_hotplug_loop_calls c _ _ _ _ _ _ Ht)
    as (calls & Hlog & Hpre & Hr).
  exists calls. split; [done|]. split; [done|].
  assert (Hsl : sleeps calls = take (length (sleeps calls)) wait_times).
  { destruct Hpre as [k Hk]. by rewrite Hk, take_app_length. }
  pose proof (prefix_length _ _ Hpre) as Hlen. simpl in Hlen.
  unfold total_sleep.
  destruct r as [u|e].
  - destruct Hr as (Hc & Hlt & Hlast). rewrite Hc. simpl in Hlt.
    split; [lia|]. rewrite Hsl.
    destruct (length (sleeps calls)) as [|[|[|[|[|n]]]]]; simpl;
      repeat split; try lia; done.
  - destruct Hr as (Hc & Hs). rewrite Hc, Hs. simpl. repeat split; try lia; done.
Qed.

Lemma try_hotplug_is_bounded_witness :
  let c := machine_collab present_script in
  let self := {| id := Some mac; devpath := eth1; action := "add" |} in
  ∃ calls, calls_between (world0 ["network"])
             (try_hotplug c self (world0 ["network"])).2 calls ∧
    sleeps calls `prefix_of` wait_times ∧
    (1 ≤ attempt_count calls ≤ 5)%nat ∧ (total_sleep calls ≤ 49)%Z ∧
    match (try_hotplug c self (world0 ["network"])).1 with
    | Ok _ =>
        attempt_count calls = S (length (sleeps calls)) ∧
        (total_sleep calls ≤ 19)%Z ∧ last calls = Some CallSuccess
    | Err _ => attempt_count calls = 5%nat ∧ sleeps calls = wait_times
    end.
Proof.
  intros c self.
  apply (try_hotplug_is_bounded c self (world0 ["network"])).
  apply surjective_pairing.
Defined.

(** X18: when the persistence callback does not fail, [try_hotplug] calls
    it exactly once if it returns and not at all if it raises: the
    callback is the last step of an attempt, and a failed attempt has not
    reached it. *)
Theorem persistence_callback_once {D} (c : Collab D) (self : UeventHandler)
    (w : world D) r w' :
  (∀ d, (_write_to_cache c d).1 = Ok tt) →
  try_hotplug c self w = (r, w') →
  ∃ calls, calls_between w w' calls ∧
    success_count calls = match r with Ok _ => 1%nat | Err _ => 0%nat end.
Proof.
  intros Hw Ht. destruct (try_hotplug_loop_calls c _ _ _ _ _ _ Ht)
    as (calls & Hlog & _).
  exists calls. split; [done|].
  by eapply try_hotplug_loop_success.
Qed.

Lemma persistence_callback_once_witness :
  let c := machine_collab link_down_script in
  let self := {| id := Some mac; devpath := eth1; action := "add" |} in
  ∃ calls, calls_between (world0 ["network"])
             (try_hotplug c self (world0 ["network"])).2 calls ∧
    success_count calls =
      match (try_hotplug c self (world0 ["network"])).1 with
      | Ok _ => 1%nat
      | Err _ => 0%nat
      end.
Proof.
  intros c self.
  apply (persistence_callback_once c self (world0 ["network"])).
  - intros d. reflexivity.
  - apply surjective_pairing.
Defined.

(** X19: for an action other than [add], [try_hotplug] never looks for
    the device in the metadata and never brings an interface up; when the
    datasource does not skip the detection, every attempt ends right after
    its refresh, so that the calls are five refreshes, each followed by
    its delay, and [try_hotplug] raises: the configuration is not applied
    and the persistence callback is not called. *)
Theorem other_action_is_never_applied {D} (c : Collab D) (self : UeventHandler)
    (w : world D) r w' :
  action self ≠ "add" →
  try_hotplug c self w = (r, w') →
  ∃ calls, calls_between w w' calls ∧
    (CallDetect ∉ calls) ∧ (∀ name, CallBringUp name ∉ calls) ∧
    ((∀ d, skip_hotplug_detect c d = false) →
     calls = refreshes_and_sleeps wait_times ∧ ∃ e, r = Err e).
Proof.
  intros Hact Ht. destruct (try_hotplug_loop_calls c _ _ _ _ _ _ Ht)
    as (calls & Hlog & _).
  exists calls. split; [done|].
  by eapply try_hotplug_loop_other_action.
Qed.

Lemma other_action_is_never_applied_witness :
  let c := machine_collab present_script in
  let self := {| id := Some mac; devpath := eth1; action := "remove" |} in
  ∃ calls, calls_between (world0 ["network"])
             (try_hotplug c self (world0 ["network"])).2 calls ∧
    (CallDetect ∉ calls) ∧ (∀ name, CallBringUp name ∉ calls) ∧
    ((∀ d, skip_hotplug_detect c d = false) →
     calls = refreshes_and_sleeps wait_times ∧
     ∃ e, (try_hotplug c self (world0 ["network"])).1 = Err e).
Proof.
  intros c self.
  apply (other_action_is_never_applied c self (world0 ["network"])).
  - discriminate.
  - apply surjective_pairing.
Defined.

(** *** Subsystems that the map does not know *)

Lemma unknown_subsystem_enable {D} (c : Collab D) (subsystem : string)
    (w : world D) :
  SUBSYSTEM_PROPERTIES_MAP !! subsystem = None →
  ∃ r w', enable_hotplug c subsystem w = (r, w') ∧ r ≠ Ok true.
Proof.
  intros Hs. unfold enable_hotplug, bind, ask, ret, raise.
  rewrite invoke_run, Hs.
  destruct (fetch c (ds w)) as [[[|]|e] d1]; simpl; eexists _, _;
    (split; [reflexivity|]); done.
Qed.

(** X20: for a subsystem that [SUBSYSTEM_PROPERTIES_MAP] does not know,
    neither [handle_hotplug] nor [enable_hotplug] does anything beyond
    fetching the datasource: no refresh, no write of the state file, no
    installation, and the state file is as before.  When the datasource
    is fetched, [enable_hotplug] raises [KeyError], and [handle_hotplug]
    raises [RuntimeError] unless the datasource supports no hotplug event
    at all, in which case it returns. *)
Theorem unknown_subsystem_does_nothing {D} (c : Collab D) (fuel : nat)
    (devpath subsystem udevaction : string) (w : world D) :
  SUBSYSTEM_PROPERTIES_MAP !! subsystem = None →
  (∃ r w', handle_hotplug c fuel devpath subsystem udevaction w = Some (r, w') ∧
     calls_between w w' [CallFetch] ∧
     hotplug_enabled_file w' = hotplug_enabled_file w ∧
     ∀ d, fetch c (ds w) = (Ok true, d) →
       r = if bool_decide (get_supported_events c d [HOTPLUG] = []) then Ok tt
           else Err (RuntimeError "hotplug-hook: cannot handle events for subsystem")) ∧
  (∃ r w', enable_hotplug c subsystem w = (r, w') ∧
     calls_between w w' [CallFetch] ∧
     hotplug_enabled_file w' = hotplug_enabled_file w ∧
     ∀ d, fetch c (ds w) = (Ok true, d) → r = Err (KeyError subsystem)).
Proof.
  intros Hs. split.
  - unfold handle_hotplug, initialize_datasource, is_enabled, bind, ask, ret, raise.
    rewrite invoke_run, Hs.
    destruct (fetch c (ds w)) as [[[|]|e] d1]; simpl.
    + destruct (bool_decide _) eqn:Eb; simpl; eexists _, _;
        (split; [reflexivity|]); (split; [done|]); (split; [done|]);
        intros d [= <-]; by rewrite Eb.
    + eexists _, _. split; [reflexivity|]. by repeat split.
    + eexists _, _. split; [reflexivity|]. by repeat split.
  - unfold enable_hotplug, bind, ask, ret, raise.
    rewrite invoke_run, Hs.
    destruct (fetch c (ds w)) as [[[|]|e] d1]; simpl; eexists _, _;
      (split; [reflexivity|]); by repeat split.
Qed.

Lemma unknown_subsystem_does_nothing_witness :
  let c := machine_collab present_script in
  (∃ r w', handle_hotplug c 1 "/sys/block/sdb" "block" "add" (world0 ["network"])
             = Some (r, w') ∧
     calls_between (world0 ["network"]) w' [CallFetch] ∧
     hotplug_enabled_file w' = hotplug_enabled_file (world0 ["network"]) ∧
     ∀ d, fetch c (ds (world0 ["network"])) = (Ok true, d) →
       r = if bool_decide (get_supported_events c d [HOTPLUG] = []) then Ok tt
           else Err (RuntimeError "hotplug-hook: cannot handle events for subsystem")) ∧
  (∃ r w', enable_hotplug c "block" (world0 ["network"]) = (r, w') ∧
     calls_between (world0 ["network"]) w' [CallFetch] ∧
     hotplug_enabled_file w' = hotplug_enabled_file (world0 ["network"]) ∧
     ∀ d, fetch c (ds (world0 ["network"])) = (Ok true, d) → r = Err (KeyError "block")).
Proof.
  intros c.
  apply (unknown_subsystem_does_nothing c 1 "/sys/block/sdb" "block" "add"
           (world0 ["network"])).
  reflexivity.
Defined.

(** *** The forced retries *)

Lemma force_retry_loop_log {D} (c : Collab D) fuel self start (w : world D) r w' :
  force_retry_loop c fuel self start w = Some (r, w') →
  ∃ calls, log w' = (log w ++ calls)%list.
Proof.
  revert w. induction fuel as [|fuel IH]; intros w; [done|].
  rewrite force_retry_loop_S. case_bool_decide.
  2:{ intros [= <- <-]. exists []. by rewrite app_nil_r. }
  destruct (try_hotplug c self w) as [[[]|e] w1] eqn:Et;
    destruct (try_hotplug_loop_calls c _ _ _ _ _ _ Et) as (l1 & Hl1 & _).
  - intros Hl. destruct (IH _ Hl) as (l2 & Hl2).
    revert Hl2. unfold time_sleep. rewrite invoke_run. simpl. intros ->.
    rewrite Hl1, <- !app_assoc. eauto.
  - intros [= <- <-]. eauto.
Qed.

(** The loop of the forced retries begins with a round when the window
    is open. *)
Lemma force_retry_loop_first_round {D} (c : Collab D) fuel self (w1 : world D) r w' :
  (0 < sleep_total (hotplug_retry_settings c (ds w1)))%Z →
  force_retry_loop c fuel self (time c (ds w1)) w1 = Some (r, w') →
  ∃ calls, log w' = (log w1 ++ calls)%list ∧ (0 < attempt_count calls)%nat.
Proof.
  intros Hin. destruct fuel as [|fuel]; [done|]. rewrite force_retry_loop_S.
  rewrite bool_decide_true by lia.
  destruct (try_hotplug c _ w1) as [[[]|e] w2] eqn:Et;
    destruct (try_hotplug_loop_calls c _ _ _ _ _ _ Et) as (l1 & Hl1 & _ & Hc).
  - intros Hl. destruct (force_retry_loop_log _ _ _ _ _ _ _ Hl) as (l2 & Hl2).
    revert Hl2. unfold time_sleep. rewrite invoke_run. simpl. intros ->.
    eexists. split; [rewrite Hl1, <- !app_assoc; reflexivity|].
    rewrite attempt_count_app. destruct Hc as (-> & _). lia.
  - intros [= <- <-]. exists l1. split; [done|].
    destruct Hc as (-> & _). simpl. lia.
Qed.

Section clock.
Context {D : Type} (c : Collab D).

Lemma clock_ret {A} (a : A) : clock_goes_on c (@ret D A a).
Proof. intros w r w' [= <- <-]. lia. Qed.
Lemma clock_raise {A} e : clock_goes_on c (@raise D A e).
Proof. intros w r w' [= <- <-]. lia. Qed.
Lemma clock_ask {A} (f : D → A) : clock_goes_on c (ask f).
Proof. intros w r w' [= <- <-]. lia. Qed.
Lemma clock_invoke {A} ev (f : D → res A * D) :
  (∀ d, (time c d ≤ time c (f d).2)%Z) → clock_goes_on c (invoke ev f).
Proof. intros Hf w r w'. rewrite invoke_run. intros [= <- <-]. apply Hf. Qed.
Lemma clock_bind {A B} (m : @H D A) (k : A → @H D B) :
  clock_goes_on c m → (∀ a, clock_goes_on c (k a)) → clock_goes_on c (bind m k).
Proof.
  intros Hm Hk w r w'. unfold bind. destruct (m w) as [[a|e] w1] eqn:E.
  - intros Hka. pose proof (Hm _ _ _ E). pose proof (Hk _ _ _ _ Hka). lia.
  - intros [= <- <-]. by eapply Hm.
Qed.
Lemma clock_try {A} (m : @H D A) (h : exn → @H D A) :
  clock_goes_on c m → (∀ e, clock_goes_on c (h e)) → clock_goes_on c (try_except m h).
Proof.
  intros Hm Hh w r w'. unfold try_except. destruct (m w) as [[a|e] w1] eqn:E.
  - intros [= <- <-]. by eapply Hm.
  - intros Hhe. pose proof (Hm _ _ _ E). pose proof (Hh _ _ _ _ Hhe). lia.
Qed.

Lemma clock_attempt self : steady_clock c → clock_goes_on c (attempt c self).
Proof.
  intros (Hsleep & Hrefresh & Happly & Hup & Hcache).
  unfold attempt, update_metadata, detect_hotplugged_device, device_detected,
    apply, success.
  repeat first
    [ apply clock_ret | apply clock_raise | apply clock_ask
    | apply clock_invoke; first [done | intros d; simpl; lia]
    | apply clock_bind; [|intros]
    | match goal with
      | |- clock_goes_on _ (if ?x then _ else _) => destruct x
      end ].
Qed.

Lemma clock_try_hotplug_loop self waits e0 :
  steady_clock c → Forall (λ n, 0 ≤ n)%Z waits →
  clock_goes_on c (try_hotplug_loop c self waits e0).
Proof.
  intros Hc Hw. revert e0. induction Hw as [|wait rest Hwait _ IH]; intros e0; simpl.
  { apply clock_raise. }
  apply clock_try; [by apply clock_attempt|].
  intros e. apply clock_bind; [|intros; apply IH].
  unfold time_sleep. apply clock_invoke. intros d. simpl.
  destruct Hc as (Hsleep & _). pose proof (Hsleep wait d Hwait). lia.
Qed.

Lemma clock_try_hotplug self :
  steady_clock c → clock_goes_on c (try_hotplug c self).
Proof.
  intros Hc. apply clock_try_hotplug_loop; [done|].
  unfold wait_times. repeat constructor; lia.
Qed.

(** With a steady clock, settings that do not change and a positive
    [sleep_period], the loop is over after as many rounds as periods are
    needed to fill what is left of the window. *)
Lemma force_retry_loop_ends (s : HotplugRetrySettings) self start n :
  steady_clock c → fixed_settings c s → (0 < sleep_period s)%Z →
  ∀ fuel w, (n < fuel)%nat →
    (sleep_total s - (time c (ds w) - start) ≤ Z.of_nat n * sleep_period s)%Z →
    ∃ r w', force_retry_loop c fuel self start w = Some (r, w').
Proof.
  intros Hc Hs Hp. induction n as [|n IH]; intros fuel w Hfuel Hleft;
    (destruct fuel as [|fuel]; [lia|]); rewrite force_retry_loop_S, Hs.
  - rewrite bool_decide_false by lia. eauto.
  - case_bool_decide; [|eauto].
    destruct (try_hotplug c self w) as [[[]|e] w1] eqn:Et; [|eauto].
    apply IH; [lia|].
    pose proof (clock_try_hotplug self Hc _ _ _ Et) as H1.
    unfold time_sleep. rewrite invoke_run, Hs. simpl.
    destruct Hc as (Hsleep & _).
    pose proof (Hsleep (sleep_period s) (ds w1) ltac:(lia)). lia.
Qed.

End clock.

(** X21: with [force_retry], the window decides whether anything is done
    for an event that [initialize_datasource] lets through.  When
    [sleep_total] is not positive the window is over before it has begun:
    [handle_hotplug] returns, whatever the fuel, without a single attempt.
    When it is positive, and the clock is steady, the settings do not
    change and [sleep_period] is positive, [handle_hotplug] comes to an
    end within the rounds that fill the window and has made at least one
    attempt. *)
Theorem force_retry_window_decides {D} (c : Collab D)
    (devpath subsystem udevaction : string) (w w1 : world D) :
  initialize_datasource c subsystem w = (Ok true, w1) →
  force_retry (hotplug_retry_settings c (ds w1)) = true →
  ((sleep_total (hotplug_retry_settings c (ds w1)) ≤ 0)%Z →
   ∀ fuel, handle_hotplug c (S fuel) devpath subsystem udevaction w
           = Some (Ok tt, w1)) ∧
  (∀ (s : HotplugRetrySettings) (n fuel : nat),
     steady_clock c → fixed_settings c s → (0 < sleep_period s)%Z →
     (0 < sleep_total s ≤ Z.of_nat n * sleep_period s)%Z → (n < fuel)%nat →
     ∃ r w' calls,
       handle_hotplug c fuel devpath subsystem udevaction w = Some (r, w') ∧
       calls_between w1 w' calls ∧ (0 < attempt_count calls)%nat).
Proof.
  intros Hi Hf. unfold handle_hotplug. rewrite Hi, Hf. simpl negb. cbv iota.
  split.
  - intros Ht fuel. by rewrite force_retry_loop_S, bool_decide_false by lia.
  - intros s n fuel Hc Hs Hp [Hpos Hn] Hfuel.
    set (self := {| id := read_sys_net_safe c (ds w1) (basename devpath) "address";
                    devpath := devpath; action := udevaction |}).
    destruct (force_retry_loop_ends c s self (time c (ds w1)) n Hc Hs Hp fuel w1 Hfuel)
      as (r & w' & Hl); [lia|].
    exists r, w'.
    destruct (force_retry_loop_first_round c fuel self w1 r w') as (calls & Hlog & Hcnt).
    { by rewrite Hs. }
    { exact Hl. }
    exists calls. by repeat split.
Qed.

(** A window of 8 seconds with 5 seconds between the rounds, on a machine
    whose clock only sleeping advances. *)
Lemma force_retry_window_decides_witness :
  let c := machine_collab forced_script in
  let w1 := (initialize_datasource c "net" (world0 ["network"])).2 in
  ∃ r w' calls,
    handle_hotplug c 3 eth1 "net" "add" (world0 ["network"]) = Some (r, w') ∧
    calls_between w1 w' calls ∧ (0 < attempt_count calls)%nat.
Proof.
  intros c w1.
  destruct (force_retry_window_decides c eth1 "net" "add" (world0 ["network"]) w1)
    as [_ H]; [reflexivity | reflexivity |].
  apply (H force_retry_8s 2%nat 3%nat).
  - unfold steady_clock. simpl. repeat split; intros; lia.
  - intros d. reflexivity.
  - simpl. lia.
  - simpl. lia.
  - lia.
Defined.

(** X22: [handle_hotplug] comes to an end when the clock is steady
    (sleeping for [n] seconds advances it by [n] at least, and no
    collaborator of an attempt sets it back), the retry settings do not
    change and [sleep_period] is positive: the loop of the forced retries
    makes at most as many rounds as periods are needed to fill
    [sleep_total]. *)
Theorem handle_hotplug_terminates {D} (c : Collab D) (s : HotplugRetrySettings)
    (n fuel : nat) (devpath subsystem udevaction : string) (w : world D) :
  steady_clock c → fixed_settings c s → (0 < sleep_period s)%Z →
  (sleep_total s ≤ Z.of_nat n * sleep_period s)%Z →
  (n < fuel)%nat →
  ∃ r w', handle_hotplug c fuel devpath subsystem udevaction w = Some (r, w').
Proof.
  intros Hc Hs Hp Hn Hfuel. unfold handle_hotplug.
  destruct (initialize_datasource c subsystem w) as [[[|]|e] w1]; [|eauto..].
  destruct (negb _); [destruct (try_hotplug c _ w1); eauto|].
  eapply force_retry_loop_ends; eauto. lia.
Qed.

Lemma handle_hotplug_terminates_witness :
  ∃ r w', handle_hotplug (machine_collab forced_script) 3 eth1 "net" "add"
            (world0 ["network"]) = Some (r, w').
Proof.
  apply (handle_hotplug_terminates (machine_collab forced_script) force_retry_8s 2 3).
  - unfold steady_clock. simpl. repeat split; intros; lia.
  - intros d. reflexivity.
  - simpl. lia.
  - simpl. lia.
  - lia.
Defined.

(** *** Setting hotplug up *)

(** X23: when the state file has been written and the installation of
    the udev hook fails, [enable_hotplug] raises with the scope already
    in the state file; the next [enable_hotplug] then finds the scope
    there and returns [True] after the fetch alone: the installation that
    failed is not tried again. *)
Theorem failed_installation_is_not_retried {D} (c : Collab D)
    (subsystem : string) (scope : EventScope) (w : world D) (d1 d2 d3 d4 : D)
    (u : unit) (e : exn) :
  SUBSYSTEM_PROPERTIES_MAP !! subsystem = Some scope →
  fetch c (ds w) = (Ok true, d1) →
  hotplug_supported c d1 scope = true →
  scope_value scope ∉ hotplug_enabled_file w →
  write_file c (hotplug_enabled_file w ++ [scope_value scope])%list d1 = (Ok u, d2) →
  install_hotplug c d2 = (Err e, d3) →
  fetch c d3 = (Ok true, d4) →
  hotplug_supported c d4 scope = true →
  ∃ w1, enable_hotplug c subsystem w = (Err e, w1) ∧
    hotplug_enabled_file w1 = (hotplug_enabled_file w ++ [scope_value scope])%list ∧
    ∃ w2, enable_hotplug c subsystem w1 = (Ok true, w2) ∧
      calls_between w1 w2 [CallFetch] ∧
      hotplug_enabled_file w2 = hotplug_enabled_file w1.
Proof.
  intros Hs Hf Hsup Hnin Hw Hi Hf' Hsup'.
  rewrite (enable_hotplug_run c _ _ _ Hs), Hf. simpl. rewrite Hsup. simpl.
  rewrite bool_decide_false by done. rewrite Hw, Hi.
  eexists. split; [reflexivity|]. split; [done|].
  rewrite (enable_hotplug_run c _ _ _ Hs). simpl. rewrite Hf'. simpl.
  rewrite Hsup'. simpl. rewrite bool_decide_true.
  - eexists. split; [reflexivity|]. by split.
  - apply elem_of_app. right. apply list_elem_of_here.
Qed.

Lemma failed_installation_is_not_retried_witness :
  let c := faulty_collab present_script true false in
  ∃ w1, enable_hotplug c "net" (world0 []) =
          (Err (OtherException "ProcessExecutionError"), w1) ∧
    hotplug_enabled_file w1
      = (hotplug_enabled_file (world0 []) ++ [scope_value NETWORK])%list ∧
    ∃ w2, enable_hotplug c "net" w1 = (Ok true, w2) ∧
      calls_between w1 w2 [CallFetch] ∧
      hotplug_enabled_file w2 = hotplug_enabled_file w1.
Proof.
  intros c.
  apply (failed_installation_is_not_retried c "net" NETWORK (world0 [])
           (ds (world0 [])) (ds (world0 [])) (ds (world0 [])) (ds (world0 [])) tt).
  - reflexivity.
  - reflexivity.
  - reflexivity.
  - apply not_elem_of_nil.
  - reflexivity.
  - reflexivity.
  - reflexivity.
  - reflexivity.
Defined.

(** *** The command line entry *)

Section calls.
Context {D : Type} (c : Collab D) (P : call → Prop).

Lemma calls_only_ret {A} (a : A) : calls_only P (@ret D A a).
Proof. intros w r w' [= <- <-]. exists []. split; [|done]. red. by rewrite app_nil_r. Qed.
Lemma calls_only_raise {A} e : calls_only P (@raise D A e).
Proof. intros w r w' [= <- <-]. exists []. split; [|done]. red. by rewrite app_nil_r. Qed.
Lemma calls_only_ask {A} (f : D → A) : calls_only P (ask f).
Proof. intros w r w' [= <- <-]. exists []. split; [|done]. red. by rewrite app_nil_r. Qed.
Lemma calls_only_invoke {A} ev (f : D → res A * D) :
  P ev → calls_only P (invoke ev f).
Proof.
  intros Hev w r w'. rewrite invoke_run. intros [= <- <-].
  exists [ev]. split; [done|]. by constructor.
Qed.
Lemma calls_only_bind {A B} (m : @H D A) (k : A → @H D B) :
  calls_only P m → (∀ a, calls_only P (k a)) → calls_only P (bind m k).
Proof.
  intros Hm Hk w r w'. unfold bind. destruct (m w) as [[a|e] w1] eqn:E;
    destruct (Hm _ _ _ E) as (l1 & Hl1 & HP1).
  - intros Hka. destruct (Hk _ _ _ _ Hka) as (l2 & Hl2 & HP2).
    exists (l1 ++ l2)%list. split; [|by apply Forall_app].
    red. rewrite Hl2, Hl1. by rewrite app_assoc.
  - intros [= <- <-]. eauto.
Qed.
Lemma calls_only_try {A} (m : @H D A) (h : exn → @H D A) :
  calls_only P m → (∀ e, calls_only P (h e)) → calls_only P (try_except m h).
Proof.
  intros Hm Hh w r w'. unfold try_except. destruct (m w) as [[a|e] w1] eqn:E;
    destruct (Hm _ _ _ E) as (l1 & Hl1 & HP1).
  - intros [= <- <-]. eauto.
  - intros Hhe. destruct (Hh _ _ _ _ Hhe) as (l2 & Hl2 & HP2).
    exists (l1 ++ l2)%list. split; [|by apply Forall_app].
    red. rewrite Hl2, Hl1. by rewrite app_assoc.
Qed.
End calls.

Section no_set_up.
Context {D : Type} (c : Collab D).

Ltac co :=
  repeat first
    [ apply calls_only_ret | apply calls_only_raise | apply calls_only_ask
    | apply calls_only_invoke; simpl; tauto
    | apply calls_only_bind; [|intros]
    | match goal with
      | |- calls_only _ (if ?x then _ else _) => destruct x
      | |- calls_only _ (match ?x with _ => _ end) => destruct x
      end ].

Lemma no_set_up_attempt self : calls_only (λ ev, ¬ sets_up ev) (attempt c self).
Proof.
  unfold attempt, update_metadata, detect_hotplugged_device, device_detected,
    apply, success. co.
Qed.

Lemma no_set_up_try_hotplug_loop self waits e0 :
  calls_only (λ ev, ¬ sets_up ev) (try_hotplug_loop c self waits e0).
Proof.
  revert e0. induction waits as [|wait rest IH]; intros e0; simpl; [co|].
  apply calls_only_try; [apply no_set_up_attempt|].
  intros e. unfold time_sleep. co. apply IH.
Qed.

Lemma no_set_up_initialize_datasource subsystem :
  calls_only (λ ev, ¬ sets_up ev) (initialize_datasource c subsystem).
Proof.
  unfold initialize_datasource, is_enabled. co.
  intros w r w' [= <- <-]. exists []. split; [|done]. red. by rewrite app_nil_r.
Qed.

Lemma no_set_up_force_retry_loop fuel self start w r w' :
  force_retry_loop c fuel self start w = Some (r, w') →
  ∃ calls, calls_between w w' calls ∧ Forall (λ ev, ¬ sets_up ev) calls.
Proof.
  revert w. induction fuel as [|fuel IH]; intros w; [done|].
  rewrite force_retry_loop_S.
  case_bool_decide.
  2:{ intros [= <- <-]. exists []. split; [|done]. red. by rewrite app_nil_r. }
  destruct (try_hotplug c self w) as [[[]|e] w1] eqn:Et;
    destruct (no_set_up_try_hotplug_loop _ _ _ _ _ _ Et) as (l1 & Hl1 & HP1).
  - intros Hl. destruct (IH _ Hl) as (l2 & Hl2 & HP2).
    revert Hl2. unfold time_sleep. rewrite invoke_run. unfold calls_between. simpl.
    intros Hl2.
    exists (l1 ++ CallSleep (sleep_period (hotplug_retry_settings c (ds w1)))
                  :: l2)%list.
    split.
    + unfold calls_between. rewrite Hl2, Hl1. by rewrite <- !app_assoc.
    + apply Forall_app. split; [done|]. constructor; [simpl; tauto | done].
  - intros [= <- <-]. eauto.
Qed.

Lemma no_set_up_handle_hotplug fuel devpath subsystem udevaction w r w' :
  handle_hotplug c fuel devpath subsystem udevaction w = Some (r, w') →
  ∃ calls, calls_between w w' calls ∧ Forall (λ ev, ¬ sets_up ev) calls.
Proof.
  unfold handle_hotplug.
  destruct (initialize_datasource c subsystem w) as [[[|]|e] w1] eqn:Ei;
    destruct (no_set_up_initialize_datasource _ _ _ _ Ei) as (l1 & Hl1 & HP1);
    [|intros [= <- <-]; eauto..].
  assert (Hrest : ∀ x : option (res unit * world D),
    (∀ r w', x = Some (r, w') →
       ∃ calls, calls_between w1 w' calls ∧ Forall (λ ev, ¬ sets_up ev) calls) →
    x = Some (r, w') →
    ∃ calls, calls_between w w' calls ∧ Forall (λ ev, ¬ sets_up ev) calls).
  { intros x Hx Hr. destruct (Hx _ _ Hr) as (l2 & Hl2 & HP2).
    exists (l1 ++ l2)%list. split; [|by apply Forall_app].
    red. rewrite Hl2, Hl1. by rewrite app_assoc. }
  destruct (negb _); apply Hrest.
  - intros r0 w0 [= Ht]. eapply no_set_up_try_hotplug_loop, Ht.
  - intros r0 w0. apply no_set_up_force_retry_loop.
Qed.

End no_set_up.

(** X24: hotplug is set up by [enable] run as root and by nothing else:
    whatever [handle_args] does for [query], for [handle], or for
    [enable] run by another user, the state file is left as it was, it is
    not written and the udev hook is not installed. *)
Theorem only_enable_as_root_sets_up {D} (c : Collab D) (uid : Z) (fuel : nat)
    (args : Args) (w : world D) (out : cli_result) (w' : world D) :
  handle_args c uid fuel args w = Some (out, w') →
  action_ args ≠ Enable ∨ uid ≠ 0%Z →
  hotplug_enabled_file w' = hotplug_enabled_file w ∧
  ∃ calls, calls_between w w' calls ∧ Forall (λ ev, ¬ sets_up ev) calls.
Proof.
  unfold handle_args. destruct (action_ args) as [|devpath udevaction|].
  - destruct (initialize_datasource c (subsystem args) w) as [[b|e] w1] eqn:Ei.
    + intros [= <- <-] _.
      split; [eapply keeps_file_initialize_datasource, Ei|].
      eapply no_set_up_initialize_datasource, Ei.
    + intros Hout _.
      assert (w' = w1) as -> by (destruct e; by injection Hout as <- <-).
      split; [eapply keeps_file_initialize_datasource, Ei|].
      eapply no_set_up_initialize_datasource, Ei.
  - destruct (handle_hotplug c fuel devpath (subsystem args) udevaction w)
      as [[r w1]|] eqn:Eh; [|done].
    intros Hout _.
    assert (w' = w1) as -> by (destruct r; by injection Hout as <- <-).
    split; [eapply handle_hotplug_keeps, Eh|].
    eapply no_set_up_handle_hotplug, Eh.
  - intros Hout [?|Huid]; [done|].
    rewrite (proj2 (Z.eqb_neq uid 0) Huid) in Hout. simpl in Hout.
    injection Hout as <- <-. split; [done|].
    exists []. split; [|done]. red. by rewrite app_nil_r.
Qed.

Lemma only_enable_as_root_sets_up_witness :
  let c := machine_collab present_script in
  let args := {| subsystem := "net"; action_ := Handle eth1 "add" |} in
  ∃ out w', handle_args c 0 1 args (world0 ["network"]) = Some (out, w') ∧
    hotplug_enabled_file w' = hotplug_enabled_file (world0 ["network"]) ∧
    ∃ calls, calls_between (world0 ["network"]) w' calls ∧
             Forall (λ ev, ¬ sets_up ev) calls.
Proof.
  intros c args. eexists _, _. split; [vm_compute; reflexivity|].
  eapply (only_enable_as_root_sets_up c 0 1 args (world0 ["network"])).
  - vm_compute. reflexivity.
  - left. discriminate.
Defined.

(** X25: [query] and [handle] agree: when [query] prints [disabled] for a
    subsystem, [handle] for that subsystem, whatever the device and the
    action, returns without an attempt, the fetch being the only call
    made. *)
Theorem query_disabled_means_handle_ignores {D} (c : Collab D) (uid uid' : Z)
    (fuel fuel' : nat) (subsys devpath udevaction : string) (w w1 : world D) :
  handle_args c uid fuel {| subsystem := subsys; action_ := Query |} w
    = Some ({| stdout := ["disabled"]; status := Returned |}, w1) →
  handle_args c uid' fuel'
    {| subsystem := subsys; action_ := Handle devpath udevaction |} w
    = Some ({| stdout := []; status := Returned |}, w1) ∧
  calls_between w w1 [CallFetch].
Proof.
  unfold handle_args, handle_hotplug. simpl.
  destruct (initialize_datasource c subsys w) as [[[|]|e] w0] eqn:Ei.
  - done.
  - intros [= <-]. split; [done|].
    by destruct (initialize_datasource_keeps c _ _ _ _ Ei).
  - by destruct e.
Qed.

Lemma query_disabled_means_handle_ignores_witness :
  let c := machine_collab present_script in
  let w1 := (initialize_datasource c "net" (world0 [])).2 in
  handle_args c 0 1 {| subsystem := "net"; action_ := Handle eth1 "add" |} (world0 [])
    = Some ({| stdout := []; status := Returned |}, w1) ∧
  calls_between (world0 []) w1 [CallFetch].
Proof.
  intros c w1.
  apply (query_disabled_means_handle_ignores c 1000 0 1 1 "net" eth1 "add"
           (world0 []) w1).
  reflexivity.
Defined.

(** X26: [handle_args] ends an [enable] with the message that hotplug is
    enabled only when it is run as root for a subsystem of the map whose
    scope is in the state file afterwards; every other [enable] leaves
    through [sys.exit(1)] or raises. *)
Theorem enable_reports_what_is_recorded {D} (c : Collab D) (uid : Z) (fuel : nat)
    (subsys : string) (w : world D) (out : cli_result) (w' : world D) :
  handle_args c uid fuel {| subsystem := subsys; action_ := Enable |} w
    = Some (out, w') →
  status out = Returned →
  uid = 0%Z ∧
  stdout out = ["Enabled cloud-init hotplug for subsystem=" +:+ subsys] ∧
  ∃ scope, SUBSYSTEM_PROPERTIES_MAP !! subsys = Some scope ∧
           scope_value scope ∈ hotplug_enabled_file w'.
Proof.
  unfold handle_args. simpl.
  destruct (Z.eqb_spec uid 0) as [->|Hne]; simpl; [|by intros [= <- <-]].
  destruct (SUBSYSTEM_PROPERTIES_MAP !! subsys) as [scope|] eqn:Hs.
  2:{ destruct (unknown_subsystem_enable c subsys w Hs) as (r & w1 & -> & Hr).
      destruct r as [[|]|e]; by intros [= <- <-]. }
  rewrite (enable_hotplug_run c _ _ _ Hs).
  destruct (fetch c (ds w)) as [[[|]|e] d1]; simpl; try by intros [= <- <-].
  destruct (hotplug_supported c d1 scope); simpl; [|by intros [= <- <-]].
  case_bool_decide as Hin.
  { intros [= <- <-] _. repeat split. eauto. }
  destruct (write_file c _ d1) as [[[]|e] d2]; [|by intros [= <- <-]].
  destruct (install_hotplug c d2) as [[[]|e] d3]; [|by intros [= <- <-]].
  intros [= <- <-] _. repeat split. exists scope. split; [done|]. simpl.
  apply elem_of_app. right. apply list_elem_of_here.
Qed.

Lemma enable_reports_what_is_recorded_witness :
  let c := machine_collab present_script in
  let r := handle_args c 0 1 {| subsystem := "net"; action_ := Enable |} (world0 []) in
  ∃ out w', r = Some (out, w') ∧
    0%Z = 0%Z ∧
    stdout out = ["Enabled cloud-init hotplug for subsystem=" +:+ "net"] ∧
    ∃ scope, SUBSYSTEM_PROPERTIES_MAP !! "net" = Some scope ∧
             scope_value scope ∈ hotplug_enabled_file w'.
Proof.
  intros c r. eexists _, _. split; [vm_compute; reflexivity|].
  eapply (enable_reports_what_is_recorded c 0 1 "net" (world0 [])).
  - vm_compute. reflexivity.
  - reflexivity.
Defined.

(** X27: [handle_hotplug] starts an attempt only when the event is let
    through: the datasource was fetched, it supports some hotplug event,
    the subsystem is in the map and its scope is enabled.  A run with a
    refresh in its calls has passed every test of
    [initialize_datasource]. *)
Theorem attempt_only_when_enabled {D} (c : Collab D) (fuel : nat)
    (devpath subsystem udevaction : string) (w : world D) r w' calls :
  handle_hotplug c fuel devpath subsystem udevaction w = Some (r, w') →
  calls_between w w' calls →
  (0 < attempt_count calls)%nat →
  ∃ d scope, fetch c (ds w) = (Ok true, d) ∧
    get_supported_events c d [HOTPLUG] ≠ [] ∧
    SUBSYSTEM_PROPERTIES_MAP !! subsystem = Some scope ∧
    update_event_enabled c d (hotplug_enabled_file w) HOTPLUG scope = true.
Proof.
  unfold handle_hotplug, calls_between.
  assert (Hstop : (log w ++ [CallFetch])%list = (log w ++ calls)%list →
    ¬ (0 < attempt_count calls)%nat).
  { intros H2. apply app_inv_head in H2 as <-.
    unfold attempt_count. simpl. lia. }
  unfold initialize_datasource, is_enabled, bind, ask, ret, raise.
  rewrite invoke_run.
  destruct (fetch c (ds w)) as [[[|]|e] d1] eqn:Ef; simpl.
  - case_bool_decide as Hsup; simpl.
    { intros [= <- <-] Hl Hc. by destruct (Hstop Hl). }
    destruct (SUBSYSTEM_PROPERTIES_MAP !! subsystem) as [scope|] eqn:Hs; simpl.
    2:{ intros [= <- <-] Hl Hc. by destruct (Hstop Hl). }
    destruct (update_event_enabled c d1 _ HOTPLUG scope) eqn:Hen; simpl.
    2:{ intros [= <- <-] Hl Hc. by destruct (Hstop Hl). }
    intros _ _ _. exists d1, scope. done.
  - intros [= <- <-] Hl Hc. by destruct (Hstop Hl).
  - intros [= <- <-] Hl Hc. by destruct (Hstop Hl).
Qed.

Lemma attempt_only_when_enabled_witness :
  let c := machine_collab present_script in
  ∃ d scope, fetch c (ds (world0 ["network"])) = (Ok true, d) ∧
    get_supported_events c d [HOTPLUG] ≠ [] ∧
    SUBSYSTEM_PROPERTIES_MAP !! "net" = Some scope ∧
    update_event_enabled c d (hotplug_enabled_file (world0 ["network"]))
      HOTPLUG scope = true.
Proof.
  intros c.
  eapply (attempt_only_when_enabled c 1 eth1 "net" "add" (world0 ["network"])).
  - vm_compute. reflexivity.
  - reflexivity.
  - vm_compute. lia.
Defined.
End HotplugMoreProofs.
